(** * Transfermarkt league-injuries scraper: a shallow embedding

  This development embeds [app/services/players/league_injuries.py]
  (class [TransfermarktLeagueInjuries]) and states the properties of
  its table locator, column mapper, row parser, date normaliser and
  fetch bootstrap.  It also embeds the scripts that call the service:
  [fetch_player_info/fetch_injuries.py] and
  [fetch_player_info/fetch_injuries_optimized.py], which merge the rows
  of a response with the documents of a MongoDB collection, and
  [test/fetch_player_info.py], which searches players by name with
  retries.  Their collaborators (the collection, the HTTP session, the
  clock) are parameters of the embedding.

  Conventions of the embedding.
  - Python [str] values are [string]s of ASCII characters.  On such
    texts [unicodedata.normalize("NFKD", _)] and the combining-mark
    filter of [_norm_text] are identities, [\d] is [0-9], [\w] is
    [A-Za-z0-9_] and [\s] is the ASCII white space of [str.isspace].
  - A parsed page is a tree of elements and text nodes; every XPath
    expression of the source is a function returning the selected
    nodes in document order.
  - A call that may raise returns a [result]; [None] is [option]'s.
  - [urllib.parse] and [datetime.strptime] are embedded after
    CPython 3.11 in the C locale. *)

From Stdlib Require Import ZArith Lia Bool.
From Stdlib Require Import Ascii String.
From stdpp Require Import base option list strings gmap.

Local Open Scope Z_scope.

(** ** Exceptions and results *)

Inductive exn : Type :=
| ValueError (msg : string)
| IndexError (msg : string)
| OtherException (name msg : string).

Inductive result (A : Type) : Type :=
| Ok (a : A)
| Raise (e : exn).

Arguments Ok {A} a.
Arguments Raise {A} e.

Definition bind {A B : Type} (r : result A) (k : A -> result B) : result B :=
  match r with
  | Ok a => k a
  | Raise e => Raise e
  end.

Notation "'let*' x ':=' r 'in' k" := (bind r (fun x => k))
  (at level 10, x pattern, r at level 100, k at level 200).

(** ** Python string operations *)

Module PyStr.

Definition code (c : ascii) : nat := nat_of_ascii c.

Definition between (lo hi : nat) (c : ascii) : bool :=
  (lo <=? code c)%nat && (code c <=? hi)%nat.

(** [str.isspace] on ASCII: TAB..CR, FS..US and the space. *)
Definition isspace (c : ascii) : bool :=
  between 9 13 c || between 28 32 c.

Definition isdigit (c : ascii) : bool := between 48 57 c.
Definition isupper (c : ascii) : bool := between 65 90 c.
Definition islower (c : ascii) : bool := between 97 122 c.
Definition isalpha (c : ascii) : bool := isupper c || islower c.

(** The class [\w] of [re]. *)
Definition isword (c : ascii) : bool :=
  isalpha c || isdigit c || Ascii.eqb c "_".

Definition lower_char (c : ascii) : ascii :=
  if isupper c then ascii_of_nat (code c + 32) else c.

Fixpoint smap (f : ascii -> ascii) (s : string) : string :=
  match s with
  | EmptyString => EmptyString
  | String c s' => String (f c) (smap f s')
  end.

Definition lower (s : string) : string := smap lower_char s.

Fixpoint sfilter (p : ascii -> bool) (s : string) : string :=
  match s with
  | EmptyString => EmptyString
  | String c s' => if p c then String c (sfilter p s') else sfilter p s'
  end.

Fixpoint sall (p : ascii -> bool) (s : string) : bool :=
  match s with
  | EmptyString => true
  | String c s' => p c && sall p s'
  end.

Definition is_empty (s : string) : bool :=
  match s with EmptyString => true | _ => false end.

(** Truthiness of an optional string: [None] and [""] are falsy. *)
Definition truthy (o : option string) : bool :=
  match o with
  | Some s => negb (is_empty s)
  | None => false
  end.

(** [s.lstrip(chars)] and [s.rstrip(chars)], the character set given
    as a predicate. *)
Fixpoint lstrip_by (p : ascii -> bool) (s : string) : string :=
  match s with
  | EmptyString => EmptyString
  | String c s' => if p c then lstrip_by p s' else s
  end.

Fixpoint rstrip_by (p : ascii -> bool) (s : string) : string :=
  match s with
  | EmptyString => EmptyString
  | String c s' =>
      let r := rstrip_by p s' in
      if is_empty r && p c then EmptyString else String c r
  end.

Definition strip (s : string) : string :=
  lstrip_by isspace (rstrip_by isspace s).

(** [s.startswith(pre)]. *)
Fixpoint startswith (pre s : string) : bool :=
  match pre, s with
  | EmptyString, _ => true
  | String a pre', String b s' => Ascii.eqb a b && startswith pre' s'
  | String _ _, EmptyString => false
  end.

(** [sub in s]. *)
Fixpoint contains (sub s : string) : bool :=
  startswith sub s ||
  match s with
  | EmptyString => false
  | String _ s' => contains sub s'
  end.

Definition endswith (suf s : string) : bool :=
  let n := String.length s in
  let k := String.length suf in
  (k <=? n)%nat && String.eqb (substring (n - k) k s) suf.

(** [c in s] for a single character. *)
Fixpoint has_char (c : ascii) (s : string) : bool :=
  match s with
  | EmptyString => false
  | String d s' => Ascii.eqb c d || has_char c s'
  end.

(** [s.partition(c)] at the first character satisfying [p]: the part
    before it, and the rest starting with it (empty when absent). *)
Fixpoint break (p : ascii -> bool) (s : string) : string * string :=
  match s with
  | EmptyString => (EmptyString, EmptyString)
  | String c s' =>
      if p c then (EmptyString, s)
      else let '(a, b) := break p s' in (String c a, b)
  end.

(** [sep.join(parts)]. *)
Fixpoint join (sep : string) (parts : list string) : string :=
  match parts with
  | [] => EmptyString
  | [x] => x
  | x :: rest => x +:+ sep +:+ join sep rest
  end.

(** [int(s)] for a string of ASCII digits. *)
Definition digit_val (c : ascii) : Z := Z.of_nat (code c) - 48.

Fixpoint int_acc (acc : Z) (s : string) : Z :=
  match s with
  | EmptyString => acc
  | String c s' => int_acc (10 * acc + digit_val c) s'
  end.

Definition int (s : string) : Z := int_acc 0 s.

(** [str(n)] for [0 <= n < 10000], the range of a calendar year. *)
Definition digit_char (d : Z) : ascii := ascii_of_nat (Z.to_nat (48 + d)).

Definition str_of_digit (d : Z) : string := String (digit_char d) EmptyString.

(** [f"{n:02d}"] for [0 <= n < 100]. *)
Definition fmt_02d (n : Z) : string :=
  str_of_digit (n / 10) +:+ str_of_digit (n mod 10).

Definition fmt_04d (n : Z) : string :=
  fmt_02d (n / 100) +:+ fmt_02d (n mod 100).

(** [strftime]'s [%Y] for [1 <= n <= 9999] as the C library prints it on
    Linux: the decimal numeral, not padded. *)
Definition fmt_year (n : Z) : string :=
  lstrip_by (Ascii.eqb "0") (fmt_04d n).

End PyStr.

(** ** Parsed HTML pages *)

#[warnings="-register-all"] Inductive node : Type :=
| Element (tag : string) (attrib : list (string * string)) (children : list node)
| TextNode (text : string).

Module Html.

Definition children_of (n : node) : list node :=
  match n with
  | Element _ _ cs => cs
  | TextNode _ => []
  end.

Definition is_tag (t : string) (n : node) : bool :=
  match n with
  | Element t' _ _ => String.eqb t t'
  | TextNode _ => false
  end.

Fixpoint assoc (k : string) (l : list (string * string)) : option string :=
  match l with
  | [] => None
  | (k', v) :: l' => if String.eqb k k' then Some v else assoc k l'
  end.

(** [@name] of an element. *)
Definition attr (name : string) (n : node) : option string :=
  match n with
  | Element _ a _ => assoc name a
  | TextNode _ => None
  end.

(** [contains(@name, sub)]; a missing attribute converts to the empty
    string. *)
Definition attr_contains (name sub : string) (n : node) : bool :=
  match attr name n with
  | Some v => PyStr.contains sub v
  | None => PyStr.contains sub EmptyString
  end.

(** Proper descendants, in document order. *)
Fixpoint descendants (n : node) : list node :=
  match n with
  | Element _ _ cs => List.flat_map (fun c => c :: descendants c) cs
  | TextNode _ => []
  end.

(** [//t] from the page root: the root is a child of the document
    node, so it is a candidate itself. *)
Definition xpath_all (t : string) (page : node) : list node :=
  List.filter (is_tag t) (page :: descendants page).

(** [.//t]. *)
Definition xpath_desc (t : string) (n : node) : list node :=
  List.filter (is_tag t) (descendants n).

(** [./t]. *)
Definition xpath_child (t : string) (n : node) : list node :=
  List.filter (is_tag t) (children_of n).

(** [.//text()]. *)
Definition xpath_text (n : node) : list string :=
  List.flat_map (fun d => match d with TextNode s => [s] | _ => [] end)
                (descendants n).

(** Nodes named [t] below [n] (or [n] itself when [inside]) that have a
    proper ancestor named [anc]; [inside] records that such an ancestor
    has been passed. *)
Fixpoint select_under (anc t : string) (inside : bool) (n : node) : list node :=
  match n with
  | Element t' _ cs =>
      (if inside && String.eqb t t' then [n] else []) ++
      List.flat_map (select_under anc t (inside || String.eqb anc t')) cs
  | TextNode _ => []
  end.

(** [.//thead//th]. *)
Definition xpath_thead_th (table : node) : list node :=
  List.flat_map (select_under "thead" "th" false) (children_of table).

(** The predicate [[.//thead//th]]: the node-set is not empty. *)
Definition has_header (table : node) : bool :=
  match xpath_thead_th table with
  | [] => false
  | _ :: _ => true
  end.

Definition items_or_responsive (table : node) : bool :=
  attr_contains "class" "items" table || attr_contains "class" "responsive" table.

End Html.

(** ** Table locator *)

(** [//table[contains(@class,'items') or contains(@class,'responsive')][.//thead//th]] *)
Definition xpath_marked_tables (page : node) : list node :=
  List.filter Html.has_header
    (List.filter Html.items_or_responsive (Html.xpath_all "table" page)).

(** [//table[.//thead//th]] *)
Definition xpath_header_tables (page : node) : list node :=
  List.filter Html.has_header (Html.xpath_all "table" page).

Definition not_found : exn := ValueError "Injuries table not found on the page.".

Definition _get_injuries_table (page : node) : result node :=
  let candidates := xpath_marked_tables page in
  let candidates :=
    match candidates with
    | [] => xpath_header_tables page
    | _ => candidates
    end in
  match candidates with
  | [] => Raise not_found
  | t :: _ => Ok t
  end.

(** ** Date normaliser *)

Module Dates.

Import PyStr.

Definition placeholders : list string := ["-"; "?"; "unknown"; "Unknown"].

(** The longest prefix of digits, and what follows it. *)
Definition span_digits (s : string) : string * string :=
  break (fun c => negb (isdigit c)) s.

Definition in_range (lo hi n : nat) : bool := (lo <=? n)%nat && (n <=? hi)%nat.

(** [(\d{lo,hi})] followed by the literal [sep], which is not a digit:
    the group is the whole run of digits before [sep]. *)
Definition re_digits_sep (lo hi : nat) (sep : ascii) (s : string)
  : option (string * string) :=
  let '(d, rest) := span_digits s in
  match rest with
  | String c r =>
      if in_range lo hi (String.length d) && Ascii.eqb c sep
      then Some (d, r) else None
  | EmptyString => None
  end.

(** [(\d{lo,hi})$] on a string without trailing newline. *)
Definition re_digits_end (lo hi : nat) (s : string) : option string :=
  let '(d, rest) := span_digits s in
  if in_range lo hi (String.length d) && is_empty rest then Some d else None.

(** [^\d{4}-\d{2}-\d{2}$] *)
Definition re_iso (s : string) : bool :=
  match re_digits_sep 4 4 "-" s with
  | Some (_, r1) =>
      match re_digits_sep 2 2 "-" r1 with
      | Some (_, r2) =>
          match re_digits_end 2 2 r2 with
          | Some _ => true
          | None => false
          end
      | None => false
      end
  | None => false
  end.

(** The groups [(d, mo, y)] of [^(\d{1,2})SEP(\d{1,2})SEP(\d{ylo,yhi})$]. *)
Definition re_dmy (sep : ascii) (ylo yhi : nat) (s : string)
  : option (string * string * string) :=
  match re_digits_sep 1 2 sep s with
  | Some (d, r1) =>
      match re_digits_sep 1 2 sep r1 with
      | Some (mo, r2) =>
          match re_digits_end ylo yhi r2 with
          | Some y => Some (d, mo, y)
          | None => None
          end
      | None => None
      end
  | None => None
  end.

(** [f"{y}-{int(mo):02d}-{int(d):02d}"] *)
Definition fmt_ymd (y mo d : string) : string :=
  y +:+ "-" +:+ fmt_02d (int mo) +:+ "-" +:+ fmt_02d (int d).

(** Abbreviated month names of the C locale, as [%b] matches them. *)
Definition a_month : list string :=
  ["jan"; "feb"; "mar"; "apr"; "may"; "jun";
   "jul"; "aug"; "sep"; "oct"; "nov"; "dec"].

Fixpoint month_index (names : list string) (k : Z) (w : string) : option Z :=
  match names with
  | [] => None
  | m :: rest => if String.eqb m w then Some k else month_index rest (k + 1) w
  end.

Definition is_leap (y : Z) : bool :=
  (y mod 4 =? 0) && (negb (y mod 100 =? 0) || (y mod 400 =? 0)).

Definition days_in_month (y m : Z) : Z :=
  if m =? 2 then (if is_leap y then 29 else 28)
  else if (m =? 4) || (m =? 6) || (m =? 9) || (m =? 11) then 30
  else 31.

(** [date(y, m, d)] accepts the triple. *)
Definition valid_date (y m d : Z) : bool :=
  (1 <=? y) && (y <=? 9999) && (1 <=? m) && (m <=? 12) &&
  (1 <=? d) && (d <=? days_in_month y m).

(** [\s+] followed by more input. *)
Definition re_spaces1 (s : string) : option string :=
  match s with
  | String c r => if isspace c then Some (lstrip_by isspace r) else None
  | EmptyString => None
  end.

(** [datetime.strptime(s, "%b %d, %Y")]: the format compiles to
    [(?P<b>jan|...|dec)\s+(?P<d>3[0-1]|[1-2]\d|0[1-9]|[1-9]| [1-9]),\s+(?P<Y>\d\d\d\d)]
    matched ignoring case over the whole of [s]; the day group is the
    run of one or two digits before the comma, of value 1..31.  The
    triple found must be a date of the calendar. *)
Definition strptime_b_d_Y (s : string) : result (Z * Z * Z) :=
  let fail := Raise (ValueError "time data does not match format") in
  match s with
  | String a (String b (String c r0)) =>
      match month_index a_month 1 (lower (String a (String b (String c EmptyString)))) with
      | Some m =>
          match re_spaces1 r0 with
          | Some r1 =>
              match re_digits_sep 1 2 "," r1 with
              | Some (d, r2) =>
                  if (1 <=? int d) && (int d <=? 31) then
                    match re_spaces1 r2 with
                    | Some r3 =>
                        match re_digits_end 4 4 r3 with
                        | Some y =>
                            if valid_date (int y) m (int d)
                            then Ok (int y, m, int d)
                            else Raise (ValueError "day is out of range for month")
                        | None => fail
                        end
                    | None => fail
                    end
                  else fail
              | None => fail
              end
          | None => fail
          end
      | None => fail
      end
  | _ => fail
  end.

(** [.strftime("%Y-%m-%d")] *)
Definition strftime_Y_m_d (t : Z * Z * Z) : string :=
  let '(y, m, d) := t in
  fmt_year y +:+ "-" +:+ fmt_02d m +:+ "-" +:+ fmt_02d d.

(** [re.sub(r"^[A-Za-z]{3},\s*", "", s)] *)
Definition strip_weekday (s : string) : string :=
  match s with
  | String a (String b (String c (String k r))) =>
      if isalpha a && isalpha b && isalpha c && Ascii.eqb k ","
      then lstrip_by isspace r else s
  | _ => s
  end.

Definition _normalize_date (s : option string) : option string :=
  match s with
  | None => None
  | Some s =>
      if is_empty s || existsb (String.eqb s) placeholders then None
      else
        let s := strip s in
        if re_iso s then Some s
        else
          match re_dmy "." 4 4 s with
          | Some (d, mo, y) => Some (fmt_ymd y mo d)
          | None =>
              match re_dmy "/" 2 4 s with
              | Some (d, mo, y) =>
                  let y :=
                    if (String.length y =? 2)%nat
                    then (if int y <=? 69 then "20" +:+ y else "19" +:+ y)
                    else y in
                  Some (fmt_ymd y mo d)
              | None =>
                  match strptime_b_d_Y s with
                  | Ok t => Some (strftime_Y_m_d t)
                  | Raise _ =>
                      let s2 := strip_weekday s in
                      match strptime_b_d_Y s2 with
                      | Ok t => Some (strftime_Y_m_d t)
                      | Raise _ => None
                      end
                  end
              end
          end
  end.

(** *** The documented input forms

    The forms of section 4.5 of the specification, as relations between
    the input, stripped of surrounding white space, and the date
    returned. *)

Definition is_digits (lo hi : nat) (s : string) : bool :=
  sall isdigit s && in_range lo hi (String.length s).

Definition is_spaces (s : string) : bool := sall isspace s.

(** "Mon DD, YYYY": a month abbreviation in any case, white space, a day
    of one or two digits, a comma, white space, a year of four digits
    from 1000 on, the three naming a date of the calendar.  The date
    returned is canonical: the four digits of the year, the month and the
    day on two digits each. *)
Inductive month_form : string -> string -> Prop :=
| month_form_intro (mon ws1 d ws2 y : string) (m : Z) :
    String.length mon = 3%nat ->
    month_index a_month 1 (lower mon) = Some m ->
    is_spaces ws1 = true -> ws1 <> EmptyString ->
    is_digits 1 2 d = true -> 1 <= int d <= 31 ->
    is_spaces ws2 = true -> ws2 <> EmptyString ->
    is_digits 4 4 y = true -> 1000 <= int y ->
    valid_date (int y) m (int d) = true ->
    month_form (mon +:+ ws1 +:+ d +:+ "," +:+ ws2 +:+ y)
               (y +:+ "-" +:+ fmt_02d m +:+ "-" +:+ fmt_02d (int d)).

(** The same input form with a year written on four digits below 1000,
    as "0999". *)
Inductive early_month_form : string -> Prop :=
| early_month_form_intro (mon ws1 d ws2 y : string) (m : Z) :
    String.length mon = 3%nat ->
    month_index a_month 1 (lower mon) = Some m ->
    is_spaces ws1 = true -> ws1 <> EmptyString ->
    is_digits 1 2 d = true -> 1 <= int d <= 31 ->
    is_spaces ws2 = true -> ws2 <> EmptyString ->
    is_digits 4 4 y = true -> int y < 1000 ->
    valid_date (int y) m (int d) = true ->
    early_month_form (mon +:+ ws1 +:+ d +:+ "," +:+ ws2 +:+ y).

Inductive date_form : string -> string -> Prop :=
| form_iso (y m d : string) :
    is_digits 4 4 y = true -> is_digits 2 2 m = true -> is_digits 2 2 d = true ->
    date_form (y +:+ "-" +:+ m +:+ "-" +:+ d) (y +:+ "-" +:+ m +:+ "-" +:+ d)
| form_dotted (d mo y : string) :
    is_digits 1 2 d = true -> is_digits 1 2 mo = true -> is_digits 4 4 y = true ->
    date_form (d +:+ "." +:+ mo +:+ "." +:+ y) (fmt_ymd y mo d)
| form_slash4 (d mo y : string) :
    is_digits 1 2 d = true -> is_digits 1 2 mo = true -> is_digits 4 4 y = true ->
    date_form (d +:+ "/" +:+ mo +:+ "/" +:+ y) (fmt_ymd y mo d)
| form_slash2 (d mo y : string) :
    is_digits 1 2 d = true -> is_digits 1 2 mo = true -> is_digits 2 2 y = true ->
    date_form (d +:+ "/" +:+ mo +:+ "/" +:+ y)
              (fmt_ymd ((if int y <=? 69 then "20" else "19") +:+ y) mo d)
| form_month (s r : string) :
    month_form s r -> date_form s r
| form_prefixed (a b c : ascii) (ws s r : string) :
    isalpha a = true -> isalpha b = true -> isalpha c = true ->
    is_spaces ws = true ->
    month_form s r ->
    date_form (String a (String b (String c ("," +:+ ws +:+ s)))) r.

(** A slash-separated date whose year has three digits. *)
Definition slash_year3 (s : string) : Prop :=
  exists d mo y,
    s = d +:+ "/" +:+ mo +:+ "/" +:+ y /\
    is_digits 1 2 d = true /\ is_digits 1 2 mo = true /\ is_digits 3 3 y = true.

(** A month-name date whose year lies below 1000, alone or behind three
    letters and a comma. *)
Definition month_year_below_1000 (s : string) : Prop :=
  early_month_form s \/
  exists a b c ws x,
    s = String a (String b (String c ("," +:+ ws +:+ x))) /\
    isalpha a = true /\ isalpha b = true /\ isalpha c = true /\
    is_spaces ws = true /\ early_month_form x.

(** The stripped input begins with a digit. *)
Definition numeric_head (s : string) : Prop :=
  match strip s with
  | String c _ => isdigit c = true
  | EmptyString => False
  end.

End Dates.


(** ** [urllib.parse.urlsplit] and [urlunsplit] *)

Record SplitResult : Type := mkSplit {
  scheme : string;
  netloc : string;
  path : string;
  query : string;
  fragment : string
}.

Module Url.

Import PyStr.

(** [_WHATWG_C0_CONTROL_OR_SPACE]: the characters up to the space. *)
Definition c0_or_space (c : ascii) : bool := (code c <=? 32)%nat.

(** [_UNSAFE_URL_BYTES_TO_REMOVE]: TAB, CR and LF. *)
Definition unsafe_byte (c : ascii) : bool :=
  (code c =? 9)%nat || (code c =? 13)%nat || (code c =? 10)%nat.

Definition scheme_char (c : ascii) : bool :=
  isalpha c || isdigit c || has_char c "+-.".

Definition uses_netloc : list string :=
  [""; "ftp"; "http"; "gopher"; "nntp"; "telnet"; "imap"; "wais"; "file";
   "mms"; "https"; "shttp"; "snews"; "prospero"; "rtsp"; "rtspu"; "rsync";
   "svn"; "svn+ssh"; "sftp"; "nfs"; "git"; "git+ssh"; "ws"; "wss"].

(** [url[n:]] for [n] = 1, 2. *)
Definition tail1 (s : string) : string :=
  match s with String _ r => r | EmptyString => EmptyString end.

Definition tail2 (s : string) : string := tail1 (tail1 s).

(** The scheme, when [url.find(':') > 0], the first character is a
    letter and everything before the colon is in [scheme_chars]. *)
Definition scheme_like (pre : string) : bool :=
  match pre with
  | String c _ => isalpha c && sall scheme_char pre
  | EmptyString => false
  end.

Definition split_scheme (url : string) : string * string :=
  let '(pre, rest) := break (Ascii.eqb ":") url in
  match rest with
  | String _ after =>
      if scheme_like pre then (lower pre, after) else (EmptyString, url)
  | EmptyString => (EmptyString, url)
  end.

Definition netloc_delim (c : ascii) : bool := has_char c "/?#".

(** [_splitnetloc(url, 2)] *)
Definition _splitnetloc (url : string) : string * string :=
  break netloc_delim (tail2 url).

(** [url.split(c, 1)] when [c in url]; the second part is empty when it
    is not. *)
Definition split1 (c : ascii) (url : string) : string * string :=
  let '(a, b) := break (Ascii.eqb c) url in (a, tail1 b).

Section Urlsplit.

(** [_check_bracketed_netloc]: the validation, by [ipaddress], of a
    host written in brackets. *)
Variable _check_bracketed_netloc : string -> result unit.

Definition check_brackets (netloc : string) : result unit :=
  let op := has_char "[" netloc in
  let cl := has_char "]" netloc in
  if (op && negb cl) || (cl && negb op) then Raise (ValueError "Invalid IPv6 URL")
  else if op && cl then _check_bracketed_netloc netloc
  else Ok tt.

(** Lines 510-523 of [urlsplit]: the netloc, the fragment and the query,
    once the scheme is cut off.  [_checknetloc] returns at once on an
    ASCII netloc. *)
Definition split_rest (scheme url : string) : result SplitResult :=
  let* located :=
    if startswith "//" url then
      let '(netloc, rest) := _splitnetloc url in
      let* checked := check_brackets netloc in Ok (netloc, rest)
    else Ok (EmptyString, url) in
  let '(netloc, url) := located in
  let '(url, fragment) := split1 "#" url in
  let '(url, query) := split1 "?" url in
  Ok (mkSplit scheme netloc url query fragment).

Definition urlsplit (url : string) : result SplitResult :=
  let url := lstrip_by c0_or_space url in
  let url := sfilter (fun c => negb (unsafe_byte c)) url in
  let '(scheme, url) := split_scheme url in
  split_rest scheme url.

End Urlsplit.

(** Lines 544-546 of [urlunsplit]: the netloc and the path. *)
Definition unsplit_body (c : SplitResult) : string :=
  let url := path c in
  if negb (is_empty (netloc c)) ||
     (negb (is_empty (scheme c)) && existsb (String.eqb (scheme c)) uses_netloc
      && negb (startswith "//" url))
  then
    let url := if negb (is_empty url) && negb (startswith "/" url)
               then "/" +:+ url else url in
    "//" +:+ netloc c +:+ url
  else url.

Definition urlunsplit (c : SplitResult) : string :=
  let url := unsplit_body c in
  let url := if negb (is_empty (scheme c)) then scheme c +:+ ":" +:+ url else url in
  let url := if negb (is_empty (query c)) then url +:+ "?" +:+ query c else url in
  let url := if negb (is_empty (fragment c)) then url +:+ "#" +:+ fragment c else url in
  url.

(** What [urlunsplit] appends for the query and the fragment. *)
Definition query_part (query : string) : string :=
  if is_empty query then EmptyString else "?" +:+ query.

Definition url_tail (query fragment : string) : string :=
  query_part query +:+ (if is_empty fragment then EmptyString else "#" +:+ fragment).

Definition safe_byte (c : ascii) : bool := negb (unsafe_byte c).
Definition path_char (c : ascii) : bool := negb (has_char c "?#").
Definition query_char (c : ascii) : bool := negb (Ascii.eqb "#" c).

(** The components [urlsplit] returns: a scheme is empty or lower-case
    and scheme-like; the netloc holds no delimiter and passed the bracket
    check; the path holds neither "?" nor "#" and the query no "#"; no
    component holds TAB, CR or LF; without a scheme the path does not
    start with a stripped character, and what precedes its first colon is
    not scheme-like. *)
Record wf_split (ck : string -> result unit) (c : SplitResult) : Prop := mkWf {
  wf_scheme : scheme c = EmptyString \/
              (scheme_like (scheme c) = true /\ lower (scheme c) = scheme c);
  wf_netloc : sall (fun x => negb (netloc_delim x)) (netloc c) = true;
  wf_check : check_brackets ck (netloc c) = Ok tt;
  wf_path : sall path_char (path c) = true;
  wf_query : sall query_char (query c) = true;
  wf_safe : sall safe_byte (scheme c) = true /\ sall safe_byte (netloc c) = true /\
            sall safe_byte (path c) = true /\ sall safe_byte (query c) = true /\
            sall safe_byte (fragment c) = true;
  wf_head : scheme c = EmptyString ->
            match path c with
            | String x _ => c0_or_space x = false
            | EmptyString => True
            end;
  wf_noscheme : scheme c = EmptyString ->
                forall pre k rest,
                  break (Ascii.eqb ":") (path c) = (pre, String k rest) ->
                  scheme_like pre = false
}.

End Url.

Definition _ensure_plus_variant (_check_bracketed_netloc : string -> result unit)
  (url : string) : result string :=
  let* parts := Url.urlsplit _check_bracketed_netloc url in
  let path := path parts in
  if PyStr.contains "/plus/" path || PyStr.endswith "/plus/1" path then Ok url
  else
    let new_path := PyStr.rstrip_by (Ascii.eqb "/") path +:+ "/plus/1" in
    Ok (Url.urlunsplit
          (mkSplit (scheme parts) (netloc parts) new_path (query parts) (fragment parts))).

(** ** Text normaliser and column mapper *)

(** [re.sub(r"\s+", " ", s)]; [prev] records that the previous character
    was white space, already replaced. *)
Fixpoint collapse_spaces (prev : bool) (s : string) : string :=
  match s with
  | EmptyString => EmptyString
  | String c s' =>
      if PyStr.isspace c
      then (if prev then collapse_spaces true s'
            else String " " (collapse_spaces true s'))
      else String c (collapse_spaces false s')
  end.

Definition _norm_text (s : option string) : string :=
  match s with
  | None => EmptyString
  | Some s =>
      if PyStr.is_empty s then EmptyString
      else
        (* NFKD and the removal of combining marks leave ASCII text as it is *)
        let s := PyStr.lower (PyStr.strip s) in
        let s := collapse_spaces false s in
        PyStr.sfilter (fun c => PyStr.isword c || Ascii.eqb c " ") s
  end.

(** The characters that header normalisation lets through: lower-case
    letters, digits, the underscore and the space. *)
Definition norm_char (c : ascii) : bool :=
  (PyStr.isword c && negb (PyStr.isupper c)) || Ascii.eqb c " ".

(** [re.findall(r"\d+", s)]: the maximal runs of digits, from left to
    right.  A digit followed by a digit goes in front of the first run of
    the rest; any other digit is a run of its own. *)
Definition begins_with_digit (s : string) : bool :=
  match s with
  | String c _ => PyStr.isdigit c
  | EmptyString => false
  end.

Fixpoint findall_digits (s : string) : list string :=
  match s with
  | EmptyString => []
  | String c s' =>
      let rest := findall_digits s' in
      if PyStr.isdigit c then
        match rest with
        | r :: rs =>
            if begins_with_digit s' then String c r :: rs
            else String c EmptyString :: rest
        | [] => [String c EmptyString]
        end
      else rest
  end.

Definition _parse_int (s : option string) : option Z :=
  match s with
  | None => None
  | Some s =>
      if PyStr.is_empty s then None
      else
        match findall_digits s with
        | d :: _ => Some (PyStr.int d)
        | [] => None
        end
  end.

(** The alias table, in the order of the dictionary literal. *)
Definition variants : list (string * list string) :=
  [("player", ["player"; "spieler"]);
   ("club", ["club"; "verein"; "team"; "mannschaft"]);
   ("injury", ["injury"; "verletzung"]);
   ("since", ["since"; "seit"; "from"; "injury since"; "date of injury"; "out since"]);
   ("until", ["until"; "bis"; "to"; "return date"; "back on"; "out until"]);
   ("expectedreturn", ["expected return"; "erwartete rückkehr";
                       "voraussichtliche rückkehr"; "expected back"]);
   ("daysabsent", ["days"; "tage"; "fehltage"]);
   ("gamesmissed", ["games missed"; "spiele verpasst"; "spiele"]);
   ("notes", ["note"; "notes"; "bemerkung"; "anmerkung"]);
   ("position", ["position"; "pos."])].

Fixpoint canon_in (table : list (string * list string)) (h : string) : option string :=
  match table with
  | [] => None
  | (key, alts) :: rest =>
      if existsb (String.eqb h) alts then Some key else canon_in rest h
  end.

Definition canon (h : string) : option string := canon_in variants h.

(** The normalised header [h] is one of the aliases of the field [key]. *)
Definition matches_field (key h : string) : Prop :=
  exists alts, In (key, alts) variants /\ In h alts.

(** No alias is listed under two fields. *)
Fixpoint disjoint_aliases (table : list (string * list string)) : bool :=
  match table with
  | [] => true
  | (_, alts) :: rest =>
      forallb (fun kv => forallb (fun a => negb (existsb (String.eqb a) (snd kv))) alts) rest
      && disjoint_aliases rest
  end.

(** The loop over [enumerate(headers, start=idx)]. *)
Fixpoint fill_column_map (idx : Z) (headers : list string) (col_map : gmap string Z)
  : gmap string Z :=
  match headers with
  | [] => col_map
  | raw :: rest =>
      let col_map :=
        match canon raw with
        | Some key => <[key := idx]> col_map
        | None => col_map
        end in
      fill_column_map (idx + 1) rest col_map
  end.

Definition header_texts (table : node) : list string :=
  map (fun h => _norm_text (Some (PyStr.join " " (Html.xpath_text h))))
      (Html.xpath_thead_th table).

Definition _build_column_map (table : node) : gmap string Z :=
  fill_column_map 1 (header_texts table) ∅.

(** ** Row parser *)

(** Python values of the result dictionaries. *)
#[warnings="-register-all"] Inductive pyval : Type :=
| PyNone
| PyStr_ (s : string)
| PyDict (items : list (string * pyval))
| PyList (items : list pyval).

Definition py_opt (o : option string) : pyval :=
  match o with
  | Some s => PyStr_ s
  | None => PyNone
  end.

Fixpoint dict_get (k : string) (d : list (string * pyval)) : option pyval :=
  match d with
  | [] => None
  | (k', v) :: d' => if String.eqb k k' then Some v else dict_get k d'
  end.

(** [v.get(k)] on a dictionary value. *)
Definition py_field (k : string) (v : pyval) : option pyval :=
  match v with
  | PyDict d => dict_get k d
  | _ => None
  end.

(** [d[k] = v]: an existing key keeps its place. *)
Fixpoint dict_set (k : string) (v : pyval) (d : list (string * pyval))
  : list (string * pyval) :=
  match d with
  | [] => [(k, v)]
  | (k', v') :: d' =>
      if String.eqb k k' then (k, v) :: d' else (k', v') :: dict_set k v d'
  end.

(** [d.update(other)] *)
Definition dict_update (d other : list (string * pyval)) : list (string * pyval) :=
  fold_left (fun acc kv => dict_set (fst kv) (snd kv) acc) other d.

(** [l[i]] with Python's negative indices. *)
Definition py_index {A : Type} (l : list A) (i : Z) : result A :=
  let n := Z.of_nat (length l) in
  let j := if i <? 0 then n + i else i in
  if (0 <=? j) && (j <? n) then
    match nth_error l (Z.to_nat j) with
    | Some x => Ok x
    | None => Raise (IndexError "list index out of range")
    end
  else Raise (IndexError "list index out of range").

Module Row.

Import Html.

(** [.//a/@href] *)
Definition xpath_a_href (n : node) : list string :=
  List.flat_map (fun a => match attr "href" a with Some h => [h] | None => [] end)
                (xpath_desc "a" n).

(** [.//a/@title | .//img/@alt], in document order. *)
Definition xpath_a_title_img_alt (n : node) : list string :=
  List.flat_map
    (fun e =>
       (if is_tag "a" e then match attr "title" e with Some t => [t] | None => [] end
        else []) ++
       (if is_tag "img" e then match attr "alt" e with Some t => [t] | None => [] end
        else []))
    (descendants n).

(** [a[contains(@class,'spielprofil') or contains(@href,'profil/spieler')]] *)
Definition is_profile_anchor (n : node) : bool :=
  is_tag "a" n &&
  (attr_contains "class" "spielprofil" n || attr_contains "href" "profil/spieler" n).

(** [.//a[...]/@href] for the profile anchors. *)
Definition xpath_profile_href (tr : node) : list string :=
  List.flat_map (fun a => match attr "href" a with Some h => [h] | None => [] end)
                (List.filter is_profile_anchor (descendants tr)).

(** Text nodes with a proper ancestor satisfying [p]; [inside] records
    that one has been passed. *)
Fixpoint texts_under (p : node -> bool) (inside : bool) (n : node) : list string :=
  match n with
  | TextNode s => if inside then [s] else []
  | Element _ _ cs => List.flat_map (texts_under p (inside || p n)) cs
  end.

(** [.//a[...]//text()] for the profile anchors. *)
Definition xpath_profile_text (tr : node) : list string :=
  List.flat_map (texts_under is_profile_anchor false) (children_of tr).

Definition is_links_td (n : node) : bool :=
  is_tag "td" n && attr_contains "class" "links" n.

(** The first node of [.//td[contains(@class,'links')][1]] in document
    order, paired with its following siblings. *)
Fixpoint first_links_td (n : node) : option (node * list node) :=
  match n with
  | TextNode _ => None
  | Element _ _ cs =>
      (fix scan (l : list node) : option (node * list node) :=
         match l with
         | [] => None
         | c :: rest =>
             if is_links_td c then Some (c, rest)
             else match first_links_td c with
                  | Some found => Some found
                  | None => scan rest
                  end
         end) cs
  end.

(** [el.itersiblings(tag="td")] *)
Definition itersiblings_td (following : list node) : list node :=
  List.filter (is_tag "td") following.

(** [next(it)] on the remaining items of an iterator. *)
Definition next {A : Type} (it : list A) : option (A * list A) :=
  match it with
  | x :: rest => Some (x, rest)
  | [] => None
  end.

End Row.

Section Scraper.

(** Collaborators outside this file: [trim] and [extract_from_url] of
    [app.utils.utils], the page fetch and the not-found guard of
    [TransfermarktBase], the clock, and the bracketed-host validation of
    [urllib]. *)
Variable trim : string -> string.
Variable extract_from_url : option string -> option string.

Definition cell_text (col_map : gmap string Z) (tds : list node) (col_key : string)
  : result (option string) :=
  match col_map !! col_key with
  | None => Ok None
  | Some idx =>
      if (idx =? 0) || (Z.of_nat (length tds) <? idx) then Ok None
      else
        let* td := py_index tds (idx - 1) in
        Ok (Some (trim (PyStr.join " " (Html.xpath_text td))))
  end.

Definition cell_link (col_map : gmap string Z) (tds : list node) (col_key : string)
  : result (option string) :=
  match col_map !! col_key with
  | None => Ok None
  | Some idx =>
      if (idx =? 0) || (Z.of_nat (length tds) <? idx) then Ok None
      else
        let* td := py_index tds (idx - 1) in
        match Row.xpath_a_href td with
        | h :: _ => Ok (Some (trim h))
        | [] => Ok None
        end
  end.

(** Lines 161-167: the player's name and link. *)
Definition parse_player (tr : node) (col_map : gmap string Z) (tds : list node)
  : result (option string * option string) :=
  let* player_name := cell_text col_map tds "player" in
  let* player_url := cell_link col_map tds "player" in
  if negb (PyStr.truthy player_name) || negb (PyStr.truthy player_url) then
    match Row.xpath_profile_href tr with
    | h :: _ =>
        Ok (Some (trim (PyStr.join " " (Row.xpath_profile_text tr))), Some (trim h))
    | [] => Ok (player_name, player_url)
    end
  else Ok (player_name, player_url).

(** Lines 170-183: the optional club. *)
Definition parse_club (col_map : gmap string Z) (tds : list node)
  : result (option string * option string) :=
  match col_map !! "club" with
  | None => Ok (None, None)
  | Some idx =>
      let* club_name := cell_text col_map tds "club" in
      let* club_url := cell_link col_map tds "club" in
      if negb (PyStr.truthy club_name) then
        let* cell := py_index tds (idx - 1) in
        let club_name :=
          match Row.xpath_a_title_img_alt cell with
          | t :: _ => Some (trim t)
          | [] => club_name
          end in
        let club_url :=
          if negb (PyStr.truthy club_url) then
            match Row.xpath_a_href cell with
            | h :: _ => Some (trim h)
            | [] => None
            end
          else club_url in
        Ok (club_name, club_url)
      else Ok (club_name, club_url)
  end.

Definition is_none {A : Type} (o : option A) : bool :=
  match o with None => true | Some _ => false end.

(** Lines 194-209: the dates read off the siblings of the "links" cell.
    Both [next] calls come before either assignment. *)
Definition sibling_dates (tr : node) (since until : option string)
  : option string * option string :=
  if is_none since || is_none until then
    match Row.first_links_td tr with
    | Some (injury_td, following) =>
        let sibs := Row.itersiblings_td following in
        match Row.next sibs with
        | Some (since_td, sibs) =>
            match Row.next sibs with
            | Some (until_td, _) =>
                let s_text := trim (PyStr.join " " (Html.xpath_text since_td)) in
                let u_text := trim (PyStr.join " " (Html.xpath_text until_td)) in
                let since :=
                  if is_none since then Dates._normalize_date (Some s_text) else since in
                let until :=
                  if is_none until then Dates._normalize_date (Some u_text) else until in
                (since, until)
            | None => (since, until)
            end
        | None => (since, until)
        end
    | None => (since, until)
    end
  else (since, until).

(** Lines 215-232: the dictionary returned for an accepted row. *)
Definition record_of (player_name player_url club_name club_url injury since until
                        : option string) : pyval :=
  PyDict
    [("player", PyDict
        [("id", py_opt (extract_from_url player_url));
         ("name", py_opt player_name);
         ("url", py_opt player_url);
         ("club",
          if PyStr.truthy club_name || PyStr.truthy club_url
          then PyDict [("id", py_opt (extract_from_url club_url));
                       ("name", py_opt club_name)]
          else PyNone)]);
     ("injury", py_opt injury);
     ("since", py_opt since);
     ("until", py_opt until)].

Definition _parse_row (tr : node) (col_map : gmap string Z) : result (option pyval) :=
  let tds := Html.xpath_child "td" tr in
  match tds with
  | [] => Ok None
  | _ =>
      let* player := parse_player tr col_map tds in
      let '(player_name, player_url) := player in
      let* club := parse_club col_map tds in
      let '(club_name, club_url) := club in
      let* injury := cell_text col_map tds "injury" in
      let* since_text := cell_text col_map tds "since" in
      let since := Dates._normalize_date since_text in
      let* until_text := cell_text col_map tds "until" in
      let until := Dates._normalize_date until_text in
      let '(since, until) := sibling_dates tr since until in
      if negb (PyStr.truthy player_name && PyStr.truthy injury) then Ok None
      else Ok (Some (record_of player_name player_url club_name club_url
                       injury since until))
  end.

(** What the sibling heuristic yields: both dates come from the two cells
    that follow the "links" cell, or neither does. *)
Definition dates_after_fallback (tr : node) (since until : option string)
  : option string * option string :=
  match Row.first_links_td tr with
  | Some (_, following) =>
      match Row.itersiblings_td following with
      | since_td :: until_td :: _ =>
          (match since with
           | None => Dates._normalize_date (Some (trim (PyStr.join " " (Html.xpath_text since_td))))
           | Some _ => since
           end,
           match until with
           | None => Dates._normalize_date (Some (trim (PyStr.join " " (Html.xpath_text until_td))))
           | Some _ => until
           end)
      | _ => (since, until)
      end
  | None => (since, until)
  end.

(** ** The scraper object, its construction and the orchestrator *)

(** [fetched] is a ghost field: the URLs handed to [request_url_page], in
    the order of the calls. *)
Record scraper : Type := mkScraper {
  URL : string;
  page : option node;
  response : list (string * pyval);
  fetched : list string
}.

(** [self.URL = url; self.page = doc], the fetch of [url] recorded. *)
Definition visit (self : scraper) (url : string) (doc : node) : scraper :=
  mkScraper url (Some doc) (response self) (fetched self ++ [url]).

Variable _check_bracketed_netloc : string -> result unit.
Variable request_url_page : string -> result node.
Variable raise_exception_if_not_found : scraper -> string -> result unit.
Variable utc_now_isoformat : string.

(** [//table[(contains(@class,'items') or contains(@class,'responsive')) and .//thead//th]] *)
Definition xpath_guard_tables (page : node) : list node :=
  List.filter (fun t => Html.items_or_responsive t && Html.has_header t)
              (Html.xpath_all "table" page).

(** The loop of [__post_init__]; the flag tells whether it was left by
    [return]. *)
Fixpoint try_candidates (self : scraper) (candidates : list string)
  : result (scraper * bool) :=
  match candidates with
  | [] => Ok (self, false)
  | url :: rest =>
      let* doc := request_url_page url in
      let self := visit self url doc in
      match xpath_guard_tables doc with
      | _ :: _ => Ok (self, true)
      | [] => try_candidates self rest
      end
  end.

Definition __post_init__ (self : scraper) : result scraper :=
  let* primary := _ensure_plus_variant _check_bracketed_netloc (URL self) in
  let candidates :=
    if String.eqb primary (URL self) then [primary] else [primary; URL self] in
  let* tried := try_candidates self candidates in
  let '(self, returned) := tried in
  if returned then Ok self
  else
    let* guarded := raise_exception_if_not_found self "//table" in
    Ok self.

(** Text nodes below an [li] that is the last [li] child of its parent,
    the parent being an [ol] inside a [nav] or below one:
    [//nav//ol//li[last()]//text()].  [in_nav] and [in_ol] describe the
    proper ancestors of [n], [inside] tells that a selected [li] is among
    them, and [sel] that [n] itself is one. *)
Fixpoint crumb_texts (in_nav in_ol inside sel : bool) (n : node) : list string :=
  match n with
  | TextNode s => if inside then [s] else []
  | Element t _ cs =>
      let in_ol' := in_ol || (in_nav && String.eqb "ol" t) in
      let in_nav' := in_nav || String.eqb "nav" t in
      (fix scan (l : list node) : list string :=
         match l with
         | [] => []
         | c :: rest =>
             crumb_texts in_nav' in_ol' (inside || sel)
               (in_ol' && Html.is_tag "li" c && negb (existsb (Html.is_tag "li") rest)) c
             ++ scan rest
         end) cs
  end.

Definition _guess_league_name (page : node) : option string :=
  match Row.texts_under (Html.is_tag "h1") false page with
  | (_ :: _) as h1 => Some (trim (PyStr.join " " h1))
  | [] =>
      match crumb_texts false false false false page with
      | (_ :: _) as crumb => Some (trim (PyStr.join " " crumb))
      | [] =>
          match Row.texts_under (Html.is_tag "title") false page with
          | (_ :: _) as t => Some (trim (PyStr.join " " t))
          | [] => None
          end
      end
  end.

(** [//link[@rel='canonical']/@href | //meta[@property='og:url']/@content] *)
Definition xpath_canonical (page : node) : list string :=
  List.flat_map
    (fun e =>
       (if Html.is_tag "link" e &&
           match Html.attr "rel" e with Some r => String.eqb r "canonical" | None => false end
        then match Html.attr "href" e with Some h => [h] | None => [] end
        else []) ++
       (if Html.is_tag "meta" e &&
           match Html.attr "property" e with Some r => String.eqb r "og:url" | None => false end
        then match Html.attr "content" e with Some h => [h] | None => [] end
        else []))
    (page :: Html.descendants page).

Definition _canonical_url (page : node) : option string :=
  match xpath_canonical page with
  | u :: _ => Some (trim u)
  | [] => None
  end.

(** Elements named [t] whose parent is named [ptag]; [ok] tells that the
    parent of [n] is. *)
Fixpoint select_child_of (ptag t : string) (ok : bool) (n : node) : list node :=
  match n with
  | Element t' _ cs =>
      (if ok && String.eqb t t' then [n] else []) ++
      List.flat_map (select_child_of ptag t (String.eqb ptag t')) cs
  | TextNode _ => []
  end.

(** [.//tbody/tr[td]] *)
Definition xpath_body_rows (table : node) : list node :=
  List.filter (fun tr => match Html.xpath_child "td" tr with [] => false | _ => true end)
    (List.flat_map (select_child_of "tbody" "tr" false) (Html.children_of table)).

Fixpoint parse_rows (rows : list node) (col_map : gmap string Z) (items : list pyval)
  : result (list pyval) :=
  match rows with
  | [] => Ok items
  | tr :: rest =>
      let* parsed := _parse_row tr col_map in
      let items :=
        match parsed with
        | Some r => items ++ [r]
        | None => items
        end in
      parse_rows rest col_map items
  end.

Definition get_injuries (self : scraper) : result scraper :=
  match page self with
  | None => Raise (OtherException "AttributeError"
                     "'NoneType' object has no attribute 'xpath'")
  | Some doc =>
      let* table := _get_injuries_table doc in
      let col_map := _build_column_map table in
      let rows := xpath_body_rows table in
      let* items := parse_rows rows col_map [] in
      let league_name := _guess_league_name doc in
      let canonical_url := _canonical_url doc in
      let update :=
        [("league", PyDict
            [("name", py_opt league_name);
             ("url", PyStr_ (if PyStr.truthy canonical_url
                            then default EmptyString canonical_url
                            else URL self))]);
         ("updatedAt", PyStr_ utc_now_isoformat);
         ("rows", PyList items)] in
      Ok (mkScraper (URL self) (page self)
            (dict_update (response self) update) (fetched self))
  end.

End Scraper.

(** ** The merge scripts [fetch_injuries.py] and [fetch_injuries_optimized.py] *)

(** Python values as the scripts handle them: JSON values, and the
    [ObjectId] and [datetime] values of MongoDB documents.  An [ObjectId]
    is represented by the string that [str] gives for it, a [datetime] by
    the string that its [isoformat] returns; numbers are integers, and
    the keys of dictionaries are strings, kept in insertion order. *)
#[warnings="-register-all"] Inductive value : Type :=
| VNone
| VBool (b : bool)
| VInt (n : Z)
| VStr (s : string)
| VObjectId (hex : string)
| VDatetime (iso : string)
| VDict (items : list (string * value))
| VList (items : list value).

(** An exception that a script does not catch, by its class; [sys.exit]
    raises [SystemExit]. *)
Inductive crash : Type :=
| KeyError (key : string)
| TypeError
| AttributeError
| SystemExit (code : Z).

Inductive run (A : Type) : Type :=
| Done (a : A)
| Crash (c : crash).
Arguments Done {A} a.
Arguments Crash {A} c.

Definition run_bind {A B : Type} (r : run A) (k : A -> run B) : run B :=
  match r with
  | Done a => k a
  | Crash c => Crash c
  end.

Module Py.

(** [bool(v)] *)
Definition truthy (v : value) : bool :=
  match v with
  | VNone => false
  | VBool b => b
  | VInt n => negb (n =? 0)
  | VStr s => negb (PyStr.is_empty s)
  | VObjectId _ => true
  | VDatetime _ => true
  | VDict items => match items with [] => false | _ => true end
  | VList items => match items with [] => false | _ => true end
  end.

(** [d.get(k)], [d[k] = v] and [d.update(other)] on the items of a
    dictionary. *)
Fixpoint get (k : string) (d : list (string * value)) : option value :=
  match d with
  | [] => None
  | (k', v) :: d' => if String.eqb k k' then Some v else get k d'
  end.

Fixpoint set (k : string) (v : value) (d : list (string * value))
  : list (string * value) :=
  match d with
  | [] => [(k, v)]
  | (k', v') :: d' =>
      if String.eqb k k' then (k, v) :: d' else (k', v') :: set k v d'
  end.

Definition update (d other : list (string * value)) : list (string * value) :=
  fold_left (fun acc kv => set (fst kv) (snd kv) acc) other d.

(** [v[k]] for a string [k]. *)
Definition subscript (v : value) (k : string) : run value :=
  match v with
  | VDict items =>
      match get k items with
      | Some x => Done x
      | None => Crash (KeyError k)
      end
  | _ => Crash TypeError
  end.

(** [{**a, **b}] *)
Definition merge (a b : value) : run value :=
  match a, b with
  | VDict x, VDict y => Done (VDict (update (update [] x) y))
  | _, _ => Crash TypeError
  end.

End Py.

(** [convert_objectid_to_str], the same in both scripts. *)
Fixpoint convert_objectid_to_str (data : value) : value :=
  match data with
  | VDict items =>
      VDict (List.map (fun kv => (fst kv, convert_objectid_to_str (snd kv))) items)
  | VList items => VList (List.map convert_objectid_to_str items)
  | VObjectId hex => VStr hex
  | VDatetime iso => VStr iso
  | _ => data
  end.

(** No [ObjectId] and no [datetime] anywhere in the value: [json.dump]
    can write it. *)
Fixpoint serialisable (v : value) : bool :=
  match v with
  | VObjectId _ | VDatetime _ => false
  | VDict items => forallb (fun kv => serialisable (snd kv)) items
  | VList items => forallb serialisable items
  | _ => true
  end.

(** The keys of a dictionary value, in order. *)
Definition keys (v : value) : list string :=
  match v with
  | VDict items => List.map fst items
  | _ => []
  end.

Notation "'run*' x ':=' r 'in' k" := (run_bind r (fun x => k))
  (at level 10, x pattern, r at level 100, k at level 200).

Module FetchInjuriesOptimized.

(** [player[k].strip()]; [None] when the subscript or the call raises. *)
Definition stripped_field (k : string) (player : value) : option string :=
  match player with
  | VDict items =>
      match Py.get k items with
      | Some (VStr s) => Some (PyStr.strip s)
      | _ => None
      end
  | _ => None
  end.

(** The loop of lines 51-55 over the documents found; [None] when an
    iteration raises. *)
Fixpoint index_players (players : list value) (player_data_dict : list (string * value))
  : option (list (string * value)) :=
  match players with
  | [] => Some player_data_dict
  | player :: rest =>
      match stripped_field "display_name" player with
      | None => None
      | Some display_name =>
          let player_data_dict := Py.set display_name player player_data_dict in
          match stripped_field "name" player with
          | None => None
          | Some name =>
              let player_data_dict :=
                if negb (String.eqb name display_name)
                then Py.set name player player_data_dict
                else player_data_dict in
              index_players rest player_data_dict
          end
      end
  end.

(** Lines 31-60.  [find] stands for the query of the collection: the
    documents whose [display_name] or [name] is among the names given,
    or the exception of the connection. *)
Definition fetch_players_from_db (find : list value -> result (list value))
  (player_names : list value) : option (list (string * value)) :=
  match find player_names with
  | Ok players => index_players players []
  | Raise _ => None
  end.

(** [player_info["player"]["name"]] *)
Definition row_name (player_info : value) : run value :=
  run* player := Py.subscript player_info "player" in
  Py.subscript player "name".

(** [player_data_dict.get(player_name)] *)
Definition get_player (player_data_dict : option (list (string * value)))
  (player_name : value) : run value :=
  match player_data_dict with
  | None => Crash AttributeError
  | Some d =>
      match player_name with
      | VStr k => Done (default VNone (Py.get k d))
      | VDict _ | VList _ => Crash TypeError
      | _ => Done VNone
      end
  end.

(** The loop of lines 96-115. *)
Fixpoint merge_rows (player_data_dict : option (list (string * value)))
  (rows : list value) (all_player_data : list value) : run (list value) :=
  match rows with
  | [] => Done all_player_data
  | player_info :: rest =>
      run* player_name := row_name player_info in
      run* player_data := get_player player_data_dict player_name in
      if negb (Py.truthy player_data)
      then merge_rows player_data_dict rest all_player_data
      else
        let player_data := convert_objectid_to_str player_data in
        let player_info := convert_objectid_to_str player_info in
        run* merged_data := Py.merge player_data player_info in
        let all_player_data := all_player_data ++ [merged_data] in
        run* printed := Py.subscript player_data "name" in
        merge_rows player_data_dict rest all_player_data
  end.

(** [[f(x) for x in l]] *)
Fixpoint for_each {A B : Type} (f : A -> run B) (l : list A) : run (list B) :=
  match l with
  | [] => Done []
  | x :: rest =>
      run* y := f x in
      run* ys := for_each f rest in
      Done (y :: ys)
  end.

(** Lines 88-119 of [main], for the rows of a response: the list written
    to the output file. *)
Definition main (find : list value -> result (list value)) (rows : list value)
  : run (list value) :=
  run* player_names := for_each row_name rows in
  let player_data_dict := fetch_players_from_db find player_names in
  merge_rows player_data_dict rows [].

End FetchInjuriesOptimized.

Module FetchInjuries.

(** Lines 32-56.  [find_one field name] stands for
    [collection.find_one({field: name})]: a document, [None], or the
    exception of the connection. *)
Definition fetch_player_from_db (find_one : string -> value -> result value)
  (player_name : value) : value :=
  match find_one "display_name" player_name with
  | Raise _ => VNone
  | Ok player_data =>
      match (if negb (Py.truthy player_data) then find_one "name" player_name
             else Ok player_data) with
      | Raise _ => VNone
      | Ok player_data =>
          if Py.truthy player_data then convert_objectid_to_str player_data
          else VNone
      end
  end.

(** The loop of lines 84-101 of [main]: the merged records in the order
    in which they are written, each to a file named after the player. *)
Fixpoint main (find_one : string -> value -> result value) (rows : list value)
  : run (list (value * value)) :=
  match rows with
  | [] => Done []
  | player_info :: rest =>
      run* player_name := FetchInjuriesOptimized.row_name player_info in
      let player_data := fetch_player_from_db find_one player_name in
      if Py.truthy player_data then
        let player_data := convert_objectid_to_str player_data in
        let player_info := convert_objectid_to_str player_info in
        run* merged_data := Py.merge player_data player_info in
        run* printed := Py.subscript player_data "name" in
        run* written := main find_one rest in
        Done ((player_name, merged_data) :: written)
      else main find_one rest
  end.

End FetchInjuries.

(** The record that [main] of [fetch_injuries_optimized.py] appends for
    a row, given the index of the players: none for a row whose player
    is not in the index. *)
Definition merged_record (player_data_dict : list (string * value)) (player_info : value)
  : option value :=
  match FetchInjuriesOptimized.row_name player_info with
  | Done (VStr player_name) =>
      match Py.get player_name player_data_dict with
      | Some player_data =>
          match Py.merge (convert_objectid_to_str player_data)
                         (convert_objectid_to_str player_info) with
          | Done merged_data => Some merged_data
          | Crash _ => None
          end
      | None => None
      end
  | _ => None
  end.

(** A value of the scraper's response as the scripts receive it, decoded
    from JSON. *)
Fixpoint of_pyval (v : pyval) : value :=
  match v with
  | PyNone => VNone
  | PyStr_ s => VStr s
  | PyDict items => VDict (List.map (fun kv => (fst kv, of_pyval (snd kv))) items)
  | PyList items => VList (List.map of_pyval items)
  end.

(** ** The search script [test/fetch_player_info.py] *)

Module FetchPlayerInfo.

(** [PlayerFetchRecord]; [duration_sec], a reading of the clock, is left
    out, and [first_result] is [VNone] for [None]. *)
Record PlayerFetchRecord : Type := mkRecord {
  query : string;
  success : bool;
  status_code : option Z;
  error : option string;
  first_result : value
}.

(** [[ln.strip() for ln in f if ln.strip()]], for the lines of the file. *)
Definition read_names_from_csv (lines : list string) : list string :=
  List.map PyStr.strip
    (List.filter (fun ln => negb (PyStr.is_empty (PyStr.strip ln))) lines).

(** What [session.get] does at one attempt.  It raises an exception,
    given by its class and by its text; or it returns a response, given
    by its status code and by what [resp.json()] does: it raises an
    exception with a text, or it returns the decoded body. *)
Inductive request_exn : Type :=
| ConnectionError (text : string)
| Timeout (text : string)
| HTTPError (text : string)
| OtherError (text : string).

Inductive json_reply : Type :=
| JsonRaises (text : string)
| Json (data : value).

Inductive reply : Type :=
| Raises (e : request_exn)
| Response (status : Z) (body : json_reply).

(** [str(e)] *)
Definition text_of (e : request_exn) : string :=
  match e with
  | ConnectionError t | Timeout t | HTTPError t | OtherError t => t
  end.

(** The classes of the first [except] clause. *)
Definition caught_for_retry (e : request_exn) : bool :=
  match e with
  | OtherError _ => false
  | _ => true
  end.

(** [status_code in (429, 502, 503, 504)] *)
Definition retryable_status (status : Z) : bool :=
  (status =? 429) || (status =? 502) || (status =? 503) || (status =? 504).

(** [f"Retryable status {status_code} for '{name}'"] for the four codes. *)
Definition retryable_text (status : Z) (name : string) : string :=
  "Retryable status " +:+
  (if status =? 429 then "429" else if status =? 502 then "502"
   else if status =? 503 then "503" else "504") +:+
  " for '" +:+ name +:+ "'".

(** [type(v).__name__] *)
Definition type_name (v : value) : string :=
  match v with
  | VNone => "NoneType"
  | VBool _ => "bool"
  | VInt _ => "int"
  | VStr _ => "str"
  | VObjectId _ => "ObjectId"
  | VDatetime _ => "datetime.datetime"
  | VDict _ => "dict"
  | VList _ => "list"
  end.

(** [data.get("results", [])], or the text of the [AttributeError]. *)
Definition get_results (data : value) : string + value :=
  match data with
  | VDict items => inr (default (VList []) (Py.get "results" items))
  | _ => inl ("'" +:+ type_name data +:+ "' object has no attribute 'get'")
  end.

(** [results[0] if results else None], or the text of the exception of
    the subscript. *)
Definition first_of (results : value) : string + value :=
  if negb (Py.truthy results) then inr VNone
  else
    match results with
    | VList (x :: _) => inr x
    | VStr (String c _) => inr (VStr (String c EmptyString))
    | VDict _ => inl "0"
    | _ => inl ("'" +:+ type_name results +:+ "' object is not subscriptable")
    end.

(** How one pass through the body of the loop ends. *)
Inductive pass : Type :=
| Return (rec : PlayerFetchRecord)
| Retry (last_exc : string)
| Break (last_exc : string).

(** What holds of a record: a successful one has a result, no error and
    a status that is neither retried nor an HTTP error; a failed one has
    an error and no result. *)
Definition well_formed (name : string) (rec : PlayerFetchRecord) : Prop :=
  query rec = name /\
  (success rec = true ->
   first_result rec <> VNone /\ error rec = None /\
   exists status, status_code rec = Some status /\ retryable_status status = false /\
                  (400 <=? status) && (status <? 600) = false) /\
  (success rec = false -> first_result rec = VNone /\ exists e, error rec = Some e).

Section Session.

(** The text of the [HTTPError] that [raise_for_status] builds, and the
    replies of the server to the attempts, counted from one. *)
Variable status_error : Z -> string.
Variable session_get : nat -> reply.

(** Lines 102-147: the new value of [status_code], and the end of the
    pass. *)
Definition try_once (name : string) (attempt : nat) (status_code : option Z)
  : option Z * pass :=
  match session_get attempt with
  | Raises e =>
      (status_code, if caught_for_retry e then Retry (text_of e) else Break (text_of e))
  | Response status body =>
      let status_code := Some status in
      if retryable_status status then (status_code, Retry (retryable_text status name))
      else if (400 <=? status) && (status <? 600)
      then (status_code, Retry (status_error status))
      else
        match body with
        | JsonRaises text => (status_code, Break text)
        | Json data =>
            match get_results data with
            | inl text => (status_code, Break text)
            | inr results =>
                match first_of results with
                | inl text => (status_code, Break text)
                | inr VNone =>
                    (status_code,
                     Return (mkRecord name false status_code (Some "No results") VNone))
                | inr first =>
                    (status_code,
                     Return (mkRecord name true status_code None first))
                end
            end
        end
  end.

(** Lines 149-157. *)
Definition failure (name : string) (status_code : option Z) (last_exc : option string)
  : PlayerFetchRecord :=
  mkRecord name false status_code
    (Some (match last_exc with Some text => text | None => "Unknown error" end))
    VNone.

(** The loop of lines 100-147, [remaining] passes being left: the
    record, the number of requests made and the number of back-off
    sleeps. *)
Fixpoint attempts (name : string) (remaining attempt : nat) (last_exc : option string)
  (status_code : option Z) (sleeps : nat) : PlayerFetchRecord * nat * nat :=
  match remaining with
  | O => (failure name status_code last_exc, attempt, sleeps)
  | S remaining =>
      let attempt := S attempt in
      match try_once name attempt status_code with
      | (status_code, Return rec) => (rec, attempt, sleeps)
      | (status_code, Retry e) =>
          attempts name remaining attempt (Some e) status_code (S sleeps)
      | (status_code, Break e) => (failure name status_code (Some e), attempt, sleeps)
      end
  end.

Definition fetch_first_result (name : string) (max_retries : Z)
  : PlayerFetchRecord * nat * nat :=
  attempts name (Z.to_nat max_retries) 0 None None 0.

End Session.

(** [item.get(k)] on an item of the existing output. *)
Definition item_get (item : value) (k : string) : run value :=
  match item with
  | VDict items => Done (default VNone (Py.get k items))
  | _ => Crash AttributeError
  end.

(** One of the two set comprehensions of lines 188-196, [key] being
    ["firstResult"] or ["first_result"]: the queries of the items saved
    as successful, which must be hashable to enter the set. *)
Fixpoint successful_queries (key : string) (existing_items : list value)
  : run (list value) :=
  match existing_items with
  | [] => Done []
  | item :: rest =>
      run* succeeded := item_get item "success" in
      run* keep :=
        match succeeded with
        | VBool true =>
            run* found := item_get item key in
            Done (Py.truthy found)
        | _ => Done false
        end in
      if (keep : bool) then
        run* q := item_get item "query" in
        match q with
        | VDict _ | VList _ => Crash TypeError
        | _ =>
            run* qs := successful_queries key rest in
            Done (q :: qs)
        end
      else successful_queries key rest
  end.

Definition processed_success_names (existing_items : list value) : run (list value) :=
  run* legacy := successful_queries "firstResult" existing_items in
  run* current := successful_queries "first_result" existing_items in
  Done (legacy ++ current).

(** [name in processed_success_names] *)
Definition is_processed (name : string) (processed : list value) : bool :=
  existsb (fun q => match q with VStr s => String.eqb s name | _ => false end) processed.

(** The state of the loop of [main]: the items, the two counters, and
    the numbers of calls of [fetch_first_result] and of checkpoints
    written. *)
Record progress : Type := mkProgress {
  items : list value;
  success_count : nat;
  fail_count : nat;
  fetches : nat;
  checkpoints : nat
}.

Section Main.

(** Besides the server, which now answers by the number of earlier
    calls of [fetch_first_result], by the name and by the attempt: the
    duration of each call as it is stored, rounded. *)
Variable status_error : Z -> string.
Variable session_get : nat -> string -> nat -> reply.
Variable duration_sec : nat -> value.

(** Lines 221-228. *)
Definition item_of (call : nat) (rec : PlayerFetchRecord) : value :=
  VDict [("query", VStr (query rec));
         ("success", VBool (success rec));
         ("statusCode", match status_code rec with Some s => VInt s | None => VNone end);
         ("durationSec", duration_sec call);
         ("first_result", first_result rec);
         ("error", match error rec with Some e => VStr e | None => VNone end)].

(** The loop of lines 206-245. *)
Fixpoint process (resume : bool) (processed : list value) (names : list string)
  (st : progress) : progress :=
  match names with
  | [] => st
  | name :: rest =>
      if resume && is_processed name processed then process resume processed rest st
      else
        let rec :=
          fst (fst (fetch_first_result status_error (session_get (fetches st) name) name 3)) in
        let items := items st ++ [item_of (fetches st) rec] in
        process resume processed rest
          (mkProgress items
             (if success rec then S (success_count st) else success_count st)
             (if success rec then fail_count st else S (fail_count st))
             (S (fetches st))
             (if (length items mod 20 =? 0)%nat then S (checkpoints st)
              else checkpoints st))
  end.

(** Lines 178-245 of [main], for the names read and the items of the
    existing output. *)
Definition main (names : list string) (existing_items : list value) (resume : bool)
  : run progress :=
  match names with
  | [] => Crash (SystemExit 1)
  | _ =>
      run* processed := processed_success_names existing_items in
      let items := if resume then existing_items else [] in
      Done (process resume processed names (mkProgress items 0 0 0 0))
  end.

End Main.

End FetchPlayerInfo.

(** ** Sample pages and rows

    Concrete inputs on which the properties below are exercised. *)

Module Sample.

(** A page without any table. *)
Definition page_without_table : node :=
  Element "html" []
    [Element "head" [] [Element "title" [] [TextNode "Injuries"]];
     Element "body" [] [Element "h1" [] [TextNode "Championship"]]].

Definition th (s : string) : node := Element "th" [] [TextNode s].
Definition td (s : string) : node := Element "td" [] [TextNode s].

Definition header_row : node :=
  Element "thead" [] [Element "tr" [] [th "Player"; th "Injury"]].

(** A table with headers and the class marker of the injuries table. *)
Definition items_table : node :=
  Element "table" [("class", "items")]
    [header_row;
     Element "tbody" []
       [Element "tr" []
          [Element "td" []
             [Element "a" [("href", "/john-doe/profil/spieler/1")] [TextNode "John Doe"]];
           td "Knee injury"]]].

(** A table with headers and no class attribute. *)
Definition plain_table : node :=
  Element "table" [] [header_row; Element "tbody" [] []].

Definition page_of (body : list node) : node :=
  Element "html" []
    [Element "head" [] [Element "title" [] [TextNode "Injuries"]];
     Element "body" [] body].

Definition items_page : node := page_of [items_table].
Definition plain_page : node := page_of [plain_table].

Definition league_url : string :=
  "https://www.transfermarkt.com/championship/verletztespieler/wettbewerb/GB2".
Definition league_url_plus : string :=
  "https://www.transfermarkt.com/championship/verletztespieler/wettbewerb/GB2/plus/1".

Definition fresh (url : string) : scraper := mkScraper url None [] [].

(** Collaborators for the sample runs: every bracketed host is accepted,
    the guard of the base class always raises, the richer URL serves the
    page with the unmarked table and every other URL the marked one, no
    identifier is extracted from a link.  Where a run needs [trim] it is
    given [PyStr.strip]: the helper trims surrounding white space. *)
Definition accept_host (netloc : string) : result unit := Ok tt.
Definition guard_raises (self : scraper) (xpath : string) : result unit :=
  Raise (OtherException "HTTPException" "404").
Definition serve_plain_on_plus (url : string) : result node :=
  if String.eqb url league_url_plus then Ok plain_page else Ok items_page.
Definition serve_items (url : string) : result node := Ok items_page.
Definition no_id (url : option string) : option string := None.
Definition clock : string := "2025-10-11T08:00:00+00:00".

(** A table whose header names the player twice, in two languages. *)
Definition bilingual_table : node :=
  Element "table" [("class", "items")]
    [Element "thead" []
       [Element "tr" [] [th "Player"; th "Injury"; th "Spieler"; th "Age"]];
     Element "tbody" [] []].

Definition player_cell : node :=
  Element "td" []
    [Element "a" [("href", "/john-doe/profil/spieler/1")] [TextNode "John Doe"]].

Definition links_cell : node :=
  Element "td" [("class", "links")] [TextNode "Knee injury"].

(** The "links" cell followed by one cell, and by two. *)
Definition row_one_sibling : node :=
  Element "tr" [] [player_cell; links_cell; td "11.10.2025"].

Definition row_two_siblings : node :=
  Element "tr" [] [player_cell; links_cell; td "11.10.2025"; td "Oct 12, 2025"].

(** A row of two cells. *)
Definition short_row : node :=
  Element "tr" [] [player_cell; td "Knee injury"].

Definition cm_player_injury : gmap string Z :=
  <["player" := 1]> (<["injury" := 2]> ∅).

Definition cm_with_club : gmap string Z :=
  <["club" := 3]> cm_player_injury.

(** Three header cells above a body row of two cells. *)
Definition ragged_table : node :=
  Element "table" [("class", "items")]
    [Element "thead" [] [Element "tr" [] [th "Player"; th "Injury"; th "Club"]];
     Element "tbody" [] [short_row]].

Definition ragged_page : node := page_of [ragged_table].

(** A page whose only table carries the class "responsive". *)
Definition responsive_table : node :=
  Element "table" [("class", "responsive-table")] [header_row; Element "tbody" [] []].

Definition responsive_page : node := page_of [responsive_table].

(** A row whose since cell cannot be read as a date, under a map without
    an until column. *)
Definition row_bad_since : node :=
  Element "tr" [] [player_cell; td "Knee injury"; td "soon"].

Definition cm_with_since : gmap string Z :=
  <["since" := 3]> cm_player_injury.

(** A row without a player name and without a profile anchor. *)
Definition row_without_player : node :=
  Element "tr" [] [td ""; td "Knee injury"].


(** The scraper after construction on the marked page, and after its
    extraction. *)
Definition served : scraper := visit (fresh league_url) league_url_plus items_page.

Definition extracted : scraper :=
  Eval vm_compute in
    match get_injuries PyStr.strip no_id clock served with
    | Ok s => s
    | Raise _ => served
    end.



(** The parts of the sample URL. *)
Definition league_parts : SplitResult :=
  mkSplit "https" "www.transfermarkt.com"
          "/championship/verletztespieler/wettbewerb/GB2" EmptyString EmptyString.

(** The record of the row with one dated cell, read with a since column. *)
Definition dated_record : pyval :=
  Eval vm_compute in
    match _parse_row PyStr.strip no_id row_one_sibling cm_with_since with
    | Ok (Some r) => r
    | _ => PyNone
    end.


(** A player's document of the collection, the row of the sample record
    as a script receives it, and collections that hold the document,
    fail, or answer document by document. *)
Definition player_doc : value :=
  VDict [("_id", VObjectId "652f1c2e9b1d8a0012345678");
         ("display_name", VStr "John Doe");
         ("name", VStr "Jonathan Doe");
         ("injury", VStr "none recorded");
         ("updated", VDatetime "2025-10-11T08:00:00")].

Definition injury_row : value := Eval vm_compute in of_pyval dated_record.

Definition find_john (player_names : list value) : result (list value) := Ok [player_doc].

Definition find_fails (player_names : list value) : result (list value) :=
  Raise (OtherException "ServerSelectionTimeoutError" "localhost:27017").

Definition find_one_john (field : string) (player_name : value) : result value :=
  match player_name with
  | VStr s =>
      if String.eqb field "display_name" && String.eqb s "John Doe"
      then Ok player_doc else Ok VNone
  | _ => Ok VNone
  end.

Definition player_index : list (string * value) :=
  Eval vm_compute in
    match FetchInjuriesOptimized.index_players [player_doc] [] with
    | Some d => d
    | None => []
    end.

Definition written_records : list (value * value) :=
  Eval vm_compute in
    match FetchInjuries.main find_one_john [injury_row] with
    | Done w => w
    | Crash _ => []
    end.

Definition items_of (v : value) : list (string * value) :=
  match v with
  | VDict items => items
  | _ => []
  end.


(** A server that answers every request with 404, one that finds every
    player, and the run over two names against it. *)
Definition always_404 (attempt : nat) : FetchPlayerInfo.reply :=
  FetchPlayerInfo.Response 404 (FetchPlayerInfo.Json VNone).

Definition status_text (status : Z) : string := "Client Error".

Definition finds_everyone (call : nat) (name : string) (attempt : nat)
  : FetchPlayerInfo.reply :=
  FetchPlayerInfo.Response 200
    (FetchPlayerInfo.Json (VDict [("results", VList [VDict [("name", VStr name)]])])).

Definition finds_no_one (call : nat) (name : string) (attempt : nat)
  : FetchPlayerInfo.reply :=
  FetchPlayerInfo.Response 200 (FetchPlayerInfo.Json (VDict [("results", VList [])])).

Definition no_duration (call : nat) : value := VInt 0.

Definition two_names : list string := ["John Doe"; "Jane Roe"].

Definition complete_run : FetchPlayerInfo.progress :=
  Eval vm_compute in
    match FetchPlayerInfo.main status_text finds_everyone no_duration two_names [] false with
    | Done t => t
    | Crash _ => FetchPlayerInfo.mkProgress [] 0 0 0 0
    end.

(** A marked table without a header, a server of it, and a guard of the
    base class that raises when the page has no [table] element at all,
    as its argument "//table" says. *)
Definition headless_table : node :=
  Element "table" [("class", "items")]
    [Element "tbody" [] [Element "tr" [] [td "John Doe"; td "Knee injury"]]].

Definition headless_page : node := page_of [headless_table].

Definition serve_headless (url : string) : result node := Ok headless_page.

Definition guard_by_table (self : scraper) (xpath : string) : result unit :=
  match page self with
  | Some doc =>
      match Html.xpath_all "table" doc with
      | [] => Raise (OtherException "HTTPException" "404")
      | _ :: _ => Ok tt
      end
  | None => Raise (OtherException "HTTPException" "404")
  end.

End Sample.

(** * Properties *)

(** ** Lists and filters *)

Lemma filter_none {A : Type} (f : A -> bool) (l : list A) :
  (forall x, In x l -> f x = false) -> List.filter f l = [].
Proof.
  induction l as [|a l IH]; intros H; simpl; [reflexivity|].
  rewrite (H a (or_introl eq_refl)). apply IH.
  intros x Hx. apply H. right. exact Hx.
Qed.

Lemma filter_none_inv {A : Type} (f : A -> bool) (l : list A) :
  List.filter f l = [] -> forall x, In x l -> f x = false.
Proof.
  induction l as [|a l IH]; simpl; intros H x Hx; [contradiction|].
  destruct (f a) eqn:Ha; [discriminate|].
  destruct Hx as [<-|Hx]; [exact Ha|]. apply IH; assumption.
Qed.

Lemma filter_andb {A : Type} (p q : A -> bool) (l : list A) :
  List.filter (fun x => p x && q x) l = List.filter q (List.filter p l).
Proof.
  induction l as [|a l IH]; simpl; [reflexivity|].
  destruct (p a); simpl; [|exact IH].
  destruct (q a); rewrite IH; reflexivity.
Qed.

(** ** Table locator *)

(** The two queries of the bootstrap guard and of the first cascade level
    select the same tables. *)
Lemma guard_is_first_level (doc : node) :
  xpath_guard_tables doc = xpath_marked_tables doc.
Proof. unfold xpath_guard_tables, xpath_marked_tables. apply filter_andb. Qed.

Lemma marked_tables_have_header (doc t : node) :
  In t (xpath_marked_tables doc) -> In t (xpath_header_tables doc).
Proof.
  unfold xpath_marked_tables, xpath_header_tables.
  rewrite !filter_In. intros [[H _] Hh]. split; assumption.
Qed.

(** The locator raises exactly when no [table] element of the page has a
    header cell below a [thead]. *)
Lemma locate_raises_iff (doc : node) :
  _get_injuries_table doc = Raise not_found <->
  (forall t, In t (Html.xpath_all "table" doc) -> Html.has_header t = false).
Proof.
  unfold _get_injuries_table. split.
  - destruct (xpath_marked_tables doc) as [|m ms]; [|discriminate].
    unfold xpath_header_tables.
    destruct (List.filter Html.has_header (Html.xpath_all "table" doc)) eqn:E;
      [|discriminate].
    intros _. apply filter_none_inv. exact E.
  - intros H.
    assert (Hh : xpath_header_tables doc = []) by (apply filter_none; exact H).
    destruct (xpath_marked_tables doc) as [|m ms] eqn:E.
    + rewrite Hh. reflexivity.
    + pose proof (marked_tables_have_header doc m) as Hm.
      rewrite E, Hh in Hm. destruct (Hm (or_introl eq_refl)).
Qed.


Section LocatorProperties.

Variable trim : string -> string.
Variable extract_from_url : option string -> option string.
Variable utc_now_isoformat : string.

(** C1.  When neither cascade level selects a table of the page, that is,
    when no [table] element of the page has a header cell below a [thead],
    [_get_injuries_table] raises the not-found error, and so does the
    orchestrator [get_injuries]: no response is produced. *)
Theorem locate_without_table_raises (self : scraper) (doc : node) :
  page self = Some doc ->
  xpath_marked_tables doc = [] ->
  xpath_header_tables doc = [] ->
  _get_injuries_table doc = Raise not_found /\
  get_injuries trim extract_from_url utc_now_isoformat self = Raise not_found.
Proof.
  intros Hp Hm Hh.
  assert (H : _get_injuries_table doc = Raise not_found).
  { unfold _get_injuries_table. rewrite Hm, Hh. reflexivity. }
  split; [exact H|].
  unfold get_injuries. rewrite Hp, H. reflexivity.
Qed.

End LocatorProperties.

Lemma locate_without_table_raises_witness :
  _get_injuries_table Sample.page_without_table = Raise not_found /\
  get_injuries PyStr.strip (fun _ => None) "2025-10-11T08:00:00+00:00"
    (mkScraper "https://example.org/x" (Some Sample.page_without_table) [] [])
  = Raise not_found.
Proof.
  apply (locate_without_table_raises PyStr.strip (fun _ => None) _
           (mkScraper "https://example.org/x" (Some Sample.page_without_table) [] [])
           Sample.page_without_table); reflexivity.
Defined.

(** ** Fetch bootstrap *)

Section BootstrapProperties.

Variable _check_bracketed_netloc : string -> result unit.
Variable request_url_page : string -> result node.
Variable raise_exception_if_not_found : scraper -> string -> result unit.

Abbreviation post_init :=
  (__post_init__ _check_bracketed_netloc request_url_page raise_exception_if_not_found).
Abbreviation ensure := (_ensure_plus_variant _check_bracketed_netloc).

Lemma try_candidates_returned (cands : list string) :
  forall self self',
    try_candidates request_url_page self cands = Ok (self', true) ->
    exists url doc,
      In url cands /\ request_url_page url = Ok doc /\
      URL self' = url /\ page self' = Some doc /\ xpath_guard_tables doc <> [].
Proof.
  induction cands as [|url rest IH]; intros self self' H; simpl in H.
  - discriminate.
  - destruct (request_url_page url) as [doc|e] eqn:Hf; simpl in H; [|discriminate].
    destruct (xpath_guard_tables doc) as [|t ts] eqn:Hg.
    + destruct (IH _ _ H) as (u & d & Hin & Hu & HU & Hp & Hne).
      exists u, d. repeat split; try assumption. right. exact Hin.
    + inversion H; subst self'. exists url, doc. simpl.
      repeat split; try assumption; [left; reflexivity|].
      rewrite Hg. discriminate.
Qed.

(** Construction leaves a page in the object, and succeeds either by the
    loop's [return] or because the guard of the base class let it pass. *)
Lemma post_init_ok_inv (self self' : scraper) :
  post_init self = Ok self' ->
  exists doc, page self' = Some doc /\
    (xpath_guard_tables doc <> [] \/
     raise_exception_if_not_found self' "//table" = Ok tt).
Proof.
  unfold __post_init__. intros H.
  destruct (ensure (URL self)) as [primary|e]; simpl in H; [|discriminate].
  destruct (try_candidates request_url_page self _) as [[s b]|e] eqn:Ht;
    simpl in H; [|discriminate].
  destruct b.
  - inversion H; subst s.
    destruct (try_candidates_returned _ _ _ Ht) as (u & d & _ & _ & _ & Hp & Hne).
    exists d. split; [exact Hp|left; exact Hne].
  - destruct (raise_exception_if_not_found s "//table") as [[]|e] eqn:Hg;
      simpl in H; [|discriminate].
    inversion H; subst s.
    destruct (String.eqb primary (URL self)); simpl in Ht;
      destruct (request_url_page primary) as [d1|e1]; simpl in Ht; try discriminate;
      destruct (xpath_guard_tables d1); try discriminate.
    + inversion Ht; subst self'. exists d1. split; [reflexivity|right; exact Hg].
    + destruct (request_url_page (URL self)) as [d2|e2]; simpl in Ht; try discriminate.
      destruct (xpath_guard_tables d2); try discriminate.
      inversion Ht; subst self'. exists d2. split; [reflexivity|right; exact Hg].
Qed.

(** When the loop is left without [return], no page it fetched was
    accepted; the last one is the stored page. *)
Lemma try_candidates_not_returned (cands : list string) :
  forall self self',
    cands <> [] ->
    try_candidates request_url_page self cands = Ok (self', false) ->
    exists doc, page self' = Some doc /\ xpath_guard_tables doc = [].
Proof.
  induction cands as [|url rest IH]; intros self self' Hne H; [congruence|].
  simpl in H.
  destruct (request_url_page url) as [doc|e] eqn:Hf; simpl in H; [|discriminate].
  destruct (xpath_guard_tables doc) as [|t ts] eqn:Hg; [|discriminate].
  destruct rest as [|url2 rest2].
  - simpl in H. inversion H; subst self'. exists doc. split; [reflexivity|exact Hg].
  - apply (IH _ _ ltac:(discriminate) H).
Qed.

(** C8, as the code has it.  Construction succeeds in two ways.  When
    the loop of [__post_init__] returns, it has verified on the stored
    page a table with the items/responsive class marker and a header
    cell, and the first level of [_get_injuries_table] selects that very
    table: the call returns it and its [ValueError] is unreachable.
    When the loop ends without [return], construction still succeeds if
    the guard of the base class does not raise; the stored page then has
    no marked table with a header, and the locator raises its
    [ValueError] exactly when the page has no table with a header at
    all. *)
Theorem verified_page_has_injuries_table (self self' : scraper) :
  post_init self = Ok self' ->
  exists primary returned doc,
    ensure (URL self) = Ok primary /\
    try_candidates request_url_page self
      (if String.eqb primary (URL self) then [primary] else [primary; URL self])
    = Ok (self', returned) /\
    page self' = Some doc /\
    (returned = true ->
     exists t,
       head (xpath_guard_tables doc) = Some t /\
       _get_injuries_table doc = Ok t) /\
    (returned = false ->
     xpath_guard_tables doc = [] /\
     raise_exception_if_not_found self' "//table" = Ok tt /\
     (_get_injuries_table doc = Raise not_found <-> xpath_header_tables doc = [])).
Proof.
  unfold __post_init__. intros H.
  destruct (ensure (URL self)) as [primary|e]; simpl in H; [|discriminate].
  destruct (try_candidates request_url_page self _) as [[s b]|e] eqn:Ht;
    simpl in H; [|discriminate].
  exists primary, b.
  destruct b.
  - inversion H; subst s.
    destruct (try_candidates_returned _ _ _ Ht) as (u & d & _ & _ & _ & Hp & Hne).
    exists d. split; [reflexivity|]. split; [exact Ht|]. split; [exact Hp|].
    split; [|discriminate]. intros _.
    unfold _get_injuries_table. rewrite <- guard_is_first_level.
    destruct (xpath_guard_tables d) as [|t ts]; [congruence|].
    exists t. split; reflexivity.
  - destruct (raise_exception_if_not_found s "//table") as [[]|e] eqn:Hg;
      simpl in H; [|discriminate].
    inversion H; subst s.
    assert (Hc : (if String.eqb primary (URL self)
                  then [primary] else [primary; URL self]) <> [])
      by (destruct (String.eqb primary (URL self)); discriminate).
    destruct (try_candidates_not_returned _ self self' Hc Ht) as (d & Hp & Hnil).
    exists d. split; [reflexivity|]. split; [exact Ht|]. split; [exact Hp|].
    split; [discriminate|]. intros _.
    split; [exact Hnil|]. split; [exact Hg|].
    unfold _get_injuries_table. rewrite <- guard_is_first_level, Hnil.
    destruct (xpath_header_tables d); split; intros E; try reflexivity; discriminate.
Qed.


End BootstrapProperties.

(** The sample league page is stored by construction and holds the marked
    table, which the locator returns. *)
Lemma verified_page_has_injuries_table_witness :
  exists primary returned doc,
    _ensure_plus_variant Sample.accept_host (URL (Sample.fresh Sample.league_url))
    = Ok primary /\
    try_candidates Sample.serve_items (Sample.fresh Sample.league_url)
      (if String.eqb primary (URL (Sample.fresh Sample.league_url))
       then [primary] else [primary; URL (Sample.fresh Sample.league_url)])
    = Ok (visit (Sample.fresh Sample.league_url) Sample.league_url_plus Sample.items_page,
          returned) /\
    page (visit (Sample.fresh Sample.league_url) Sample.league_url_plus Sample.items_page)
    = Some doc /\
    (returned = true ->
     exists t,
       head (xpath_guard_tables doc) = Some t /\
       _get_injuries_table doc = Ok t) /\
    (returned = false ->
     xpath_guard_tables doc = [] /\
     Sample.guard_raises
       (visit (Sample.fresh Sample.league_url) Sample.league_url_plus Sample.items_page)
       "//table" = Ok tt /\
     (_get_injuries_table doc = Raise not_found <-> xpath_header_tables doc = [])).
Proof.
  apply (verified_page_has_injuries_table Sample.accept_host Sample.serve_items
           Sample.guard_raises (Sample.fresh Sample.league_url)).
  reflexivity.
Defined.

(** C8 as stated fails: with a guard of the base class that raises only
    when the page has no [table] element, construction succeeds on a page
    whose marked table has no header, nothing having been verified, and
    the locator then raises its [ValueError]. *)
Lemma construction_passes_unverified_page :
  __post_init__ Sample.accept_host Sample.serve_headless Sample.guard_by_table
    (Sample.fresh Sample.league_url)
  = Ok (mkScraper Sample.league_url (Some Sample.headless_page) []
          [Sample.league_url_plus; Sample.league_url]) /\
  xpath_guard_tables Sample.headless_page = [] /\
  _get_injuries_table Sample.headless_page = Raise not_found.
Proof. repeat split. Qed.

(** Where the derivation of the richer URL raises, construction raises
    with it, every fetch and the guard being ready to succeed. *)
Lemma construction_raises_on_unbalanced_bracket :
  __post_init__ Sample.accept_host Sample.serve_items Sample.guard_by_table
    (Sample.fresh "http://[bad/x")
  = Raise (ValueError "Invalid IPv6 URL").
Proof. reflexivity. Qed.



(** ** Column mapper *)

Lemma existsb_eqb_In (h : string) (l : list string) :
  existsb (String.eqb h) l = true <-> In h l.
Proof.
  rewrite existsb_exists. split.
  - intros (x & Hx & He). apply String.eqb_eq in He. subst x. exact Hx.
  - intros H. exists h. split; [exact H|apply String.eqb_refl].
Qed.

Lemma canon_in_sound (table : list (string * list string)) (h key : string) :
  canon_in table h = Some key -> exists alts, In (key, alts) table /\ In h alts.
Proof.
  induction table as [|[k alts] rest IH]; simpl; [discriminate|].
  destruct (existsb (String.eqb h) alts) eqn:E.
  - intros [= <-]. exists alts. split; [left; reflexivity|].
    apply existsb_eqb_In. exact E.
  - intros H. destruct (IH H) as (a & Hin & Ha).
    exists a. split; [right; exact Hin|exact Ha].
Qed.

Lemma canon_in_complete (table : list (string * list string)) (h key : string)
  (alts : list string) :
  disjoint_aliases table = true ->
  In (key, alts) table -> In h alts -> canon_in table h = Some key.
Proof.
  induction table as [|[k a] rest IH]; simpl; [contradiction|].
  intros Hd Hin Hh. apply andb_true_iff in Hd as [Hhead Hrest].
  destruct Hin as [[= -> ->]|Hin].
  - apply existsb_eqb_In in Hh. rewrite Hh. reflexivity.
  - destruct (existsb (String.eqb h) a) eqn:E; [|apply IH; assumption].
    exfalso. apply existsb_eqb_In in E.
    rewrite forallb_forall in Hhead. specialize (Hhead _ Hin).
    rewrite forallb_forall in Hhead. specialize (Hhead _ E).
    apply negb_true_iff in Hhead. simpl in Hhead.
    apply existsb_eqb_In in Hh. congruence.
Qed.

Lemma canon_matches (h key : string) : canon h = Some key <-> matches_field key h.
Proof.
  unfold canon, matches_field. split.
  - apply canon_in_sound.
  - intros (alts & Hin & Hh). apply (canon_in_complete variants h key alts); auto.
Qed.

Lemma fill_lookup_unmatched (headers : list string) (key : string) :
  (forall h, In h headers -> canon h <> Some key) ->
  forall idx (m : gmap string Z), fill_column_map idx headers m !! key = m !! key.
Proof.
  induction headers as [|h rest IH]; intros Hn idx m; simpl; [reflexivity|].
  rewrite IH by (intros x Hx; apply Hn; right; exact Hx).
  destruct (canon h) as [k|] eqn:E; [|reflexivity].
  apply lookup_insert_ne. intros ->. apply (Hn h); [left; reflexivity|exact E].
Qed.

Lemma fill_lookup_last (pre : list string) (h : string) (post : list string)
  (key : string) :
  canon h = Some key ->
  (forall h', In h' post -> canon h' <> Some key) ->
  forall idx (m : gmap string Z),
    fill_column_map idx (pre ++ h :: post) m !! key
    = Some (idx + Z.of_nat (length pre)).
Proof.
  intros Hh Hpost. induction pre as [|a pre IH]; intros idx m.
  - simpl. rewrite Hh, fill_lookup_unmatched by exact Hpost.
    rewrite lookup_insert_eq. f_equal. lia.
  - change ((a :: pre) ++ h :: post) with (a :: (pre ++ h :: post)).
    cbn [fill_column_map]. rewrite IH. f_equal. rewrite length_cons. lia.
Qed.

(** C7.  The column map gives a field the 1-based position of the last
    header cell whose normalised text is one of the field's aliases; a
    field none of whose aliases occurs stays absent; and a header that
    matches no alias set leaves the map as it was. *)
Theorem column_map_last_match_wins (table : node) (key : string) :
  (forall pre h post,
      header_texts table = pre ++ h :: post ->
      matches_field key h ->
      (forall h', In h' post -> ~ matches_field key h') ->
      _build_column_map table !! key = Some (Z.of_nat (length pre) + 1)) /\
  ((forall h, In h (header_texts table) -> ~ matches_field key h) ->
   _build_column_map table !! key = None) /\
  (forall idx h rest (m : gmap string Z),
      (forall k, ~ matches_field k h) ->
      fill_column_map idx (h :: rest) m = fill_column_map (idx + 1) rest m).
Proof.
  unfold _build_column_map. split; [|split].
  - intros pre h post E Hh Hpost. rewrite E.
    rewrite (fill_lookup_last pre h post key).
    + f_equal. lia.
    + apply canon_matches. exact Hh.
    + intros h' Hin Hc. apply (Hpost h' Hin). apply canon_matches. exact Hc.
  - intros Hn. rewrite fill_lookup_unmatched; [apply lookup_empty|].
    intros h Hin Hc. apply (Hn h Hin). apply canon_matches. exact Hc.
  - intros idx h rest m Hn. simpl.
    destruct (canon h) as [k|] eqn:E; [|reflexivity].
    destruct (Hn k). apply canon_matches. exact E.
Qed.

(** "Player" in the first column and "Spieler" in the third: the third
    column is the player's. *)
Lemma column_map_last_match_wins_witness :
  _build_column_map Sample.bilingual_table !! "player" = Some 3.
Proof.
  apply (proj1 (column_map_last_match_wins Sample.bilingual_table "player")
           ["player"; "injury"] "spieler" ["age"]).
  - reflexivity.
  - exists ["player"; "spieler"]. split; [left; reflexivity|right; left; reflexivity].
  - intros h' [<-|[]] (alts & Hin & Hh).
    assert (Hc : canon "age" = Some "player")
      by (apply canon_matches; exists alts; split; assumption).
    vm_compute in Hc. discriminate.
Defined.

(** ** Orchestrator *)

Lemma dict_get_set_eq (k : string) (v : pyval) (d : list (string * pyval)) :
  dict_get k (dict_set k v d) = Some v.
Proof.
  induction d as [|[k' v'] d IH]; simpl.
  - rewrite String.eqb_refl. reflexivity.
  - destruct (String.eqb k k') eqn:E; simpl.
    + rewrite String.eqb_refl. reflexivity.
    + rewrite E. exact IH.
Qed.

Lemma dict_get_set_ne (k k' : string) (v : pyval) (d : list (string * pyval)) :
  k <> k' -> dict_get k' (dict_set k v d) = dict_get k' d.
Proof.
  intros Hne. induction d as [|[k0 v0] d IH]; simpl.
  - apply String.eqb_neq in Hne. rewrite String.eqb_sym, Hne. reflexivity.
  - destruct (String.eqb k k0) eqn:E; simpl.
    + apply String.eqb_eq in E. subst k0.
      apply String.eqb_neq in Hne. rewrite String.eqb_sym, Hne. reflexivity.
    + destruct (String.eqb k' k0); [reflexivity|exact IH].
Qed.

Section OrchestratorProperties.

Variable trim : string -> string.
Variable extract_from_url : option string -> option string.
Variable utc_now_isoformat : string.

(** C6, as the code has it.  After a successful extraction the response
    carries the time stamp under the key [updatedAt], next to
    [league: {name, url}] and [rows]; the key [generatedAt] is not
    written. *)
Theorem response_carries_updatedAt (self self' : scraper) :
  get_injuries trim extract_from_url utc_now_isoformat self = Ok self' ->
  dict_get "updatedAt" (response self') = Some (PyStr_ utc_now_isoformat) /\
  (exists name url,
      dict_get "league" (response self')
      = Some (PyDict [("name", name); ("url", PyStr_ url)])) /\
  (exists rows, dict_get "rows" (response self') = Some (PyList rows)) /\
  dict_get "generatedAt" (response self') = dict_get "generatedAt" (response self).
Proof.
  unfold get_injuries. intros H.
  destruct (page self) as [doc|]; [|discriminate].
  destruct (_get_injuries_table doc) as [table|e]; simpl in H; [|discriminate].
  destruct (parse_rows _ _ _ _ _) as [items|e]; simpl in H; [|discriminate].
  inversion H; subst self'; clear H. unfold dict_update. simpl.
  repeat split.
  - rewrite dict_get_set_ne by discriminate. apply dict_get_set_eq.
  - eexists _, _. rewrite !dict_get_set_ne by discriminate. apply dict_get_set_eq.
  - eexists. apply dict_get_set_eq.
  - rewrite !dict_get_set_ne by discriminate. reflexivity.
Qed.

End OrchestratorProperties.

Lemma response_carries_updatedAt_witness :
  dict_get "updatedAt"
    (response (mkScraper Sample.league_url_plus (Some Sample.items_page)
       [("league",
         PyDict [("name", PyStr_ "Injuries"); ("url", PyStr_ Sample.league_url_plus)]);
        ("updatedAt", PyStr_ Sample.clock);
        ("rows",
         PyList
           [PyDict
              [("player",
                PyDict [("id", PyNone); ("name", PyStr_ "John Doe");
                        ("url", PyStr_ "/john-doe/profil/spieler/1"); ("club", PyNone)]);
               ("injury", PyStr_ "Knee injury"); ("since", PyNone); ("until", PyNone)]])]
       [Sample.league_url_plus]))
  = Some (PyStr_ Sample.clock).
Proof.
  apply (response_carries_updatedAt PyStr.strip Sample.no_id Sample.clock
           (visit (Sample.fresh Sample.league_url) Sample.league_url_plus Sample.items_page)).
  reflexivity.
Defined.

(** C6 as stated fails: the response of a successful extraction has the
    keys [league], [updatedAt] and [rows], and none named [generatedAt]. *)
Lemma response_has_no_generatedAt :
  exists self',
    get_injuries PyStr.strip Sample.no_id Sample.clock
      (visit (Sample.fresh Sample.league_url) Sample.league_url_plus Sample.items_page)
    = Ok self' /\
    dict_get "generatedAt" (response self') = None /\
    map fst (response self') = ["league"; "updatedAt"; "rows"].
Proof. eexists. repeat split. Qed.

(** ** Row parser *)

Section RowProperties.

Variable trim : string -> string.
Variable extract_from_url : option string -> option string.

Abbreviation parse_row := (_parse_row trim extract_from_url).

(** The text of a cell as the sibling heuristic reads it. *)
Abbreviation cell_string td := (trim (PyStr.join " " (Html.xpath_text td))).

Lemma parse_row_without_cells (tr : node) (col_map : gmap string Z) :
  Html.xpath_child "td" tr = [] -> parse_row tr col_map = Ok None.
Proof. unfold _parse_row. intros ->. reflexivity. Qed.

(** Once the lookups in the mapped columns have returned, the rest of the
    row parser is a pure computation. *)
Lemma parse_row_after_lookups (tr : node) (col_map : gmap string Z)
  (pn pu cn cu inj st ut : option string) :
  let tds := Html.xpath_child "td" tr in
  tds <> [] ->
  parse_player trim tr col_map tds = Ok (pn, pu) ->
  parse_club trim col_map tds = Ok (cn, cu) ->
  cell_text trim col_map tds "injury" = Ok inj ->
  cell_text trim col_map tds "since" = Ok st ->
  cell_text trim col_map tds "until" = Ok ut ->
  parse_row tr col_map =
  let dates := sibling_dates trim tr (Dates._normalize_date st) (Dates._normalize_date ut) in
  if PyStr.truthy pn && PyStr.truthy inj
  then Ok (Some (record_of extract_from_url pn pu cn cu inj (fst dates) (snd dates)))
  else Ok None.
Proof.
  intros tds Hne Hp Hc Hi Hs Hu. unfold _parse_row. fold tds.
  destruct tds as [|t ts] eqn:E; [congruence|].
  rewrite Hp. simpl. rewrite Hc. simpl. rewrite Hi. simpl.
  rewrite Hs. simpl. rewrite Hu. simpl.
  destruct (sibling_dates _ _ _ _) as [since until]. simpl.
  destruct (PyStr.truthy pn && PyStr.truthy inj); reflexivity.
Qed.

Lemma sibling_dates_unresolved (tr : node) (since until : option string) :
  since = None \/ until = None ->
  sibling_dates trim tr since until = dates_after_fallback trim tr since until.
Proof.
  intros H. unfold sibling_dates, dates_after_fallback.
  assert (Hb : is_none since || is_none until = true)
    by (destruct H as [-> | ->]; [reflexivity|apply orb_true_r]).
  rewrite Hb.
  destruct (Row.first_links_td tr) as [[injury_td following]|]; [|reflexivity].
  destruct (Row.itersiblings_td following) as [|s [|u rest]]; simpl; try reflexivity.
  destruct since, until; reflexivity.
Qed.

(** C4, as the code has it.  Let the lookups in the mapped columns have
    returned and [since] or [until] be unresolved.  Then the row parser
    returns; the first data cell whose class contains "links" is located,
    and when at least two cells follow it among its siblings, the first
    two are read as since and until, each normalised and each used only
    for a date still unresolved.  With fewer than two such cells, in
    particular with exactly one, neither date is read from them: both
    keep the value found in the mapped columns. *)
Theorem sibling_fallback_reads_two_cells_or_none (tr : node) (col_map : gmap string Z)
  (pn pu cn cu inj st ut : option string) :
  let tds := Html.xpath_child "td" tr in
  let since0 := Dates._normalize_date st in
  let until0 := Dates._normalize_date ut in
  tds <> [] ->
  parse_player trim tr col_map tds = Ok (pn, pu) ->
  parse_club trim col_map tds = Ok (cn, cu) ->
  cell_text trim col_map tds "injury" = Ok inj ->
  cell_text trim col_map tds "since" = Ok st ->
  cell_text trim col_map tds "until" = Ok ut ->
  since0 = None \/ until0 = None ->
  exists v,
    parse_row tr col_map = Ok v /\
    forall r, v = Some r ->
      exists since until,
        py_field "since" r = Some (py_opt since) /\
        py_field "until" r = Some (py_opt until) /\
        (since, until) =
        match Row.first_links_td tr with
        | Some (_, following) =>
            match Row.itersiblings_td following with
            | since_td :: until_td :: _ =>
                (match since0 with
                 | None => Dates._normalize_date (Some (cell_string since_td))
                 | Some _ => since0
                 end,
                 match until0 with
                 | None => Dates._normalize_date (Some (cell_string until_td))
                 | Some _ => until0
                 end)
            | _ => (since0, until0)
            end
        | None => (since0, until0)
        end.
Proof.
  intros tds since0 until0 Hne Hp Hc Hi Hs Hu Hun.
  rewrite (parse_row_after_lookups tr col_map pn pu cn cu inj st ut Hne Hp Hc Hi Hs Hu).
  cbv zeta. fold since0 until0.
  rewrite (sibling_dates_unresolved tr since0 until0 Hun).
  destruct (PyStr.truthy pn && PyStr.truthy inj).
  - eexists. split; [reflexivity|]. intros r [= <-].
    exists (fst (dates_after_fallback trim tr since0 until0)),
           (snd (dates_after_fallback trim tr since0 until0)).
    split; [reflexivity|]. split; [reflexivity|].
    symmetry. apply surjective_pairing.
  - exists None. split; [reflexivity|]. intros r [=].
Qed.

End RowProperties.

(** The "links" cell of the sample row is followed by two cells: both
    dates are read from them. *)
Lemma sibling_fallback_reads_two_cells_or_none_witness :
  exists v,
    _parse_row PyStr.strip Sample.no_id Sample.row_two_siblings Sample.cm_player_injury
    = Ok v /\
    forall r, v = Some r ->
      exists since until,
        py_field "since" r = Some (py_opt since) /\
        py_field "until" r = Some (py_opt until) /\
        (since, until) = (Some "2025-10-11", Some "2025-10-12").
Proof.
  apply (sibling_fallback_reads_two_cells_or_none PyStr.strip Sample.no_id
           Sample.row_two_siblings Sample.cm_player_injury
           (Some "John Doe") (Some "/john-doe/profil/spieler/1") None None
           (Some "Knee injury") None None);
    try reflexivity.
  - discriminate.
  - left. reflexivity.
Defined.

(** C4 as stated fails: with exactly one cell after the "links" cell,
    holding a date, the record's [since] stays empty. *)
Lemma one_sibling_is_not_read :
  Row.first_links_td Sample.row_one_sibling
  = Some (Sample.links_cell, [Sample.td "11.10.2025"]) /\
  Dates._normalize_date (Some (PyStr.strip "11.10.2025")) = Some "2025-10-11" /\
  _parse_row PyStr.strip Sample.no_id Sample.row_one_sibling Sample.cm_player_injury
  = Ok (Some (PyDict
      [("player", PyDict [("id", PyNone); ("name", PyStr_ "John Doe");
                          ("url", PyStr_ "/john-doe/profil/spieler/1");
                          ("club", PyNone)]);
       ("injury", PyStr_ "Knee injury");
       ("since", PyNone);
       ("until", PyNone)])).
Proof. repeat split. Qed.

(** ** Column lookups and the club fallback *)

Section LookupProperties.

Variable trim : string -> string.
Variable extract_from_url : option string -> option string.

Lemma py_index_in_range {A : Type} (l : list A) (i : Z) :
  0 <= i < Z.of_nat (length l) -> exists x, py_index l i = Ok x.
Proof.
  intros H. unfold py_index.
  replace (i <? 0) with false by (symmetry; apply Z.ltb_ge; lia).
  replace ((0 <=? i) && (i <? Z.of_nat (length l))) with true
    by (symmetry; apply andb_true_iff; split; [apply Z.leb_le|apply Z.ltb_lt]; lia).
  destruct (nth_error l (Z.to_nat i)) as [x|] eqn:E; [exists x; reflexivity|].
  apply nth_error_None in E. lia.
Qed.

(** A field that is absent from the map, or mapped beyond the cells of the
    row, is looked up as [None]: neither lookup indexes the row. *)
Lemma lookups_beyond_row (col_map : gmap string Z) (tds : list node) (key : string) :
  (col_map !! key = None \/
   exists idx, col_map !! key = Some idx /\ Z.of_nat (length tds) < idx) ->
  cell_text trim col_map tds key = Ok None /\
  cell_link trim col_map tds key = Ok None.
Proof.
  unfold cell_text, cell_link. intros [-> | (idx & -> & Hlt)]; [split; reflexivity|].
  apply Z.ltb_lt in Hlt. rewrite Hlt, orb_true_r. split; reflexivity.
Qed.

Lemma lookups_return (col_map : gmap string Z) (tds : list node) (key : string) :
  (forall idx, col_map !! key = Some idx -> 0 <= idx) ->
  (exists t, cell_text trim col_map tds key = Ok t) /\
  (exists t, cell_link trim col_map tds key = Ok t).
Proof.
  unfold cell_text, cell_link. intros H.
  destruct (col_map !! key) as [idx|]; [|split; eexists; reflexivity].
  specialize (H idx eq_refl).
  destruct ((idx =? 0) || (Z.of_nat (length tds) <? idx)) eqn:E;
    [split; eexists; reflexivity|].
  apply orb_false_iff in E as [E0 E1].
  apply Z.eqb_neq in E0. apply Z.ltb_ge in E1.
  destruct (py_index_in_range tds (idx - 1)) as [td ->]; [lia|]. simpl.
  split; [eexists; reflexivity|].
  destruct (Row.xpath_a_href td); eexists; reflexivity.
Qed.

(** The club fallback indexes the row without the range check of the
    lookups: a club column beyond the row's cells raises. *)
Lemma club_beyond_row_raises (col_map : gmap string Z) (tds : list node) (idx : Z) :
  col_map !! "club" = Some idx ->
  Z.of_nat (length tds) < idx ->
  parse_club trim col_map tds = Raise (IndexError "list index out of range").
Proof.
  intros Hc Hlt. unfold parse_club. rewrite Hc.
  destruct (lookups_beyond_row col_map tds "club") as [-> ->];
    [right; exists idx; split; assumption|]. simpl.
  unfold py_index.
  replace (idx - 1 <? 0) with false by (symmetry; apply Z.ltb_ge; lia).
  replace (idx - 1 <? Z.of_nat (length tds)) with false
    by (symmetry; apply Z.ltb_ge; lia).
  rewrite andb_false_r. reflexivity.
Qed.

Lemma club_in_row_returns (col_map : gmap string Z) (tds : list node) :
  (forall idx, col_map !! "club" = Some idx -> 1 <= idx <= Z.of_nat (length tds)) ->
  exists c, parse_club trim col_map tds = Ok c.
Proof.
  intros H. unfold parse_club.
  destruct (col_map !! "club") as [idx|] eqn:Hc; [|eexists; reflexivity].
  specialize (H idx eq_refl).
  destruct (lookups_return col_map tds "club") as [[t Ht] [l Hl]].
  { intros i Hi. rewrite Hc in Hi. injection Hi as <-. lia. }
  rewrite Ht, Hl. simpl.
  destruct (negb (PyStr.truthy t)); [|eexists; reflexivity].
  destruct (py_index_in_range tds (idx - 1)) as [td ->]; [lia|]. simpl.
  eexists. reflexivity.
Qed.

(** The acceptance rule, on every row whose club column, if the map has
    one, lies within the row: the row parser returns, with a record when
    the player's name and the injury are both non-empty after the
    fallbacks, and with [None] otherwise; a row without data cells is
    dropped at once. *)
Theorem acceptance_rule_within_row (tr : node) (col_map : gmap string Z) :
  let tds := Html.xpath_child "td" tr in
  (forall key idx, col_map !! key = Some idx -> 0 <= idx) ->
  (forall idx, col_map !! "club" = Some idx -> 1 <= idx <= Z.of_nat (length tds)) ->
  (tds = [] -> _parse_row trim extract_from_url tr col_map = Ok None) /\
  (tds <> [] ->
   exists pn pu inj,
     parse_player trim tr col_map tds = Ok (pn, pu) /\
     cell_text trim col_map tds "injury" = Ok inj /\
     ((PyStr.truthy pn = true /\ PyStr.truthy inj = true ->
       exists r, _parse_row trim extract_from_url tr col_map = Ok (Some r) /\
                 py_field "injury" r = Some (py_opt inj)) /\
      (PyStr.truthy pn = false \/ PyStr.truthy inj = false ->
       _parse_row trim extract_from_url tr col_map = Ok None))).
Proof.
  intros tds Hnn Hclub. split; [apply parse_row_without_cells|].
  intros Hne.
  destruct (lookups_return col_map tds "player" (Hnn "player")) as [[pt Hpt] [pl Hpl]].
  destruct (lookups_return col_map tds "injury" (Hnn "injury")) as [[inj Hinj] _].
  destruct (lookups_return col_map tds "since" (Hnn "since")) as [[st Hst] _].
  destruct (lookups_return col_map tds "until" (Hnn "until")) as [[ut Hut] _].
  destruct (club_in_row_returns col_map tds Hclub) as [[cn cu] Hc].
  assert (Hp : exists pn pu, parse_player trim tr col_map tds = Ok (pn, pu)).
  { unfold parse_player. rewrite Hpt, Hpl. simpl.
    destruct (negb (PyStr.truthy pt) || negb (PyStr.truthy pl));
      [destruct (Row.xpath_profile_href tr)|]; eexists _, _; reflexivity. }
  destruct Hp as (pn & pu & Hp).
  exists pn, pu, inj. split; [exact Hp|]. split; [exact Hinj|].
  rewrite (parse_row_after_lookups trim extract_from_url tr col_map
             pn pu cn cu inj st ut Hne Hp Hc Hinj Hst Hut).
  cbv zeta. split.
  - intros [-> ->]. simpl. eexists. split; reflexivity.
  - intros [-> | ->]; [reflexivity|rewrite andb_false_r; reflexivity].
Qed.

End LookupProperties.

(** C10: the lookups do what the claim says, [_parse_row] does not.  On
    a row with data cells whose club column lies beyond them, [cell_text]
    and [cell_link] return [None] for the club, and the club fallback then
    indexes the row all the same: [_parse_row] raises [IndexError]. *)
Theorem club_column_beyond_row_raises
  (trim : string -> string) (extract_from_url : option string -> option string)
  (tr : node) (col_map : gmap string Z) (idx : Z) :
  let tds := Html.xpath_child "td" tr in
  tds <> [] ->
  (forall i, col_map !! "player" = Some i -> 0 <= i) ->
  col_map !! "club" = Some idx ->
  Z.of_nat (length tds) < idx ->
  cell_text trim col_map tds "club" = Ok None /\
  cell_link trim col_map tds "club" = Ok None /\
  _parse_row trim extract_from_url tr col_map
  = Raise (IndexError "list index out of range").
Proof.
  intros tds Hne Hp Hc Hlt.
  destruct (lookups_beyond_row trim col_map tds "club") as [Ht Hl];
    [right; exists idx; split; assumption|].
  split; [exact Ht|]. split; [exact Hl|].
  unfold _parse_row. fold tds. destruct tds as [|t ts] eqn:E; [congruence|].
  destruct (lookups_return trim col_map (t :: ts) "player" Hp) as [[pt Hpt] [pl Hpl]].
  unfold parse_player. rewrite Hpt, Hpl. simpl bind.
  rewrite (club_beyond_row_raises trim col_map (t :: ts) idx Hc Hlt).
  destruct (negb (PyStr.truthy pt) || negb (PyStr.truthy pl));
    [destruct (Row.xpath_profile_href tr)|]; reflexivity.
Qed.

(** The header of the sample table has three cells, its body row two. *)
Lemma club_column_beyond_row_raises_witness :
  cell_text PyStr.strip (_build_column_map Sample.ragged_table)
    (Html.xpath_child "td" Sample.short_row) "club" = Ok None /\
  cell_link PyStr.strip (_build_column_map Sample.ragged_table)
    (Html.xpath_child "td" Sample.short_row) "club" = Ok None /\
  _parse_row PyStr.strip Sample.no_id Sample.short_row
    (_build_column_map Sample.ragged_table)
  = Raise (IndexError "list index out of range").
Proof.
  apply (club_column_beyond_row_raises PyStr.strip Sample.no_id Sample.short_row
           (_build_column_map Sample.ragged_table) 3).
  - discriminate.
  - intros i Hi. vm_compute in Hi. injection Hi as <-. lia.
  - reflexivity.
  - reflexivity.
Defined.

(** C5 at the same defect: the player's name and the injury of the sample
    row are both non-empty, yet the row parser returns neither a record
    nor [None]; the orchestrator fails with it. *)
Theorem acceptance_lost_on_short_row :
  parse_player PyStr.strip Sample.short_row Sample.cm_with_club
    (Html.xpath_child "td" Sample.short_row)
  = Ok (Some "John Doe", Some "/john-doe/profil/spieler/1") /\
  cell_text PyStr.strip Sample.cm_with_club
    (Html.xpath_child "td" Sample.short_row) "injury" = Ok (Some "Knee injury") /\
  _parse_row PyStr.strip Sample.no_id Sample.short_row Sample.cm_with_club
  = Raise (IndexError "list index out of range") /\
  get_injuries PyStr.strip Sample.no_id Sample.clock
    (mkScraper Sample.league_url (Some Sample.ragged_page) [] [])
  = Raise (IndexError "list index out of range").
Proof. repeat split. Qed.

(** ** Date normaliser *)

Module DateFacts.

Import PyStr Dates.

#[local] Arguments String.append !_ _ / : simpl nomatch.

Lemma sapp_assoc (a b c : string) : (a +:+ b) +:+ c = a +:+ (b +:+ c).
Proof. induction a as [|x a IH]; simpl; [reflexivity|rewrite IH; reflexivity]. Qed.

Lemma sapp_nil_r (a : string) : a +:+ EmptyString = a.
Proof. induction a as [|x a IH]; simpl; [reflexivity|rewrite IH; reflexivity]. Qed.

Lemma sall_app (p : ascii -> bool) (a b : string) :
  sall p (a +:+ b) = sall p a && sall p b.
Proof.
  induction a as [|x a IH]; simpl; [reflexivity|].
  rewrite IH, andb_assoc. reflexivity.
Qed.

(** [break] stops at the first character that satisfies the predicate. *)
Lemma break_app (p : ascii -> bool) (a b : string) :
  sall (fun x => negb (p x)) a = true ->
  match b with EmptyString => True | String c _ => p c = true end ->
  break p (a +:+ b) = (a, b).
Proof.
  induction a as [|x a IH]; simpl; intros Ha Hb.
  - destruct b as [|c b]; simpl; [reflexivity|]. rewrite Hb. reflexivity.
  - apply andb_true_iff in Ha as [Hx Ha]. apply negb_true_iff in Hx.
    rewrite Hx, (IH Ha Hb). reflexivity.
Qed.

Lemma break_inv (p : ascii -> bool) (s a b : string) :
  break p s = (a, b) ->
  s = a +:+ b /\ sall (fun x => negb (p x)) a = true /\
  match b with EmptyString => True | String c _ => p c = true end.
Proof.
  revert a b. induction s as [|x s IH]; simpl; intros a b H.
  - inversion H; subst. repeat split.
  - destruct (p x) eqn:Hx.
    + inversion H; subst. simpl. repeat split. exact Hx.
    + destruct (break p s) as [a' b'] eqn:E. inversion H; subst.
      destruct (IH a' b eq_refl) as (-> & Ha & Hb).
      simpl. rewrite Hx. simpl. repeat split; assumption.
Qed.

Lemma sall_negb_negb (p : ascii -> bool) (s : string) :
  sall (fun x => negb (negb (p x))) s = sall p s.
Proof.
  induction s as [|x s IH]; simpl; [reflexivity|].
  rewrite negb_involutive, IH. reflexivity.
Qed.

Lemma span_digits_app (d r : string) :
  sall isdigit d = true ->
  match r with EmptyString => True | String c _ => isdigit c = false end ->
  span_digits (d +:+ r) = (d, r).
Proof.
  intros Hd Hr. unfold span_digits. apply break_app.
  - rewrite sall_negb_negb. exact Hd.
  - destruct r as [|c r]; [exact I|]. rewrite Hr. reflexivity.
Qed.

Lemma span_digits_inv (s d r : string) :
  span_digits s = (d, r) ->
  s = d +:+ r /\ sall isdigit d = true /\
  match r with EmptyString => True | String c _ => isdigit c = false end.
Proof.
  unfold span_digits. intros H. apply break_inv in H as (-> & Hd & Hr).
  rewrite sall_negb_negb in Hd. repeat split; [exact Hd|].
  destruct r as [|c r]; [exact I|]. apply negb_true_iff. exact Hr.
Qed.

(** The two regular-expression pieces, on an input of known shape. *)
Lemma re_digits_sep_app (lo hi : nat) (sep c : ascii) (d r : string) :
  sall isdigit d = true -> isdigit c = false ->
  re_digits_sep lo hi sep (d +:+ String c r)
  = if in_range lo hi (String.length d) && Ascii.eqb c sep then Some (d, r) else None.
Proof.
  intros Hd Hc. unfold re_digits_sep.
  rewrite (span_digits_app d (String c r) Hd Hc). reflexivity.
Qed.

Lemma re_digits_sep_inv (lo hi : nat) (sep : ascii) (s d r : string) :
  re_digits_sep lo hi sep s = Some (d, r) ->
  s = d +:+ String sep r /\ is_digits lo hi d = true.
Proof.
  unfold re_digits_sep, is_digits.
  destruct (span_digits s) as [d' r'] eqn:E.
  apply span_digits_inv in E as (-> & Hd & _).
  destruct r' as [|c r']; [discriminate|].
  destruct (in_range lo hi (String.length d')) eqn:Hr; simpl; [|discriminate].
  destruct (Ascii.eqb_spec c sep) as [->|]; [|discriminate].
  intros [= <- <-]. rewrite Hd, Hr. split; reflexivity.
Qed.

Lemma re_digits_end_all (lo hi : nat) (d : string) :
  sall isdigit d = true ->
  re_digits_end lo hi d = if in_range lo hi (String.length d) then Some d else None.
Proof.
  intros Hd. unfold re_digits_end.
  rewrite <- (sapp_nil_r d) at 1. rewrite (span_digits_app d EmptyString Hd I).
  rewrite andb_true_r. reflexivity.
Qed.

Lemma re_digits_end_inv (lo hi : nat) (s d : string) :
  re_digits_end lo hi s = Some d -> s = d /\ is_digits lo hi d = true.
Proof.
  unfold re_digits_end, is_digits.
  destruct (span_digits s) as [d' r'] eqn:E.
  apply span_digits_inv in E as (-> & Hd & _).
  destruct (in_range lo hi (String.length d')) eqn:Hr; simpl; [|discriminate].
  destruct r'; simpl; [|discriminate].
  intros [= <-]. rewrite sapp_nil_r, Hd, Hr. split; reflexivity.
Qed.

Lemma is_digits_split (lo hi : nat) (d : string) :
  is_digits lo hi d = true ->
  sall isdigit d = true /\ in_range lo hi (String.length d) = true.
Proof. unfold is_digits. intros H. apply andb_true_iff in H. exact H. Qed.

(** Character classes are intervals of codes. *)
Ltac char_classes :=
  unfold isspace, isdigit, isalpha, isupper, islower, between in *;
  repeat match goal with
         | H : _ && _ = true |- _ => apply andb_true_iff in H; destruct H
         | H : _ || _ = true |- _ => apply orb_true_iff in H; destruct H
         | H : (_ <=? _)%nat = true |- _ => apply Nat.leb_le in H
         end.

Lemma alpha_not_digit (c : ascii) : isalpha c = true -> isdigit c = false.
Proof.
  intros H. apply not_true_is_false. intros Hd. char_classes; lia.
Qed.

Lemma alpha_not_space (c : ascii) : isalpha c = true -> isspace c = false.
Proof.
  intros H. apply not_true_is_false. intros Hd. char_classes; lia.
Qed.

Lemma digit_not_space (c : ascii) : isdigit c = true -> isspace c = false.
Proof.
  intros H. apply not_true_is_false. intros Hd. char_classes; lia.
Qed.

Lemma space_not_digit (c : ascii) : isspace c = true -> isdigit c = false.
Proof.
  intros H. apply not_true_is_false. intros Hd. char_classes; lia.
Qed.

Lemma lower_char_alpha (c : ascii) : isalpha (lower_char c) = true -> isalpha c = true.
Proof.
  unfold lower_char. destruct (isupper c) eqn:E; [|tauto].
  intros _. unfold isalpha. rewrite E. reflexivity.
Qed.

(** A month abbreviation consists of letters. *)
Lemma month_letters (a b c : ascii) (m : Z) :
  month_index a_month 1 (lower (String a (String b (String c EmptyString)))) = Some m ->
  isalpha a = true /\ 1 <= m <= 12.
Proof.
  unfold a_month, lower. cbn [month_index smap].
  repeat match goal with
         | |- (if String.eqb ?x ?y then _ else _) = _ -> _ =>
             destruct (String.eqb_spec x y) as [E|_];
             [injection E as E1 E2 E3; intros [= <-];
              split; [apply lower_char_alpha; rewrite <- E1; reflexivity|lia]|]
         end.
  discriminate.
Qed.

Lemma lstrip_app (p : ascii -> bool) (ws r : string) :
  sall p ws = true ->
  match r with EmptyString => True | String c _ => p c = false end ->
  lstrip_by p (ws +:+ r) = r.
Proof.
  induction ws as [|w ws IH]; simpl; intros Hw Hr.
  - destruct r as [|c r]; simpl; [reflexivity|]. rewrite Hr. reflexivity.
  - apply andb_true_iff in Hw as [Hw Hws]. rewrite Hw. apply IH; assumption.
Qed.

Lemma lstrip_inv (p : ascii -> bool) (s : string) :
  exists ws, s = ws +:+ lstrip_by p s /\ sall p ws = true.
Proof.
  induction s as [|c s (ws & E & Hws)]; simpl.
  - exists EmptyString. split; reflexivity.
  - destruct (p c) eqn:Hc.
    + exists (String c ws). simpl. rewrite Hc, Hws, <- E. split; reflexivity.
    + exists EmptyString. split; reflexivity.
Qed.

Lemma re_spaces1_app (ws r : string) :
  is_spaces ws = true -> ws <> EmptyString ->
  match r with EmptyString => True | String c _ => isspace c = false end ->
  re_spaces1 (ws +:+ r) = Some r.
Proof.
  unfold is_spaces. destruct ws as [|w ws]; [congruence|]. simpl.
  intros Hw _ Hr. apply andb_true_iff in Hw as [Hw Hws].
  rewrite Hw, (lstrip_app isspace ws r Hws Hr). reflexivity.
Qed.

Lemma re_spaces1_inv (s r : string) :
  re_spaces1 s = Some r ->
  exists ws, s = ws +:+ r /\ is_spaces ws = true /\ ws <> EmptyString.
Proof.
  unfold re_spaces1, is_spaces. destruct s as [|c s]; [discriminate|].
  destruct (isspace c) eqn:Hc; [|discriminate]. intros [= <-].
  destruct (lstrip_inv isspace s) as (ws & E & Hws).
  exists (String c ws). simpl. rewrite Hc, Hws, <- E.
  repeat split. discriminate.
Qed.

Lemma starts_with_digit (lo hi : nat) (d r : string) :
  is_digits (S lo) hi d = true ->
  match d +:+ r with EmptyString => False | String c _ => isdigit c = true end.
Proof.
  intros H. apply is_digits_split in H as [Hd Hr].
  destruct d as [|c d]; [discriminate|]. simpl in *.
  apply andb_true_iff in Hd as [Hc _]. exact Hc.
Qed.

(** The three-group patterns. *)
Lemma re_dmy_app (sep : ascii) (ylo yhi : nat) (d mo y : string) :
  isdigit sep = false ->
  is_digits 1 2 d = true -> is_digits 1 2 mo = true -> sall isdigit y = true ->
  re_dmy sep ylo yhi (d +:+ String sep (mo +:+ String sep y))
  = if in_range ylo yhi (String.length y) then Some (d, mo, y) else None.
Proof.
  intros Hs Hd Hm Hy. unfold re_dmy.
  apply is_digits_split in Hd as [Hd Hdr]. apply is_digits_split in Hm as [Hm Hmr].
  rewrite (re_digits_sep_app 1 2 sep sep d _ Hd Hs), Hdr, Ascii.eqb_refl. simpl.
  rewrite (re_digits_sep_app 1 2 sep sep mo _ Hm Hs), Hmr, Ascii.eqb_refl. simpl.
  rewrite (re_digits_end_all ylo yhi y Hy).
  destruct (in_range ylo yhi (String.length y)); reflexivity.
Qed.

Lemma re_dmy_inv (sep : ascii) (ylo yhi : nat) (s d mo y : string) :
  re_dmy sep ylo yhi s = Some (d, mo, y) ->
  s = d +:+ String sep (mo +:+ String sep y) /\
  is_digits 1 2 d = true /\ is_digits 1 2 mo = true /\ is_digits ylo yhi y = true.
Proof.
  unfold re_dmy.
  destruct (re_digits_sep 1 2 sep s) as [[d' r1]|] eqn:E1; [|discriminate].
  destruct (re_digits_sep 1 2 sep r1) as [[mo' r2]|] eqn:E2; [|discriminate].
  destruct (re_digits_end ylo yhi r2) as [y'|] eqn:E3; [|discriminate].
  intros [= <- <- <-].
  apply re_digits_sep_inv in E1 as [-> Hd].
  apply re_digits_sep_inv in E2 as [-> Hm].
  apply re_digits_end_inv in E3 as [-> Hy].
  repeat split; assumption.
Qed.

Lemma re_dmy_other (sep c : ascii) (ylo yhi : nat) (d r : string) :
  sall isdigit d = true -> isdigit c = false ->
  in_range 1 2 (String.length d) && Ascii.eqb c sep = false ->
  re_dmy sep ylo yhi (d +:+ String c r) = None.
Proof.
  intros Hd Hc Hn. unfold re_dmy.
  rewrite (re_digits_sep_app 1 2 sep c d r Hd Hc), Hn. reflexivity.
Qed.

Lemma re_iso_app (y m d : string) :
  is_digits 4 4 y = true -> is_digits 2 2 m = true -> is_digits 2 2 d = true ->
  re_iso (y +:+ "-" +:+ m +:+ "-" +:+ d) = true.
Proof.
  intros Hy Hm Hd. unfold re_iso. simpl.
  apply is_digits_split in Hy as [Hy Hyr]. apply is_digits_split in Hm as [Hm Hmr].
  apply is_digits_split in Hd as [Hd Hdr].
  rewrite (re_digits_sep_app 4 4 "-" "-" y _ Hy eq_refl), Hyr. simpl.
  rewrite (re_digits_sep_app 2 2 "-" "-" m _ Hm eq_refl), Hmr. simpl.
  rewrite (re_digits_end_all 2 2 d Hd), Hdr. reflexivity.
Qed.

Lemma re_iso_inv (s : string) :
  re_iso s = true ->
  exists y m d,
    s = y +:+ "-" +:+ m +:+ "-" +:+ d /\
    is_digits 4 4 y = true /\ is_digits 2 2 m = true /\ is_digits 2 2 d = true.
Proof.
  unfold re_iso.
  destruct (re_digits_sep 4 4 "-" s) as [[y r1]|] eqn:E1; [|discriminate].
  destruct (re_digits_sep 2 2 "-" r1) as [[m r2]|] eqn:E2; [|discriminate].
  destruct (re_digits_end 2 2 r2) as [d|] eqn:E3; [|discriminate].
  intros _.
  apply re_digits_sep_inv in E1 as [-> Hy].
  apply re_digits_sep_inv in E2 as [-> Hm].
  apply re_digits_end_inv in E3 as [-> Hd].
  exists y, m, d. repeat split; assumption.
Qed.

Lemma re_iso_other (c : ascii) (d r : string) :
  sall isdigit d = true -> isdigit c = false ->
  in_range 4 4 (String.length d) && Ascii.eqb c "-" = false ->
  re_iso (d +:+ String c r) = false.
Proof.
  intros Hd Hc Hn. unfold re_iso.
  rewrite (re_digits_sep_app 4 4 "-" c d r Hd Hc), Hn. reflexivity.
Qed.

Lemma re_iso_nondigit (c : ascii) (r : string) :
  isdigit c = false -> re_iso (String c r) = false.
Proof. intros Hc. apply (re_iso_other c EmptyString r eq_refl Hc eq_refl). Qed.

Lemma re_dmy_nondigit (sep c : ascii) (ylo yhi : nat) (r : string) :
  isdigit c = false -> re_dmy sep ylo yhi (String c r) = None.
Proof. intros Hc. apply (re_dmy_other sep c ylo yhi EmptyString r eq_refl Hc eq_refl). Qed.

Lemma digits_head_not_space (lo hi : nat) (d r : string) :
  is_digits (S lo) hi d = true ->
  match d +:+ r with EmptyString => True | String c _ => isspace c = false end.
Proof.
  intros H. pose proof (starts_with_digit lo hi d r H) as Hh.
  destruct (d +:+ r) as [|c x]; [exact I|]. apply digit_not_space. exact Hh.
Qed.

Lemma in_range_exact (n k : nat) : in_range n n k = true -> k = n.
Proof.
  unfold in_range. intros H. apply andb_true_iff in H as [H1 H2].
  apply Nat.leb_le in H1, H2. lia.
Qed.

(** [strptime] accepts exactly the month-name form. *)
(** A digit is the character of its value, and the value lies in 0..9. *)
Lemma digit_char_val (c : ascii) :
  isdigit c = true -> digit_char (digit_val c) = c /\ 0 <= digit_val c <= 9.
Proof.
  destruct c as [[] [] [] [] [] [] [] []]; vm_compute; try discriminate;
    intros _; (split; [reflexivity|split; discriminate]).
Qed.

(** [%Y] prints a year from 1000 on as its four digits. *)
Lemma fmt_year_four_digits (y : string) :
  is_digits 4 4 y = true -> 1000 <= int y -> fmt_year (int y) = y.
Proof.
  intros Hy Hge. apply is_digits_split in Hy as [Hs Hl].
  destruct y as [|a [|b [|c [|d [|e y]]]]]; try discriminate.
  cbn [sall] in Hs.
  apply andb_true_iff in Hs as [Ha Hs]. apply andb_true_iff in Hs as [Hb Hs].
  apply andb_true_iff in Hs as [Hc Hs]. apply andb_true_iff in Hs as [Hd _].
  destruct (digit_char_val a Ha) as [Ea Ra]. destruct (digit_char_val b Hb) as [Eb Rb].
  destruct (digit_char_val c Hc) as [Ec Rc]. destruct (digit_char_val d Hd) as [Ed Rd].
  unfold int in *. cbn [int_acc] in *.
  set (va := digit_val a) in *. set (vb := digit_val b) in *.
  set (vc := digit_val c) in *. set (vd := digit_val d) in *.
  set (n := 10 * (10 * (10 * (10 * 0 + va) + vb) + vc) + vd) in *.
  assert (Hq : n / 100 = 10 * va + vb)
    by (symmetry; apply (Z.div_unique n 100 _ (10 * vc + vd)); unfold n; lia).
  assert (Hr : n mod 100 = 10 * vc + vd)
    by (symmetry; apply (Z.mod_unique n 100 (10 * va + vb)); unfold n; lia).
  assert (H1 : (10 * va + vb) / 10 = va)
    by (symmetry; apply (Z.div_unique _ 10 _ vb); lia).
  assert (H2 : (10 * va + vb) mod 10 = vb)
    by (symmetry; apply (Z.mod_unique _ 10 va); lia).
  assert (H3 : (10 * vc + vd) / 10 = vc)
    by (symmetry; apply (Z.div_unique _ 10 _ vd); lia).
  assert (H4 : (10 * vc + vd) mod 10 = vd)
    by (symmetry; apply (Z.mod_unique _ 10 vc); lia).
  unfold fmt_year, fmt_04d, fmt_02d, str_of_digit.
  rewrite Hq, Hr, H1, H2, H3, H4, Ea, Eb, Ec, Ed.
  cbn [String.append lstrip_by].
  destruct (Ascii.eqb_spec "0" a) as [E|_]; [|reflexivity].
  exfalso. assert (H0 : va = 0) by (unfold va; rewrite <- E; reflexivity).
  unfold n in Hge. lia.
Qed.

Lemma strptime_month_form (s r : string) :
  month_form s r ->
  exists t, strptime_b_d_Y s = Ok t /\ strftime_Y_m_d t = r.
Proof.
  intros [mon ws1 d ws2 y m Hlen Hm Hw1 Hn1 Hd Hdr Hw2 Hn2 Hy Hge Hv].
  destruct mon as [|a [|b [|c [|x mon]]]]; try discriminate.
  exists (int y, m, int d).
  split; [|unfold strftime_Y_m_d; rewrite (fmt_year_four_digits y Hy Hge); reflexivity].
  change (String a (String b (String c EmptyString)) +:+ ws1 +:+ d +:+ "," +:+ ws2 +:+ y)
    with (String a (String b (String c (ws1 +:+ d +:+ String "," (ws2 +:+ y))))).
  unfold strptime_b_d_Y. rewrite Hm.
  rewrite (re_spaces1_app ws1 _ Hw1 Hn1 (digits_head_not_space 0 2 d _ Hd)).
  pose proof (is_digits_split _ _ _ Hd) as [Hds Hdl].
  rewrite (re_digits_sep_app 1 2 "," "," d _ Hds eq_refl), Hdl. simpl andb. cbv iota.
  replace ((1 <=? int d) && (int d <=? 31)) with true
    by (symmetry; apply andb_true_iff; split; apply Z.leb_le; lia).
  rewrite <- (sapp_nil_r y) at 1.
  rewrite (re_spaces1_app ws2 _ Hw2 Hn2 (digits_head_not_space 3 4 y _ Hy)).
  rewrite sapp_nil_r.
  pose proof (is_digits_split _ _ _ Hy) as [Hys Hyl].
  rewrite (re_digits_end_all 4 4 y Hys), Hyl, Hv. reflexivity.
Qed.

Lemma strptime_inv (s : string) (t : Z * Z * Z) :
  strptime_b_d_Y s = Ok t -> month_form s (strftime_Y_m_d t) \/ early_month_form s.
Proof.
  unfold strptime_b_d_Y.
  destruct s as [|a [|b [|c r0]]]; try discriminate.
  destruct (month_index a_month 1 _) as [m|] eqn:Hm; [|discriminate].
  destruct (re_spaces1 r0) as [r1|] eqn:E1; [|discriminate].
  destruct (re_digits_sep 1 2 "," r1) as [[d r2]|] eqn:E2; [|discriminate].
  destruct ((1 <=? int d) && (int d <=? 31)) eqn:Hr; [|discriminate].
  destruct (re_spaces1 r2) as [r3|] eqn:E3; [|discriminate].
  destruct (re_digits_end 4 4 r3) as [y|] eqn:E4; [|discriminate].
  destruct (valid_date (int y) m (int d)) eqn:Hv; [|discriminate].
  intros [= <-].
  apply re_spaces1_inv in E1 as (ws1 & -> & Hw1 & Hn1).
  apply re_digits_sep_inv in E2 as [-> Hd].
  apply re_spaces1_inv in E3 as (ws2 & -> & Hw2 & Hn2).
  apply re_digits_end_inv in E4 as [-> Hy].
  apply andb_true_iff in Hr as [Hr1 Hr2]. apply Z.leb_le in Hr1, Hr2.
  destruct (Z_lt_le_dec (int y) 1000) as [Hlt|Hge].
  - right.
    apply (early_month_form_intro (String a (String b (String c EmptyString)))
             ws1 d ws2 y m); try assumption; [reflexivity|lia].
  - left. unfold strftime_Y_m_d. rewrite (fmt_year_four_digits y Hy Hge).
    apply (month_form_intro (String a (String b (String c EmptyString))) ws1 d ws2 y m);
      try assumption; [reflexivity|lia].
Qed.

Lemma month_form_head (s r : string) :
  month_form s r ->
  exists c x, s = String c x /\ isalpha c = true.
Proof.
  intros [mon ws1 d ws2 y m Hlen Hm _ _ _ _ _ _ _ _ _].
  destruct mon as [|a [|b [|c [|x mon]]]]; try discriminate.
  eexists a, _. split; [reflexivity|].
  apply (month_letters a b c m Hm).
Qed.

(** A comma in fourth place: [strptime] rejects the input. *)
Lemma strptime_comma (a b c : ascii) (r : string) :
  exists e, strptime_b_d_Y (String a (String b (String c (String "," r)))) = Raise e.
Proof.
  unfold strptime_b_d_Y.
  destruct (month_index a_month 1 _); eexists; reflexivity.
Qed.

Lemma strip_weekday_inv (s : string) :
  strip_weekday s = s \/
  exists a b c ws,
    s = String a (String b (String c ("," +:+ ws +:+ strip_weekday s))) /\
    isalpha a = true /\ isalpha b = true /\ isalpha c = true /\ is_spaces ws = true.
Proof.
  unfold strip_weekday.
  destruct s as [|a [|b [|c [|k r]]]]; try (left; reflexivity).
  destruct (isalpha a && isalpha b && isalpha c && Ascii.eqb k ",") eqn:E;
    [|left; reflexivity].
  right. apply andb_true_iff in E as [E Hk]. apply andb_true_iff in E as [E Hc].
  apply andb_true_iff in E as [Ha Hb]. apply Ascii.eqb_eq in Hk. subst k.
  destruct (lstrip_inv isspace r) as (ws & Er & Hws).
  exists a, b, c, ws. simpl. rewrite <- Er. repeat split; assumption.
Qed.

(** Every documented form is normalised as documented. *)
Lemma normalize_documented (s r : string) :
  is_empty s = false ->
  existsb (String.eqb s) placeholders = false ->
  date_form (strip s) r ->
  _normalize_date (Some s) = Some r.
Proof.
  intros He Hp H. unfold _normalize_date. rewrite He, Hp. cbv zeta. simpl orb. cbv iota.
  destruct H as [y m d Hy Hm Hd|d mo y Hd Hm Hy|d mo y Hd Hm Hy|d mo y Hd Hm Hy
                 |x r H|a b c ws x r Ha Hb Hc Hws H].
  - rewrite (re_iso_app y m d Hy Hm Hd). reflexivity.
  - pose proof (is_digits_split _ _ _ Hd) as [Hds Hdl].
    pose proof (is_digits_split _ _ _ Hy) as [Hys Hyl].
    change (d +:+ "." +:+ mo +:+ "." +:+ y) with (d +:+ String "." (mo +:+ String "." y)).
    rewrite (re_iso_other "." d _ Hds eq_refl) by apply andb_false_r.
    rewrite (re_dmy_app "." 4 4 d mo y eq_refl Hd Hm Hys), Hyl. reflexivity.
  - pose proof (is_digits_split _ _ _ Hd) as [Hds Hdl].
    pose proof (is_digits_split _ _ _ Hy) as [Hys Hyl].
    change (d +:+ "/" +:+ mo +:+ "/" +:+ y) with (d +:+ String "/" (mo +:+ String "/" y)).
    rewrite (re_iso_other "/" d _ Hds eq_refl) by apply andb_false_r.
    rewrite (re_dmy_other "." "/" 4 4 d _ Hds eq_refl) by apply andb_false_r.
    rewrite (re_dmy_app "/" 2 4 d mo y eq_refl Hd Hm Hys).
    rewrite (in_range_exact _ _ Hyl). change (in_range 2 4 4) with true. cbv iota beta.
    rewrite (in_range_exact _ _ Hyl). reflexivity.
  - pose proof (is_digits_split _ _ _ Hd) as [Hds Hdl].
    pose proof (is_digits_split _ _ _ Hy) as [Hys Hyl].
    change (d +:+ "/" +:+ mo +:+ "/" +:+ y) with (d +:+ String "/" (mo +:+ String "/" y)).
    rewrite (re_iso_other "/" d _ Hds eq_refl) by apply andb_false_r.
    rewrite (re_dmy_other "." "/" 4 4 d _ Hds eq_refl) by apply andb_false_r.
    rewrite (re_dmy_app "/" 2 4 d mo y eq_refl Hd Hm Hys).
    rewrite (in_range_exact _ _ Hyl). change (in_range 2 4 2) with true. cbv iota beta.
    rewrite (in_range_exact _ _ Hyl). change (2 =? 2)%nat with true. cbv iota.
    destruct (int y <=? 69); reflexivity.
  - destruct (month_form_head x r H) as (c & x' & -> & Hc).
    pose proof (alpha_not_digit c Hc) as Hnd.
    rewrite (re_iso_nondigit c x' Hnd), !(re_dmy_nondigit _ c _ _ x' Hnd).
    destruct (strptime_month_form _ r H) as (t & -> & <-). reflexivity.
  - pose proof (alpha_not_digit a Ha) as Hnd.
    rewrite (re_iso_nondigit a _ Hnd), !(re_dmy_nondigit _ a _ _ _ Hnd).
    change ("," +:+ ws +:+ x) with (String "," (ws +:+ x)).
    destruct (strptime_comma a b c (ws +:+ x)) as [e ->].
    unfold strip_weekday. rewrite Ha, Hb, Hc. simpl andb. cbv iota.
    destruct (month_form_head x r H) as (k & x' & -> & Hk).
    rewrite (lstrip_app isspace ws (String k x') Hws (alpha_not_space k Hk)).
    destruct (strptime_month_form _ r H) as (t & -> & <-). reflexivity.
Qed.

Lemma early_month_form_head (s : string) :
  early_month_form s ->
  exists c x, s = String c x /\ isalpha c = true.
Proof.
  intros [mon ws1 d ws2 y m Hlen Hm _ _ _ _ _ _ _ _ _].
  destruct mon as [|a [|b [|c [|x mon]]]]; try discriminate.
  eexists a, _. split; [reflexivity|].
  apply (month_letters a b c m Hm).
Qed.

(** Whatever is normalised to a date has a documented form, apart from
    slash dates with a year of three digits and month-name dates with a
    year below 1000. *)
Lemma normalize_only_documented (s r : string) :
  _normalize_date (Some s) = Some r ->
  date_form (strip s) r \/ slash_year3 (strip s) \/ month_year_below_1000 (strip s).
Proof.
  unfold _normalize_date.
  destruct (is_empty s || existsb (String.eqb s) placeholders); [discriminate|].
  cbv zeta. set (x := strip s).
  destruct (re_iso x) eqn:Eiso.
  { intros [= <-]. left. apply re_iso_inv in Eiso as (y & m & d & -> & Hy & Hm & Hd).
    apply form_iso; assumption. }
  destruct (re_dmy "." 4 4 x) as [[[d mo] y]|] eqn:Edot.
  { intros [= <-]. left. apply re_dmy_inv in Edot as (-> & Hd & Hm & Hy).
    apply (form_dotted d mo y); assumption. }
  destruct (re_dmy "/" 2 4 x) as [[[d mo] y]|] eqn:Esl.
  { intros [= <-]. apply re_dmy_inv in Esl as (-> & Hd & Hm & Hy).
    pose proof (is_digits_split _ _ _ Hy) as [Hys Hyl].
    unfold in_range in Hyl. apply andb_true_iff in Hyl as [H2 H4].
    apply Nat.leb_le in H2, H4.
    assert (Hcase : String.length y = 2%nat \/ String.length y = 3%nat \/
                    String.length y = 4%nat) by lia.
    destruct Hcase as [E|[E|E]]; rewrite E; simpl Nat.eqb; cbv iota.
    - left.
      assert (Hy2 : is_digits 2 2 y = true)
        by (unfold is_digits; rewrite Hys, E; reflexivity).
      pose proof (form_slash2 d mo y Hd Hm Hy2) as F.
      destruct (int y <=? 69); exact F.
    - right. left. exists d, mo, y. repeat split; try assumption.
      unfold is_digits. rewrite Hys, E. reflexivity.
    - left. apply (form_slash4 d mo y); try assumption.
      unfold is_digits. rewrite Hys, E. reflexivity. }
  destruct (strptime_b_d_Y x) as [t|e] eqn:Ep.
  { intros [= <-]. apply strptime_inv in Ep as [F|F].
    - left. apply form_month. exact F.
    - right. right. left. exact F. }
  destruct (strptime_b_d_Y (strip_weekday x)) as [t|e2] eqn:Ep2; [|discriminate].
  intros [= <-].
  destruct (strip_weekday_inv x) as [E|(a & b & c & ws & E & Ha & Hb & Hc & Hws)].
  - rewrite E, Ep in Ep2. discriminate.
  - apply strptime_inv in Ep2 as [F|F].
    + left. rewrite E. apply form_prefixed; assumption.
    + right. right. right. exists a, b, c, ws, (strip_weekday x).
      repeat split; assumption.
Qed.

Ltac digit_cases c :=
  destruct c as [[] [] [] [] [] [] [] []]; vm_compute; try reflexivity; try discriminate.

Lemma digit_val_range (c : ascii) : isdigit c = true -> 0 <= digit_val c <= 9.
Proof. digit_cases c; intros _; split; discriminate. Qed.

Lemma int_two_digits (d : string) : is_digits 1 2 d = true -> 0 <= int d <= 99.
Proof.
  intros H. apply is_digits_split in H as [Hs Hl].
  destruct d as [|a [|b [|c d]]]; try discriminate; unfold int; cbn [int_acc].
  - cbn [sall] in Hs. apply andb_true_iff in Hs as [Ha _].
    pose proof (digit_val_range a Ha). lia.
  - cbn [sall] in Hs. apply andb_true_iff in Hs as [Ha Hb].
    apply andb_true_iff in Hb as [Hb _].
    pose proof (digit_val_range a Ha). pose proof (digit_val_range b Hb). lia.
Qed.

Lemma digit_char_digit (k : Z) : 0 <= k <= 9 -> isdigit (digit_char k) = true.
Proof.
  intros H.
  assert (C : k = 0 \/ k = 1 \/ k = 2 \/ k = 3 \/ k = 4 \/ k = 5 \/ k = 6 \/
              k = 7 \/ k = 8 \/ k = 9) by lia.
  repeat (destruct C as [->|C]; [reflexivity|]). subst k. reflexivity.
Qed.

Lemma fmt_02d_digits (n : Z) : 0 <= n <= 99 -> is_digits 2 2 (fmt_02d n) = true.
Proof.
  intros H. unfold fmt_02d, str_of_digit, is_digits. cbn [String.append sall String.length].
  rewrite !digit_char_digit; [reflexivity| |].
  - pose proof (Z.mod_pos_bound n 10). lia.
  - split; [apply Z.div_pos; lia|].
    apply Z.lt_succ_r. apply Z.div_lt_upper_bound; lia.
Qed.

Lemma four_digit_year (c : string) (y : string) :
  is_digits 2 2 c = true -> is_digits 2 2 y = true -> is_digits 4 4 (c +:+ y) = true.
Proof.
  intros Hc Hy. apply is_digits_split in Hc as [Hcs Hcl], Hy as [Hys Hyl].
  destruct c as [|a [|b [|]]]; try discriminate.
  destruct y as [|e [|f [|]]]; try discriminate.
  unfold is_digits. cbn [String.append sall String.length] in *.
  repeat match goal with H : _ && _ = true |- _ => apply andb_true_iff in H as [? ?] end.
  repeat match goal with H : isdigit _ = true |- _ => rewrite H; clear H end.
  reflexivity.
Qed.







(** The cases left out of C2's statement: a year of three digits is
    neither widened nor refused, and a year below 1000 is printed
    without its leading zeros. *)
Lemma normalize_date_three_digit_year :
  _normalize_date (Some "1/9/025") = Some "025-09-01" /\
  slash_year3 (strip "1/9/025").
Proof.
  split; [reflexivity|]. exists "1", "9", "025". repeat split.
Qed.

Lemma normalize_date_year_below_1000 :
  _normalize_date (Some "Oct 11, 0999") = Some "999-10-11" /\
  month_year_below_1000 (strip "Oct 11, 0999").
Proof.
  split; [reflexivity|]. left.
  apply (early_month_form_intro "Oct" " " "11" " " "0999" 10); try reflexivity;
    try discriminate; vm_compute; try split; discriminate.
Qed.

End DateFacts.

(** ** The richer URL variant *)

Module UrlFacts.

Import PyStr Url DateFacts.

#[local] Arguments String.append !_ _ / : simpl nomatch.

(** A fact about every character, checked on all 256 of them. *)
Ltac all_chars c :=
  destruct c as [[] [] [] [] [] [] [] []]; vm_compute; try reflexivity; try discriminate.

Lemma scheme_char_lower (c : ascii) :
  scheme_char c = true -> scheme_char (lower_char c) = true.
Proof. all_chars c. Qed.

Lemma lower_char_idem (c : ascii) : lower_char (lower_char c) = lower_char c.
Proof. all_chars c. Qed.

Lemma isalpha_lower (c : ascii) : isalpha c = true -> isalpha (lower_char c) = true.
Proof. all_chars c. Qed.

Lemma scheme_char_not_colon (c : ascii) : scheme_char c = true -> Ascii.eqb ":" c = false.
Proof. all_chars c. Qed.

Lemma alpha_not_c0 (c : ascii) : isalpha c = true -> c0_or_space c = false.
Proof. all_chars c. Qed.

Lemma unsafe_is_c0 (c : ascii) : c0_or_space c = false -> safe_byte c = true.
Proof. all_chars c. Qed.

Lemma safe_lower (c : ascii) : safe_byte c = true -> safe_byte (lower_char c) = true.
Proof. all_chars c. Qed.

Lemma sall_impl (p q : ascii -> bool) (s : string) :
  (forall c, p c = true -> q c = true) -> sall p s = true -> sall q s = true.
Proof.
  intros Hpq. induction s as [|c s IH]; simpl; [reflexivity|].
  intros H. apply andb_true_iff in H as [Hc Hs].
  rewrite (Hpq c Hc), (IH Hs). reflexivity.
Qed.

Lemma sall_smap (p : ascii -> bool) (f : ascii -> ascii) (s : string) :
  (forall c, p c = true -> p (f c) = true) -> sall p s = true -> sall p (smap f s) = true.
Proof.
  intros Hf. induction s as [|c s IH]; simpl; [reflexivity|].
  intros H. apply andb_true_iff in H as [Hc Hs].
  rewrite (Hf c Hc), (IH Hs). reflexivity.
Qed.

Lemma lower_idem (s : string) : lower (lower s) = lower s.
Proof.
  unfold lower. induction s as [|c s IH]; simpl; [reflexivity|].
  rewrite lower_char_idem, IH. reflexivity.
Qed.

Lemma sfilter_id (p : ascii -> bool) (s : string) :
  sall p s = true -> sfilter p s = s.
Proof.
  induction s as [|c s IH]; simpl; [reflexivity|].
  intros H. apply andb_true_iff in H as [Hc Hs]. rewrite Hc, (IH Hs). reflexivity.
Qed.

Lemma sall_sfilter (p : ascii -> bool) (s : string) : sall p (sfilter p s) = true.
Proof.
  induction s as [|c s IH]; simpl; [reflexivity|].
  destruct (p c) eqn:Hc; simpl; [rewrite Hc|]; exact IH.
Qed.

(** The head of a string survives the filter when it passes it. *)
Lemma sfilter_head (p : ascii -> bool) (c : ascii) (s : string) :
  p c = true -> sfilter p (String c s) = String c (sfilter p s).
Proof. intros H. simpl. rewrite H. reflexivity. Qed.

Lemma lstrip_head (p : ascii -> bool) (s : string) :
  match lstrip_by p s with
  | String c _ => p c = false
  | EmptyString => True
  end.
Proof.
  induction s as [|c s IH]; simpl; [exact I|].
  destruct (p c) eqn:Hc; [exact IH|exact Hc].
Qed.

Lemma lstrip_id (p : ascii -> bool) (c : ascii) (s : string) :
  p c = false -> lstrip_by p (String c s) = String c s.
Proof. intros H. simpl. rewrite H. reflexivity. Qed.

Lemma rstrip_inv (p : ascii -> bool) (s : string) :
  exists sl, s = rstrip_by p s +:+ sl /\ sall p sl = true.
Proof.
  induction s as [|c s (sl & E & Hsl)]; simpl.
  - exists EmptyString. split; reflexivity.
  - destruct (rstrip_by p s) as [|d r] eqn:Er; simpl.
    + simpl in E. subst sl. destruct (p c) eqn:Hc.
      * exists (String c s). simpl. rewrite Hc, Hsl. split; reflexivity.
      * exists s. split; [reflexivity|exact Hsl].
    + exists sl. split; [|exact Hsl]. simpl in *. rewrite <- E. reflexivity.
Qed.

Lemma sall_rstrip (q p : ascii -> bool) (s : string) :
  sall q s = true -> sall q (rstrip_by p s) = true.
Proof.
  intros H. destruct (rstrip_inv p s) as (sl & E & _).
  rewrite E, sall_app in H. apply andb_true_iff in H. apply H.
Qed.

Lemma break_app_found (p : ascii -> bool) (a b x y : string) (k : ascii) :
  break p a = (x, String k y) -> break p (a +:+ b) = (x, String k y +:+ b).
Proof.
  intros H. apply break_inv in H as (-> & Hx & Hk).
  rewrite sapp_assoc. apply (break_app p x (String k y +:+ b) Hx). exact Hk.
Qed.

Lemma break_app_none (p : ascii -> bool) (a b : string) :
  sall (fun c => negb (p c)) a = true ->
  break p (a +:+ b) = (a +:+ fst (break p b), snd (break p b)).
Proof.
  intros Ha. destruct (break p b) as [x y] eqn:E. simpl.
  apply break_inv in E as (-> & Hx & Hy).
  rewrite <- sapp_assoc. apply break_app; [|exact Hy].
  rewrite sall_app, Ha, Hx. reflexivity.
Qed.

Lemma break_total (p : ascii -> bool) (s : string) :
  sall (fun c => negb (p c)) s = true -> break p s = (s, EmptyString).
Proof.
  intros H. rewrite <- (sapp_nil_r s) at 1. apply break_app; [exact H|exact I].
Qed.



Lemma sall_and (p q : ascii -> bool) (s : string) :
  sall p s = true -> sall q s = true -> sall (fun c => p c && q c) s = true.
Proof.
  induction s as [|c s IH]; simpl; [reflexivity|].
  intros Hp Hq. apply andb_true_iff in Hp as [Hp1 Hp2].
  apply andb_true_iff in Hq as [Hq1 Hq2].
  rewrite Hp1, Hq1, (IH Hp2 Hq2). reflexivity.
Qed.

Lemma sall_tail1 (p : ascii -> bool) (s : string) :
  sall p s = true -> sall p (tail1 s) = true.
Proof.
  destruct s as [|c s]; simpl; [reflexivity|].
  intros H. apply andb_true_iff in H. apply H.
Qed.

Lemma path_char_intro (c : ascii) :
  negb (Ascii.eqb "?" c) && negb (Ascii.eqb "#" c) = true -> path_char c = true.
Proof. all_chars c. Qed.

Lemma delim_not_alpha (c : ascii) : netloc_delim c = true -> isalpha c = false.
Proof. all_chars c. Qed.

Lemma delim_not_c0 (c : ascii) : netloc_delim c = true -> c0_or_space c = false.
Proof. all_chars c. Qed.

Lemma scheme_like_inv (pre : string) :
  scheme_like pre = true ->
  exists c x, pre = String c x /\ isalpha c = true /\ sall scheme_char pre = true.
Proof.
  unfold scheme_like. destruct pre as [|c x]; [discriminate|].
  intros H. apply andb_true_iff in H as [Hc Hs]. exists c, x. repeat split; assumption.
Qed.

Lemma scheme_like_lower (pre : string) :
  scheme_like pre = true -> scheme_like (lower pre) = true.
Proof.
  intros H. destruct (scheme_like_inv pre H) as (c & x & -> & Hc & Hs).
  unfold scheme_like, lower. cbn [smap]. rewrite (isalpha_lower c Hc).
  change (String (lower_char c) (smap lower_char x)) with (smap lower_char (String c x)).
  apply (sall_smap scheme_char lower_char _ scheme_char_lower Hs).
Qed.

Lemma split_scheme_inv (url sch rest : string) :
  split_scheme url = (sch, rest) ->
  (sch = EmptyString /\ rest = url /\
   forall pre k r, break (Ascii.eqb ":") url = (pre, String k r) -> scheme_like pre = false)
  \/
  (exists pre, url = pre +:+ String ":" rest /\ sch = lower pre /\ scheme_like pre = true).
Proof.
  unfold split_scheme.
  destruct (break (Ascii.eqb ":") url) as [pre after] eqn:E.
  destruct after as [|k after].
  - intros [= <- <-]. left. repeat split. intros pre' k r [=].
  - destruct (scheme_like pre) eqn:Hs.
    + intros [= <- <-]. right. exists pre.
      apply break_inv in E as (-> & _ & Hk). apply Ascii.eqb_eq in Hk. subst k.
      repeat split; assumption.
    + intros [= <- <-]. left. repeat split. intros pre' k' r [= <- _ _]. exact Hs.
Qed.

Lemma startswith_slashes (url : string) :
  startswith "//" url = true -> url = "//" +:+ tail2 url.
Proof.
  destruct url as [|a [|b r]]; cbn [startswith]; try discriminate.
  - rewrite andb_false_r. discriminate.
  - intros H. apply andb_true_iff in H as [Ha H]. apply andb_true_iff in H as [Hb _].
    apply Ascii.eqb_eq in Ha, Hb. subst a b. reflexivity.
Qed.

(** The head of the URL after stripping and filtering is not a stripped
    character. *)
Lemma cleaned_head (u : string) :
  match sfilter safe_byte (lstrip_by c0_or_space u) with
  | String x _ => c0_or_space x = false
  | EmptyString => True
  end.
Proof.
  pose proof (lstrip_head c0_or_space u) as H.
  destruct (lstrip_by c0_or_space u) as [|x r]; [exact I|].
  rewrite (sfilter_head safe_byte x r (unsafe_is_c0 x H)). exact H.
Qed.

Lemma head_app (P : ascii -> Prop) (a b : string) :
  match a +:+ b with String x _ => P x | EmptyString => True end ->
  match a with String x _ => P x | EmptyString => True end.
Proof. destruct a; simpl; [intros _; exact I|tauto]. Qed.

Lemma split1_inv (k : ascii) (url a b : string) :
  split1 k url = (a, b) ->
  exists rest,
    url = a +:+ rest /\ b = tail1 rest /\
    sall (fun c => negb (Ascii.eqb k c)) a = true.
Proof.
  unfold split1. destruct (break (Ascii.eqb k) url) as [x y] eqn:E.
  intros [= <- <-]. apply break_inv in E as (-> & Hx & _).
  exists y. repeat split. exact Hx.
Qed.

(** The query and the fragment are cut off the end. *)
Lemma tail_split_inv (url2 url3 f p q : string) :
  split1 "#" url2 = (url3, f) ->
  split1 "?" url3 = (p, q) ->
  exists bq bf,
    url2 = p +:+ bq +:+ bf /\ q = tail1 bq /\ f = tail1 bf /\
    sall path_char p = true /\ sall query_char bq = true.
Proof.
  intros Hf Hq.
  apply split1_inv in Hf as (bf & -> & -> & H3).
  apply split1_inv in Hq as (bq & -> & -> & Hp).
  exists bq, bf. rewrite sapp_assoc. repeat split.
  - rewrite sall_app in H3. apply andb_true_iff in H3 as [H3 _].
    apply (sall_impl _ _ _ path_char_intro). apply sall_and; assumption.
  - rewrite sall_app in H3. apply andb_true_iff in H3 as [_ H3]. exact H3.
Qed.

Lemma sall_app_inv (p : ascii -> bool) (a b : string) :
  sall p (a +:+ b) = true -> sall p a = true /\ sall p b = true.
Proof. rewrite sall_app. apply andb_true_iff. Qed.

Lemma check_brackets_empty (ck : string -> result unit) :
  check_brackets ck EmptyString = Ok tt.
Proof. reflexivity. Qed.

(** The invariant of [urlsplit]'s results. *)
Lemma urlsplit_wf (ck : string -> result unit) (u : string) (c : SplitResult) :
  urlsplit ck u = Ok c -> wf_split ck c.
Proof.
  unfold urlsplit, split_rest.
  change (fun c0 : ascii => negb (unsafe_byte c0)) with safe_byte.
  set (url0 := sfilter safe_byte (lstrip_by c0_or_space u)).
  pose proof (cleaned_head u) as Hhead. fold url0 in Hhead.
  pose proof (sall_sfilter safe_byte (lstrip_by c0_or_space u)) as Hsafe.
  fold url0 in Hsafe. clearbody url0.
  destruct (split_scheme url0) as [sch url1] eqn:Es.
  apply split_scheme_inv in Es.
  assert (Hsch : sch = EmptyString \/
                 (scheme_like sch = true /\ lower sch = sch)).
  { destruct Es as [(-> & _)|(pre & _ & -> & Hl)]; [left; reflexivity|right].
    split; [apply scheme_like_lower; exact Hl|apply lower_idem]. }
  assert (Hs1 : sall safe_byte sch = true /\ sall safe_byte url1 = true).
  { destruct Es as [(-> & -> & _)|(pre & -> & -> & _)]; [split; [reflexivity|exact Hsafe]|].
    apply sall_app_inv in Hsafe as [Hp Hr]. simpl in Hr. split; [|exact Hr].
    apply (sall_smap safe_byte lower_char _ safe_lower Hp). }
  destruct Hs1 as [Hssch Hs1].
  destruct (startswith "//" url1) eqn:Hsl.
  - unfold _splitnetloc.
    destruct (break netloc_delim (tail2 url1)) as [n url2] eqn:En.
    destruct (check_brackets ck n) as [[]|e] eqn:Hck; simpl; [|discriminate].
    destruct (split1 "#" url2) as [url3 f] eqn:Ef.
    destruct (split1 "?" url3) as [p q] eqn:Eq.
    intros [= <-].
    apply break_inv in En as (En & Hn & Hd).
    destruct (tail_split_inv _ _ _ _ _ Ef Eq) as (bq & bf & E2 & -> & -> & Hp & Hq).
    apply startswith_slashes in Hsl. rewrite Hsl in Hs1. simpl in Hs1.
    rewrite En in Hs1. apply sall_app_inv in Hs1 as [Hsn Hs2].
    rewrite E2 in Hs2. apply sall_app_inv in Hs2 as [Hsp Hs2].
    apply sall_app_inv in Hs2 as [Hsq Hsf].
    assert (Hph : match p with String x _ => netloc_delim x = true | EmptyString => True end).
    { rewrite E2 in Hd. destruct p; [exact I|exact Hd]. }
    constructor; simpl; try assumption.
    + apply sall_tail1. exact Hq.
    + repeat split; try assumption; apply sall_tail1; assumption.
    + intros _. destruct p as [|x p]; [exact I|]. apply delim_not_c0. exact Hph.
    + intros _ pre k rest Hb. destruct p as [|x p]; [discriminate|].
      cbn [break] in Hb.
      destruct (Ascii.eqb ":" x); [inversion Hb; subst; reflexivity|].
      destruct (break (Ascii.eqb ":") p) as [a b]. inversion Hb; subst.
      unfold scheme_like. rewrite (delim_not_alpha x Hph). reflexivity.
  - simpl.
    destruct (split1 "#" url1) as [url3 f] eqn:Ef.
    destruct (split1 "?" url3) as [p q] eqn:Eq.
    intros [= <-].
    destruct (tail_split_inv _ _ _ _ _ Ef Eq) as (bq & bf & E2 & -> & -> & Hp & Hq).
    rewrite E2 in Hs1. apply sall_app_inv in Hs1 as [Hsp Hs2].
    apply sall_app_inv in Hs2 as [Hsq Hsf].
    constructor; simpl; try assumption; try reflexivity.
    + apply sall_tail1. exact Hq.
    + repeat split; try assumption; apply sall_tail1; assumption.
    + intros ->. destruct Es as [(_ & -> & _)|(pre & _ & Hl & Hlk)].
      * rewrite E2 in Hhead. apply (head_app (fun x => c0_or_space x = false) _ _ Hhead).
      * apply scheme_like_inv in Hlk as (k & x & -> & _). discriminate.
    + intros -> pre k rest Hb. destruct Es as [(_ & -> & Hno)|(pre' & _ & Hl & Hlk)].
      * apply (Hno pre k (rest +:+ bq +:+ bf)). rewrite E2.
        apply break_app_found. exact Hb.
      * apply scheme_like_inv in Hlk as (k' & x & -> & _). discriminate.
Qed.

Lemma delim_path_char (c : ascii) :
  netloc_delim c = true -> path_char c = true -> c = "/"%char.
Proof. all_chars c. Qed.

(** Behind a host the path is empty or starts with a slash. *)
Lemma urlsplit_host_path (ck : string -> result unit) (u : string) (c : SplitResult) :
  urlsplit ck u = Ok c -> netloc c <> EmptyString ->
  path c = EmptyString \/ exists r, path c = String "/" r.
Proof.
  unfold urlsplit, split_rest.
  destruct (split_scheme _) as [sch url1].
  destruct (startswith "//" url1).
  - unfold _splitnetloc.
    destruct (break netloc_delim (tail2 url1)) as [n url2] eqn:En.
    destruct (check_brackets ck n) as [[]|e]; simpl; [|discriminate].
    destruct (split1 "#" url2) as [url3 f] eqn:Ef.
    destruct (split1 "?" url3) as [p q] eqn:Eq.
    intros [= <-] _. cbn [path].
    apply break_inv in En as (_ & _ & Hd).
    destruct (tail_split_inv _ _ _ _ _ Ef Eq) as (bq & bf & E2 & _ & _ & Hp & _).
    destruct p as [|x p]; [left; reflexivity|right].
    rewrite E2 in Hd. cbn [String.append] in Hd.
    cbn [sall] in Hp. apply andb_true_iff in Hp as [Hx _].
    exists p. rewrite (delim_path_char x Hd Hx). reflexivity.
  - simpl.
    destruct (split1 "#" url1) as [url3 f].
    destruct (split1 "?" url3) as [p q].
    intros [= <-] Hn. destruct (Hn eq_refl).
Qed.

(** Stripping the slashes off the end of such a path leaves it empty or
    starting with a slash. *)
Lemma rstrip_keeps_head (p : string) :
  p = EmptyString \/ (exists r, p = String "/" r) ->
  startswith "/" (rstrip_by (Ascii.eqb "/") p +:+ "/plus/1") = true.
Proof.
  intros Hp. destruct (rstrip_inv (Ascii.eqb "/") p) as (sl & E & _).
  destruct (rstrip_by (Ascii.eqb "/") p) as [|a A]; [reflexivity|].
  destruct Hp as [Hp|(r & Hp)]; rewrite Hp in E; [discriminate|].
  cbn [String.append] in E. injection E as <- _. reflexivity.
Qed.

(** *** Splitting a rebuilt URL again *)

Lemma path_char_no_hash (c : ascii) : path_char c = true -> negb (Ascii.eqb "#" c) = true.
Proof. all_chars c. Qed.

Lemma path_char_no_mark (c : ascii) : path_char c = true -> negb (Ascii.eqb "?" c) = true.
Proof. all_chars c. Qed.

Lemma url_tail_parts (q f : string) :
  url_tail q f = query_part q +:+ (if is_empty f then EmptyString else "#" +:+ f).
Proof. reflexivity. Qed.

Lemma tail_split (X q f : string) :
  sall path_char X = true -> sall query_char q = true ->
  split1 "#" (X +:+ url_tail q f) = (X +:+ query_part q, f) /\
  split1 "?" (X +:+ query_part q) = (X, q).
Proof.
  intros HX Hq.
  assert (Hxq : sall (fun c => negb (Ascii.eqb "#" c)) (X +:+ query_part q) = true).
  { rewrite sall_app, (sall_impl _ _ _ path_char_no_hash HX).
    unfold query_part. destruct (is_empty q); [reflexivity|exact Hq]. }
  split.
  - unfold split1. rewrite url_tail_parts, <- sapp_assoc.
    destruct f as [|x f]; cbn [is_empty].
    + rewrite sapp_nil_r, (break_total _ _ Hxq). reflexivity.
    + change ("#" +:+ String x f) with (String "#" (String x f)).
      rewrite (break_app (Ascii.eqb "#") _ (String "#" (String x f)) Hxq eq_refl).
      reflexivity.
  - unfold split1, query_part.
    pose proof (sall_impl _ _ _ path_char_no_mark HX) as HX'.
    destruct q as [|x q]; cbn [is_empty].
    + rewrite sapp_nil_r, (break_total _ _ HX'). reflexivity.
    + change ("?" +:+ String x q) with (String "?" (String x q)).
      rewrite (break_app (Ascii.eqb "?") _ (String "?" (String x q)) HX' eq_refl).
      reflexivity.
Qed.

Lemma split_rest_plain (ck : string -> result unit) (s X q f : string) :
  startswith "//" (X +:+ url_tail q f) = false ->
  sall path_char X = true -> sall query_char q = true ->
  split_rest ck s (X +:+ url_tail q f) = Ok (mkSplit s EmptyString X q f).
Proof.
  intros Hs HX Hq. unfold split_rest. rewrite Hs. cbn [bind].
  destruct (tail_split X q f HX Hq) as [-> ->]. reflexivity.
Qed.

Lemma split_rest_netloc (ck : string -> result unit) (s N X q f : string) :
  sall (fun c => negb (netloc_delim c)) N = true ->
  match X with String x _ => netloc_delim x = true | EmptyString => False end ->
  sall path_char X = true -> sall query_char q = true ->
  split_rest ck s ("//" +:+ N +:+ X +:+ url_tail q f)
  = match check_brackets ck N with
    | Ok _ => Ok (mkSplit s N X q f)
    | Raise e => Raise e
    end.
Proof.
  intros HN Hh HX Hq. unfold split_rest.
  change (startswith "//" ("//" +:+ N +:+ X +:+ url_tail q f)) with true. cbv iota.
  unfold _splitnetloc.
  change (tail2 ("//" +:+ N +:+ X +:+ url_tail q f)) with (N +:+ X +:+ url_tail q f).
  rewrite (break_app netloc_delim N (X +:+ url_tail q f) HN)
    by (destruct X as [|x X']; [destruct Hh|exact Hh]).
  destruct (check_brackets ck N) as [[]|e]; cbn [bind]; [|reflexivity].
  destruct (tail_split X q f HX Hq) as [-> ->]. reflexivity.
Qed.

Lemma split_scheme_intro (pre rest : string) :
  scheme_like pre = true ->
  split_scheme (pre +:+ String ":" rest) = (lower pre, rest).
Proof.
  intros H. unfold split_scheme.
  destruct (scheme_like_inv pre H) as (c & x & E & _ & Hs).
  rewrite (break_app (Ascii.eqb ":") pre (String ":" rest)
             (sall_impl _ _ _ (fun c Hc => f_equal negb (scheme_char_not_colon c Hc)) Hs)
             eq_refl).
  rewrite H. reflexivity.
Qed.

Lemma split_scheme_nonalpha (c : ascii) (x : string) :
  isalpha c = false -> split_scheme (String c x) = (EmptyString, String c x).
Proof.
  intros Hc. unfold split_scheme. cbn [break].
  destruct (Ascii.eqb ":" c); [reflexivity|].
  destruct (break (Ascii.eqb ":") x) as [a b].
  destruct b; [reflexivity|]. unfold scheme_like. rewrite Hc. reflexivity.
Qed.

Lemma scheme_like_slash (a t : string) : scheme_like (a +:+ String "/" t) = false.
Proof.
  unfold scheme_like. destruct (a +:+ String "/" t) as [|c r] eqn:E; [reflexivity|].
  rewrite <- E, sall_app. cbn [sall].
  change (scheme_char "/") with false. rewrite andb_false_r. apply andb_false_r.
Qed.

Lemma split_scheme_path (A t : string) :
  (forall pre k r, break (Ascii.eqb ":") A = (pre, String k r) -> scheme_like pre = false) ->
  split_scheme (A +:+ String "/" t) = (EmptyString, A +:+ String "/" t).
Proof.
  intros Hno. unfold split_scheme.
  destruct (break (Ascii.eqb ":") A) as [pre rest] eqn:E.
  destruct rest as [|k r].
  - apply break_inv in E as (EA & Hpre & _). rewrite sapp_nil_r in EA. subst pre.
    rewrite (break_app_none _ A (String "/" t) Hpre). cbn [break].
    change (Ascii.eqb ":" "/") with false. cbv iota.
    destruct (break (Ascii.eqb ":") t) as [a b]. cbn [fst snd].
    destruct b; [reflexivity|]. rewrite scheme_like_slash. reflexivity.
  - rewrite (break_app_found _ A (String "/" t) pre r k E).
    cbn [String.append]. rewrite (Hno pre k r eq_refl). reflexivity.
Qed.

Lemma urlunsplit_shape (c : SplitResult) :
  urlunsplit c
  = (if is_empty (scheme c) then EmptyString else scheme c +:+ ":") +:+
    unsplit_body c +:+ url_tail (query c) (fragment c).
Proof.
  unfold urlunsplit, url_tail, query_part.
  destruct (is_empty (scheme c)), (is_empty (query c)), (is_empty (fragment c));
    cbn [negb]; rewrite ?sapp_assoc, ?sapp_nil_r; reflexivity.
Qed.

Lemma sall_url_tail (P : ascii -> bool) (q f : string) :
  P "?"%char = true -> P "#"%char = true -> sall P q = true -> sall P f = true ->
  sall P (url_tail q f) = true.
Proof.
  intros H1 H2 Hq Hf. unfold url_tail, query_part. rewrite sall_app.
  destruct (is_empty q), (is_empty f); cbn [String.append sall];
    rewrite ?H1, ?H2, ?Hq, ?Hf; reflexivity.
Qed.

(** The body of a rebuilt URL whose path ends in "/plus/1". *)
Lemma unsplit_body_plus (s n A q f : string) :
  let c := mkSplit s n (A +:+ "/plus/1") q f in
  (exists Z X, unsplit_body c = "//" +:+ n +:+ Z +:+ "/plus/1" /\
             Z = (if startswith "/" (A +:+ "/plus/1") then A else String "/" A) /\
             Z +:+ "/plus/1" = String "/" X /\
             (n = EmptyString -> s <> EmptyString)) \/
  (unsplit_body c = A +:+ "/plus/1" /\ n = EmptyString).
Proof.
  intros c. unfold unsplit_body, c. cbn [netloc scheme path].
  set (np := A +:+ "/plus/1").
  assert (Hnp : is_empty np = false) by (unfold np; destruct A; reflexivity).
  rewrite Hnp. cbn [negb andb].
  assert (Hz : exists Z X, (if negb (startswith "/" np) then "/" +:+ np else np)
                         = Z +:+ "/plus/1" /\
                         Z = (if startswith "/" np then A else String "/" A) /\
                         Z +:+ "/plus/1" = String "/" X).
  { destruct (startswith "/" np) eqn:E; cbn [negb].
    - exists A. unfold np in *. destruct A as [|a A'].
      + eexists. split; [reflexivity|]. split; reflexivity.
      + cbn [String.append startswith] in E. apply andb_true_iff in E as [E _].
        apply Ascii.eqb_eq in E. subst a. eexists.
        split; [reflexivity|]. split; reflexivity.
    - exists (String "/" A), np. split; [reflexivity|]. split; reflexivity. }
  destruct Hz as (Z & X & -> & HZ & HX).
  destruct n as [|k n']; cbn [is_empty negb orb].
  - destruct (negb (is_empty s) && existsb (String.eqb s) uses_netloc &&
              negb (startswith "//" np)) eqn:E.
    + left. exists Z, X. split; [reflexivity|]. split; [exact HZ|]. split; [exact HX|].
      intros _ ->. discriminate.
    + right. split; reflexivity.
  - left. exists Z, X. split; [reflexivity|]. split; [exact HZ|]. split; [exact HX|].
    discriminate.
Qed.

Lemma rstrip_idem (f : ascii -> bool) (s : string) :
  rstrip_by f (rstrip_by f s) = rstrip_by f s.
Proof.
  induction s as [|c s IH]; [reflexivity|]. cbn [rstrip_by].
  destruct (is_empty (rstrip_by f s) && f c) eqn:E; [reflexivity|].
  cbn [rstrip_by]. rewrite IH, E. reflexivity.
Qed.

Lemma clean_id (u : string) :
  match u with String x _ => c0_or_space x = false | EmptyString => True end ->
  sall safe_byte u = true ->
  sfilter (fun c => negb (unsafe_byte c)) (lstrip_by c0_or_space u) = u.
Proof.
  intros Hh Hs. change (fun c => negb (unsafe_byte c)) with safe_byte.
  destruct u as [|x u]; [reflexivity|].
  rewrite (lstrip_id c0_or_space x u Hh). apply sfilter_id. exact Hs.
Qed.

(** Splitting a URL put together from a scheme and the rest. *)
Lemma urlsplit_of_parts (ck : string -> result unit) (s B : string) :
  (s = EmptyString \/ (scheme_like s = true /\ lower s = s)) ->
  sall safe_byte s = true -> sall safe_byte B = true ->
  (s = EmptyString ->
   match B with String x _ => c0_or_space x = false | EmptyString => True end) ->
  (s = EmptyString -> split_scheme B = (EmptyString, B)) ->
  urlsplit ck ((if is_empty s then EmptyString else s +:+ ":") +:+ B)
  = split_rest ck s B.
Proof.
  intros Hsch Hss HsB Hh Hsp. unfold urlsplit.
  destruct Hsch as [->|[Hl Hlow]].
  - cbn [is_empty String.append].
    rewrite (clean_id B (Hh eq_refl) HsB), (Hsp eq_refl). reflexivity.
  - destruct (scheme_like_inv s Hl) as (c & x & E & Hc & _).
    assert (Hne : is_empty s = false) by (rewrite E; reflexivity).
    rewrite Hne, sapp_assoc. rewrite clean_id.
    + change (":" +:+ B) with (String ":" B).
      rewrite (split_scheme_intro s B Hl), Hlow. reflexivity.
    + rewrite E. cbn [String.append]. apply alpha_not_c0. exact Hc.
    + rewrite !sall_app, Hss, HsB. reflexivity.
Qed.

Lemma safe_plus : sall safe_byte "/plus/1" = true.
Proof. reflexivity. Qed.

Lemma path_plus : sall path_char "/plus/1" = true.
Proof. reflexivity. Qed.

(** The rebuilt URL splits into the same scheme, query and fragment and a
    path that ends in "/plus/1", unless its netloc is refused; the netloc
    can only be refused when the original had none and a path starting
    with two slashes. *)
Lemma rebuilt_splits (ck : string -> result unit) (s n p q f : string) :
  wf_split ck (mkSplit s n p q f) ->
  let u' := urlunsplit (mkSplit s n (rstrip_by (Ascii.eqb "/") p +:+ "/plus/1") q f) in
  (exists n' Z, urlsplit ck u' = Ok (mkSplit s n' (Z +:+ "/plus/1") q f) /\
                (n <> EmptyString ->
                 n' = n /\
                 Z = (if startswith "/" (rstrip_by (Ascii.eqb "/") p +:+ "/plus/1")
                      then rstrip_by (Ascii.eqb "/") p
                      else String "/" (rstrip_by (Ascii.eqb "/") p)))) \/
  (n = EmptyString /\ startswith "//" p = true /\ exists e, urlsplit ck u' = Raise e).
Proof.
  intros [Hsch Hn Hck Hp Hq (Hss & Hsn & Hsp & Hsq & Hsf) Hhead Hno].
  cbn [scheme netloc path query fragment] in *.
  pose proof (rstrip_idem (Ascii.eqb "/") p) as Hidem.
  destruct (rstrip_inv (Ascii.eqb "/") p) as (sl & Ep & Hsl).
  set (A := rstrip_by (Ascii.eqb "/") p) in *. clearbody A. subst p.
  apply sall_app_inv in Hp as [HAp _]. apply sall_app_inv in Hsp as [HAs _].
  assert (HAhead : s = EmptyString ->
            match A with String x _ => c0_or_space x = false | EmptyString => True end).
  { intros E. apply (head_app (fun x => c0_or_space x = false) A sl (Hhead E)). }
  assert (HAno : s = EmptyString -> forall pre k r,
            break (Ascii.eqb ":") A = (pre, String k r) -> scheme_like pre = false).
  { intros E pre k r Hb. apply (Hno E pre k (r +:+ sl)).
    apply break_app_found. exact Hb. }
  assert (HsT : sall safe_byte (url_tail q f) = true)
    by (apply sall_url_tail; try assumption; reflexivity).
  cbv zeta. rewrite urlunsplit_shape.
  cbn [scheme query fragment].
  destruct (unsplit_body_plus s n A q f) as [(Z & X & -> & HZ & HX & Hns)|[-> ->]].
  - (* the netloc is written out *)
    left. exists n, Z. split; [|intros _; split; [reflexivity|exact HZ]].
    assert (HZ' : Z = A \/ Z = String "/" A)
      by (rewrite HZ; destruct (startswith "/" (A +:+ "/plus/1")); auto).
    assert (HZp : sall path_char (Z +:+ "/plus/1") = true).
    { rewrite sall_app, path_plus, andb_true_r.
      destruct HZ' as [->| ->]; [exact HAp|]. cbn [sall]. rewrite HAp. reflexivity. }
    assert (HZs : sall safe_byte (Z +:+ "/plus/1") = true).
    { rewrite sall_app, safe_plus, andb_true_r.
      destruct HZ' as [->| ->]; [exact HAs|]. cbn [sall]. rewrite HAs. reflexivity. }
    replace (("//" +:+ n +:+ Z +:+ "/plus/1") +:+ url_tail q f)
      with ("//" +:+ n +:+ (Z +:+ "/plus/1") +:+ url_tail q f)
      by (cbn [String.append]; rewrite !sapp_assoc; reflexivity).
    rewrite urlsplit_of_parts; try assumption.
    + rewrite split_rest_netloc; try assumption.
      * rewrite Hck. reflexivity.
      * rewrite HX. reflexivity.
    + cbn [String.append sall]. change (safe_byte "/") with true. cbn [andb].
      rewrite sall_app, Hsn, sall_app, HZs, HsT. reflexivity.
    + intros _. reflexivity.
    + intros _. apply split_scheme_nonalpha. reflexivity.
  - (* the path alone follows the scheme *)
    assert (HB : sall safe_byte ((A +:+ "/plus/1") +:+ url_tail q f) = true)
      by (rewrite !sall_app, HAs, safe_plus, HsT; reflexivity).
    assert (Hnp : sall path_char (A +:+ "/plus/1") = true)
      by (rewrite sall_app, HAp, path_plus; reflexivity).
    rewrite urlsplit_of_parts; try assumption.
    2:{ intros E. specialize (HAhead E). destruct A; [reflexivity|exact HAhead]. }
    2:{ intros E. rewrite sapp_assoc.
        change ("/plus/1" +:+ url_tail q f) with (String "/" ("plus/1" +:+ url_tail q f)).
        apply split_scheme_path. apply HAno. exact E. }
    destruct A as [|a [|b A2]].
    + left. exists EmptyString, EmptyString. split; [|intros Hne; destruct (Hne eq_refl)].
      apply (split_rest_plain ck s "/plus/1" q f); [reflexivity|reflexivity|exact Hq].
    + left. exists EmptyString, (String a EmptyString).
      split; [|intros Hne; destruct (Hne eq_refl)].
      apply (split_rest_plain ck s (String a "/plus/1") q f); [|exact Hnp|exact Hq].
      cbn [rstrip_by is_empty andb] in Hidem.
      destruct (Ascii.eqb "/" a) eqn:Ea; [discriminate|].
      cbn [String.append startswith]. rewrite Ea. reflexivity.
    + destruct (Ascii.eqb "/" a && Ascii.eqb "/" b) eqn:Eab.
      * apply andb_true_iff in Eab as [Ea Eb].
        apply Ascii.eqb_eq in Ea, Eb. subst a b.
        destruct (break netloc_delim A2) as [N Zr] eqn:EN.
        apply break_inv in EN as (-> & HN & HZr).
        cbn [sall] in HAp. rewrite sall_app in HAp.
        change (path_char "/") with true in HAp. cbn [andb] in HAp.
        apply andb_true_iff in HAp as [_ HZrp].
        replace ((String "/" (String "/" (N +:+ Zr)) +:+ "/plus/1") +:+ url_tail q f)
          with ("//" +:+ N +:+ (Zr +:+ "/plus/1") +:+ url_tail q f)
          by (cbn [String.append]; rewrite !sapp_assoc; reflexivity).
        rewrite split_rest_netloc; try assumption.
        -- destruct (check_brackets ck N) as [[]|e].
           ++ left. exists N, Zr. split; [reflexivity|intros Hne; destruct (Hne eq_refl)].
           ++ right. repeat split. exists e. reflexivity.
        -- destruct Zr; [reflexivity|exact HZr].
        -- rewrite sall_app, HZrp, path_plus. reflexivity.
      * left. exists EmptyString, (String a (String b A2)).
        split; [|intros Hne; destruct (Hne eq_refl)].
        apply (split_rest_plain ck s _ q f); [|exact Hnp|exact Hq].
        cbn [String.append startswith]. rewrite andb_true_r. exact Eab.
Qed.



End UrlFacts.



(** ** Further checks from the specification's list of properties *)

(** The acceptance rule on the sample row with two cells after the
    "links" cell. *)
Lemma acceptance_rule_within_row_witness :
  exists r,
    _parse_row PyStr.strip Sample.no_id Sample.row_two_siblings Sample.cm_player_injury
    = Ok (Some r) /\
    py_field "injury" r = Some (py_opt (Some "Knee injury")).
Proof.
  destruct (acceptance_rule_within_row PyStr.strip Sample.no_id
              Sample.row_two_siblings Sample.cm_player_injury) as [_ H].
  - intros key idx Hk. unfold Sample.cm_player_injury in Hk.
    apply lookup_insert_Some in Hk as [[_ <-]|[_ Hk]]; [lia|].
    apply lookup_insert_Some in Hk as [[_ <-]|[_ Hk]]; [lia|].
    rewrite lookup_empty in Hk. discriminate.
  - intros idx Hk. vm_compute in Hk. discriminate.
  - destruct H as (pn & pu & inj & Hp & Hi & Hacc & _); [discriminate|].
    vm_compute in Hp. injection Hp as <- <-.
    vm_compute in Hi. injection Hi as <-.
    apply Hacc. split; reflexivity.
Defined.

(** A table marked "responsive" only is found at the first level. *)
Lemma responsive_table_is_located :
  xpath_marked_tables Sample.responsive_page = [Sample.responsive_table] /\
  _get_injuries_table Sample.responsive_page = Ok Sample.responsive_table.
Proof. split; reflexivity. Qed.

(** An unreadable since cell and an unmapped until column leave both
    dates empty; the row is kept. *)
Lemma row_with_unreadable_since_is_kept :
  exists r,
    _parse_row PyStr.strip Sample.no_id Sample.row_bad_since Sample.cm_with_since
    = Ok (Some r) /\
    py_field "since" r = Some PyNone /\ py_field "until" r = Some PyNone.
Proof. eexists. repeat split. Qed.

(** Without a player name and without a profile anchor the row is dropped,
    whatever its injury cell. *)
Lemma row_without_player_is_dropped :
  cell_text PyStr.strip Sample.cm_player_injury
    (Html.xpath_child "td" Sample.row_without_player) "injury" = Ok (Some "Knee injury") /\
  _parse_row PyStr.strip Sample.no_id Sample.row_without_player Sample.cm_player_injury
  = Ok None.
Proof. split; reflexivity. Qed.

(** "Spieler" and "Player" name the same field. *)
Lemma player_aliases_resolve :
  canon (_norm_text (Some "Spieler")) = Some "player" /\
  canon (_norm_text (Some " Player ")) = Some "player".
Proof. split; reflexivity. Qed.

(** * Further properties of the scraper *)

(** ** Header normalisation *)

Module HeaderFacts.
Import PyStr.

Ltac each_char c :=
  destruct c as [[] [] [] [] [] [] [] []]; vm_compute; try reflexivity; try discriminate.

Lemma lower_char_not_upper (c : ascii) : isupper (lower_char c) = false.
Proof. each_char c. Qed.

Lemma sall_sfilter_keeps (p q : ascii -> bool) (s : string) :
  sall p s = true -> sall p (sfilter q s) = true.
Proof.
  induction s as [|c s IH]; simpl; [reflexivity|].
  intros H. apply andb_true_iff in H as [Hc Hs].
  destruct (q c); simpl; [rewrite Hc|]; auto.
Qed.

Lemma sall_collapse (p : ascii -> bool) (prev : bool) (s : string) :
  p " "%char = true -> sall p s = true -> sall p (collapse_spaces prev s) = true.
Proof.
  intros Hsp. revert prev. induction s as [|c s IH]; intros prev; simpl; [reflexivity|].
  intros H. apply andb_true_iff in H as [Hc Hs].
  destruct (isspace c); [destruct prev|]; simpl; rewrite ?Hsp, ?Hc; simpl; auto.
Qed.

Lemma sall_lower_not_upper (s : string) :
  sall (fun c => negb (isupper c)) (lower s) = true.
Proof.
  induction s as [|c s IH]; simpl; [reflexivity|].
  rewrite lower_char_not_upper. simpl. exact IH.
Qed.

Lemma norm_char_intro (c : ascii) :
  (isword c || Ascii.eqb c " ") = true -> negb (isupper c) = true -> norm_char c = true.
Proof. each_char c. Qed.

Lemma sall_both (p q r : ascii -> bool) (s : string) :
  (forall c, p c = true -> q c = true -> r c = true) ->
  sall p s = true -> sall q s = true -> sall r s = true.
Proof.
  intros H. induction s as [|c s IH]; simpl; [reflexivity|].
  intros Hp Hq. apply andb_true_iff in Hp as [? ?]. apply andb_true_iff in Hq as [? ?].
  rewrite H, IH; auto.
Qed.

Lemma norm_text_chars (s : option string) : sall norm_char (_norm_text s) = true.
Proof.
  destruct s as [s|]; [|reflexivity]. unfold _norm_text.
  destruct (is_empty s); [reflexivity|]. cbv zeta.
  apply (sall_both (fun c => isword c || Ascii.eqb c " ") (fun c => negb (isupper c))).
  - exact norm_char_intro.
  - apply UrlFacts.sall_sfilter.
  - apply sall_sfilter_keeps. apply sall_collapse; [reflexivity|].
    apply sall_lower_not_upper.
Qed.

(** Header normalisation yields lower-case letters, digits, underscores
    and spaces only; so the alias written with a full stop is matched by
    no header, and the field [position] is reached by the header text
    "position" alone. *)
Theorem normalised_header_alphabet (s : option string) :
  sall norm_char (_norm_text s) = true /\
  _norm_text s <> "pos." /\
  (canon (_norm_text s) = Some "position" <-> _norm_text s = "position").
Proof.
  pose proof (norm_text_chars s) as H.
  assert (N : _norm_text s <> "pos.").
  { intros E. rewrite E in H. vm_compute in H. discriminate. }
  split; [exact H|]. split; [exact N|]. split.
  - intros C. apply canon_matches in C as (alts & Hin & Hh).
    unfold variants in Hin. simpl in Hin.
    repeat (destruct Hin as [Hin|Hin]; [inversion Hin; subst; clear Hin|]); try discriminate.
    + simpl in Hh. destruct Hh as [E|[E|[]]]; [symmetry; exact E|].
      exfalso. apply N. symmetry. exact E.
    + destruct Hin.
  - intros E. rewrite E. vm_compute. reflexivity.
Qed.

End HeaderFacts.

(** ** Column map: where a position comes from *)

Lemma fill_lookup_inv (headers : list string) :
  forall (idx : Z) (m : gmap string Z) (key : string) (v : Z),
  fill_column_map idx headers m !! key = Some v ->
  m !! key = Some v \/
  exists (n : nat) (h : string),
    nth_error headers n = Some h /\ canon h = Some key /\ v = idx + Z.of_nat n.
Proof.
  induction headers as [|raw rest IH]; intros idx m key v; simpl; [auto|].
  intros H. apply IH in H as [H|(n & h & Hn & Hc & ->)].
  - destruct (canon raw) as [k|] eqn:Ek; [|auto].
    apply lookup_insert_Some in H as [[-> <-]|[_ H]]; [|auto].
    right. exists 0%nat, raw. repeat split; [exact Ek|lia].
  - right. exists (S n), h. repeat split; [exact Hn|exact Hc|lia].
Qed.

Lemma built_position_inv (table : node) (key : string) (idx : Z) :
  _build_column_map table !! key = Some idx ->
  exists h, nth_error (header_texts table) (Z.to_nat (idx - 1)) = Some h /\
            canon h = Some key /\
            1 <= idx <= Z.of_nat (length (Html.xpath_thead_th table)).
Proof.
  unfold _build_column_map. intros H.
  apply fill_lookup_inv in H as [H|(n & h & Hn & Hc & ->)].
  - rewrite lookup_empty in H. discriminate.
  - exists h. replace (Z.to_nat (1 + Z.of_nat n - 1)) with n by lia.
    split; [exact Hn|]. split; [exact Hc|].
    assert (L : (n < length (header_texts table))%nat)
      by (apply nth_error_Some; rewrite Hn; discriminate).
    unfold header_texts in L. rewrite length_map in L. lia.
Qed.

(** Every entry of the column map points at a header cell of the table,
    counted from one, whose normalised text is an alias of the entry's
    field; the map has no other entries, and none at all when the table
    has no header cell. *)
Theorem column_map_entries_point_at_headers (table : node) (key : string) (idx : Z) :
  _build_column_map table !! key = Some idx ->
  1 <= idx <= Z.of_nat (length (Html.xpath_thead_th table)) /\
  exists h, nth_error (header_texts table) (Z.to_nat (idx - 1)) = Some h /\
            matches_field key h.
Proof.
  intros H. apply built_position_inv in H as (h & Hn & Hc & Hr).
  split; [exact Hr|]. exists h. split; [exact Hn|]. apply canon_matches. exact Hc.
Qed.

Lemma column_map_entries_point_at_headers_witness :
  1 <= 2 <= Z.of_nat (length (Html.xpath_thead_th Sample.bilingual_table)) /\
  exists h, nth_error (header_texts Sample.bilingual_table) (Z.to_nat (2 - 1)) = Some h /\
            matches_field "injury" h.
Proof.
  apply (column_map_entries_point_at_headers Sample.bilingual_table "injury" 2).
  vm_compute. reflexivity.
Defined.

(** ** The row parser on the column map of a table *)

Section BuiltMapProperties.

Variable trim : string -> string.
Variable extract_from_url : option string -> option string.

Lemma player_lookups_return (tr : node) (col_map : gmap string Z) (tds : list node) :
  (forall idx, col_map !! "player" = Some idx -> 0 <= idx) ->
  exists pn pu, parse_player trim tr col_map tds = Ok (pn, pu).
Proof.
  intros H.
  destruct (lookups_return trim col_map tds "player" H) as [[pt Hpt] [pl Hpl]].
  unfold parse_player. rewrite Hpt, Hpl. simpl.
  destruct (negb (PyStr.truthy pt) || negb (PyStr.truthy pl));
    [destruct (Row.xpath_profile_href tr)|]; eexists _, _; reflexivity.
Qed.

Lemma parse_row_returns_within_row (tr : node) (col_map : gmap string Z) :
  (forall key idx, col_map !! key = Some idx -> 0 <= idx) ->
  (forall idx, col_map !! "club" = Some idx ->
               1 <= idx <= Z.of_nat (length (Html.xpath_child "td" tr))) ->
  exists r, _parse_row trim extract_from_url tr col_map = Ok r.
Proof.
  intros Hnn Hclub.
  destruct (Html.xpath_child "td" tr) as [|t ts] eqn:E.
  { exists None. apply parse_row_without_cells. exact E. }
  assert (Hne : Html.xpath_child "td" tr <> []) by (rewrite E; discriminate).
  rewrite <- E in Hclub.
  destruct (player_lookups_return tr col_map (Html.xpath_child "td" tr) (Hnn "player"))
    as (pn & pu & Hp).
  destruct (lookups_return trim col_map (Html.xpath_child "td" tr) "injury" (Hnn "injury"))
    as [[inj Hinj] _].
  destruct (lookups_return trim col_map (Html.xpath_child "td" tr) "since" (Hnn "since"))
    as [[st Hst] _].
  destruct (lookups_return trim col_map (Html.xpath_child "td" tr) "until" (Hnn "until"))
    as [[ut Hut] _].
  destruct (club_in_row_returns trim col_map (Html.xpath_child "td" tr) Hclub) as [[cn cu] Hc].
  rewrite (parse_row_after_lookups trim extract_from_url tr col_map
             pn pu cn cu inj st ut Hne Hp Hc Hinj Hst Hut).
  cbv zeta. destruct (PyStr.truthy pn && PyStr.truthy inj); eexists; reflexivity.
Qed.

Lemma parse_row_raises_beyond_row (tr : node) (col_map : gmap string Z) (idx : Z) :
  Html.xpath_child "td" tr <> [] ->
  (forall i, col_map !! "player" = Some i -> 0 <= i) ->
  col_map !! "club" = Some idx ->
  Z.of_nat (length (Html.xpath_child "td" tr)) < idx ->
  _parse_row trim extract_from_url tr col_map = Raise (IndexError "list index out of range").
Proof.
  intros Hne Hp Hc Hlt. unfold _parse_row.
  destruct (player_lookups_return tr col_map (Html.xpath_child "td" tr) Hp)
    as (pn & pu & Hpp).
  destruct (Html.xpath_child "td" tr) as [|t ts] eqn:E; [congruence|].
  rewrite Hpp. simpl bind.
  rewrite (club_beyond_row_raises trim col_map (t :: ts) idx Hc Hlt). reflexivity.
Qed.

Lemma parse_row_on_built_map_cases (table tr : node) :
  let col_map := _build_column_map table in
  let tds := Html.xpath_child "td" tr in
  ((tds <> [] /\ exists idx, col_map !! "club" = Some idx /\ Z.of_nat (length tds) < idx) /\
   _parse_row trim extract_from_url tr col_map = Raise (IndexError "list index out of range"))
  \/
  ((tds = [] \/ forall idx, col_map !! "club" = Some idx -> idx <= Z.of_nat (length tds)) /\
   exists r, _parse_row trim extract_from_url tr col_map = Ok r).
Proof.
  intros col_map tds.
  assert (Hpos : forall key idx, col_map !! key = Some idx -> 1 <= idx).
  { intros key idx H. apply built_position_inv in H as (h & _ & _ & Hr). lia. }
  assert (Hnn : forall key idx, col_map !! key = Some idx -> 0 <= idx).
  { intros key idx H. apply Hpos in H. lia. }
  destruct tds as [|t ts] eqn:E.
  { right. split; [left; reflexivity|]. exists None.
    apply parse_row_without_cells. exact E. }
  destruct (col_map !! "club") as [idx|] eqn:Hc.
  - destruct (Z_lt_le_dec (Z.of_nat (length tds)) idx) as [Hlt|Hle].
    + left. subst tds. rewrite E in Hlt. split.
      * split; [discriminate|]. exists idx. split; [reflexivity|exact Hlt].
      * apply (parse_row_raises_beyond_row tr col_map idx).
        -- rewrite E. discriminate.
        -- apply Hnn.
        -- exact Hc.
        -- rewrite E. exact Hlt.
    + right. subst tds. rewrite E in Hle. split.
      * right. intros i Hi. injection Hi as <-. exact Hle.
      * apply parse_row_returns_within_row; [exact Hnn|].
        intros i Hi. rewrite Hc in Hi. injection Hi as <-.
        rewrite E. split; [apply (Hpos "club"); exact Hc|exact Hle].
  - right. split; [right; intros i Hi; discriminate|].
    apply parse_row_returns_within_row; [exact Hnn|].
    intros i Hi. rewrite Hc in Hi. discriminate.
Qed.

(** With the column map of any table, the row parser has one way to
    fail: it raises [IndexError] exactly on a row with data cells that
    has fewer of them than the position of the club column, and returns
    on every other row. *)
Theorem parse_row_on_built_map (table tr : node) :
  let col_map := _build_column_map table in
  let tds := Html.xpath_child "td" tr in
  (_parse_row trim extract_from_url tr col_map = Raise (IndexError "list index out of range") <->
   tds <> [] /\ exists idx, col_map !! "club" = Some idx /\ Z.of_nat (length tds) < idx) /\
  ((exists r, _parse_row trim extract_from_url tr col_map = Ok r) <->
   tds = [] \/ forall idx, col_map !! "club" = Some idx -> idx <= Z.of_nat (length tds)) /\
  (forall e, _parse_row trim extract_from_url tr col_map = Raise e ->
             e = IndexError "list index out of range").
Proof.
  intros col_map tds.
  subst col_map tds.
  destruct (parse_row_on_built_map_cases table tr) as [[[Hne (idx & Hc & Hlt)] Hx]|[Hc [r Hx]]];
    cbv zeta in *.
  - split; [split; [intros _; split; [exact Hne|exists idx; split; assumption]|intros _; exact Hx]|].
    split; [|intros e He; congruence].
    split; [intros [r Hr]; congruence|].
    intros [Ht|Hall]; [contradiction|]. apply Hall in Hc. lia.
  - split; [split; [intros Hr; congruence|]|].
    + intros [Hne (idx & Hi & Hlt)]. destruct Hc as [Ht|Hall]; [contradiction|].
      apply Hall in Hi. lia.
    + split; [split; [intros _; exact Hc|intros _; exists r; exact Hx]|].
      intros e He. congruence.
Qed.

End BuiltMapProperties.

(** ** The orchestrator: rows, failures and what is left untouched *)

Section ExtractionProperties.

Variable trim : string -> string.
Variable extract_from_url : option string -> option string.
Variable utc_now_isoformat : string.

Lemma parse_rows_ok (col_map : gmap string Z) (rows : list node) :
  forall acc items,
  parse_rows trim extract_from_url rows col_map acc = Ok items <->
  exists results,
    Forall2 (fun tr r => _parse_row trim extract_from_url tr col_map = Ok r) rows results /\
    items = acc ++ omap id results.
Proof.
  induction rows as [|tr rest IH]; intros acc items; simpl.
  - split.
    + intros H. injection H as <-. exists []. split; [constructor|].
      simpl. rewrite app_nil_r. reflexivity.
    + intros (results & HF & ->). inversion HF; subst. simpl. rewrite app_nil_r. reflexivity.
  - destruct (_parse_row trim extract_from_url tr col_map) as [p|e] eqn:E; simpl.
    + rewrite IH. split.
      * intros (results & HF & ->). exists (p :: results). split; [constructor; auto|].
        destruct p as [r|]; simpl; [rewrite <- app_assoc|]; reflexivity.
      * intros (results & HF & ->). inversion HF as [|? r0 ? rs0 Hr HF']; subst.
        assert (r0 = p) by congruence. subst r0.
        exists rs0. split; [exact HF'|].
        destruct p as [r|]; simpl; [rewrite <- app_assoc|]; reflexivity.
    + split; [discriminate|].
      intros (results & HF & _). inversion HF; subst. congruence.
Qed.


(** The rows of a successful extraction are the records of the accepted
    body rows of the located table, one for each and in document order:
    every body row was parsed with the table's column map, and the rows
    that gave [None] are left out. *)
Theorem extraction_rows_in_document_order (self self' : scraper) :
  get_injuries trim extract_from_url utc_now_isoformat self = Ok self' ->
  exists doc table results,
    page self = Some doc /\
    _get_injuries_table doc = Ok table /\
    Forall2 (fun tr r => _parse_row trim extract_from_url tr (_build_column_map table) = Ok r)
            (xpath_body_rows table) results /\
    dict_get "rows" (response self') = Some (PyList (omap id results)).
Proof.
  unfold get_injuries. intros H.
  destruct (page self) as [doc|] eqn:Hp; [|discriminate].
  destruct (_get_injuries_table doc) as [table|e] eqn:Ht; simpl in H; [|discriminate].
  destruct (parse_rows _ _ _ _ _) as [items|e] eqn:E; simpl in H; [|discriminate].
  apply parse_rows_ok in E as (results & HF & ->).
  inversion H; subst self'; clear H.
  exists doc, table, results.
  split; [reflexivity|]. split; [exact Ht|]. split; [exact HF|].
  unfold dict_update. simpl. apply dict_get_set_eq.
Qed.


(** A successful extraction writes the three keys [league], [updatedAt]
    and [rows] and nothing else: every other key of the response keeps
    its value, and the URL, the page and the record of fetches of the
    scraper stay as they were.  The league's URL is the page's canonical
    URL when it declares a non-empty one, and the scraper's own URL
    otherwise. *)
Theorem extraction_frame (self self' : scraper) :
  get_injuries trim extract_from_url utc_now_isoformat self = Ok self' ->
  URL self' = URL self /\ page self' = page self /\ fetched self' = fetched self /\
  (forall k, k <> "league" -> k <> "updatedAt" -> k <> "rows" ->
             dict_get k (response self') = dict_get k (response self)) /\
  exists doc, page self = Some doc /\
    dict_get "league" (response self')
    = Some (PyDict
        [("name", py_opt (_guess_league_name trim doc));
         ("url", PyStr_ match _canonical_url trim doc with
                        | Some u => if PyStr.is_empty u then URL self else u
                        | None => URL self
                        end)]).
Proof.
  unfold get_injuries. intros H.
  destruct (page self) as [doc|] eqn:Hp; [|discriminate].
  destruct (_get_injuries_table doc) as [table|e]; simpl in H; [|discriminate].
  destruct (parse_rows _ _ _ _ _) as [items|e]; simpl in H; [|discriminate].
  inversion H; subst self'; clear H. simpl.
  split; [reflexivity|]. split; [reflexivity|]. split; [reflexivity|]. split.
  - intros k H1 H2 H3.
    rewrite !dict_get_set_ne by (apply not_eq_sym; assumption). reflexivity.
  - exists doc. split; [reflexivity|].
    rewrite !dict_get_set_ne by discriminate.
    rewrite dict_get_set_eq.
    destruct (_canonical_url trim doc) as [u|]; [destruct u|]; reflexivity.
Qed.

End ExtractionProperties.

(** ** Dates from the mapped columns *)

Section MappedDateProperties.

Variable trim : string -> string.
Variable extract_from_url : option string -> option string.

Lemma sibling_dates_keep (tr : node) (since until : option string) :
  (forall d, since = Some d -> fst (sibling_dates trim tr since until) = Some d) /\
  (forall d, until = Some d -> snd (sibling_dates trim tr since until) = Some d).
Proof.
  unfold sibling_dates.
  split; intros d ->;
    destruct (_ || _); try reflexivity;
    destruct (Row.first_links_td tr) as [[injury_td following]|]; try reflexivity;
    destruct (Row.next (Row.itersiblings_td following)) as [[s sibs]|]; try reflexivity;
    destruct (Row.next sibs) as [[u rest]|]; reflexivity.
Qed.

(** A date that its mapped column gives is final: when the text of the
    since column, or of the until column, is normalised to a date, the
    record carries that date under the same key, whatever the cells
    after the "links" cell hold. *)
Theorem mapped_dates_are_not_overridden (tr : node) (col_map : gmap string Z) (r : pyval)
  (key : string) (text : option string) (d : string) :
  key = "since" \/ key = "until" ->
  _parse_row trim extract_from_url tr col_map = Ok (Some r) ->
  cell_text trim col_map (Html.xpath_child "td" tr) key = Ok text ->
  Dates._normalize_date text = Some d ->
  py_field key r = Some (PyStr_ d).
Proof.
  intros Hkey H Ht Hd. unfold _parse_row in H.
  destruct (Html.xpath_child "td" tr) as [|t ts] eqn:E; [discriminate|].
  destruct (parse_player _ _ _ _) as [[pn pu]|e]; simpl in H; [|discriminate].
  destruct (parse_club _ _ _) as [[cn cu]|e]; simpl in H; [|discriminate].
  destruct (cell_text trim col_map (t :: ts) "injury") as [inj|e]; simpl in H; [|discriminate].
  destruct (cell_text trim col_map (t :: ts) "since") as [st|e] eqn:Es; simpl in H;
    [|discriminate].
  destruct (cell_text trim col_map (t :: ts) "until") as [ut|e] eqn:Eu; simpl in H;
    [|discriminate].
  pose proof (sibling_dates_keep tr (Dates._normalize_date st) (Dates._normalize_date ut))
    as [Ks Ku].
  destruct (sibling_dates _ _ _ _) as [since until].
  destruct (negb _); [discriminate|]. injection H as <-.
  destruct Hkey as [-> | ->].
  - rewrite Es in Ht. injection Ht as <-.
    change (Some (py_opt since) = Some (PyStr_ d)).
    pose proof (Ks d Hd) as K. cbn [fst] in K. rewrite K. reflexivity.
  - rewrite Eu in Ht. injection Ht as <-.
    change (Some (py_opt until) = Some (PyStr_ d)).
    pose proof (Ku d Hd) as K. cbn [snd] in K. rewrite K. reflexivity.
Qed.

End MappedDateProperties.

(** ** Construction: which pages are fetched *)

Section ConstructionProperties.

Variable _check_bracketed_netloc : string -> result unit.
Variable request_url_page : string -> result node.
Variable raise_exception_if_not_found : scraper -> string -> result unit.

Abbreviation post_init :=
  (__post_init__ _check_bracketed_netloc request_url_page raise_exception_if_not_found).
Abbreviation ensure := (_ensure_plus_variant _check_bracketed_netloc).

(** A successful construction has fetched one page or two, the richer
    variant first: either the object keeps the richer URL and that alone
    was fetched, or the richer URL differs from the given one, both were
    fetched in this order, and the object keeps the given URL.  The
    response is not touched. *)
Theorem construction_fetches_richer_first (self self' : scraper) :
  post_init self = Ok self' ->
  exists primary,
    ensure (URL self) = Ok primary /\
    response self' = response self /\
    ((URL self' = primary /\ fetched self' = fetched self ++ [primary]) \/
     (primary <> URL self /\ URL self' = URL self /\
      fetched self' = fetched self ++ [primary; URL self])).
Proof.
  unfold __post_init__. intros H.
  destruct (ensure (URL self)) as [primary|e]; simpl in H; [|discriminate].
  exists primary. split; [reflexivity|].
  destruct (String.eqb primary (URL self)) eqn:Eq; simpl in H.
  - destruct (request_url_page primary) as [d1|e1]; simpl in H; [|discriminate].
    assert (S : self' = visit self primary d1).
    { destruct (xpath_guard_tables d1); simpl in H.
      - destruct (raise_exception_if_not_found _ _); simpl in H; congruence.
      - congruence. }
    subst self'. split; [reflexivity|]. left. split; reflexivity.
  - apply String.eqb_neq in Eq.
    destruct (request_url_page primary) as [d1|e1]; simpl in H; [|discriminate].
    destruct (xpath_guard_tables d1); simpl in H.
    + destruct (request_url_page (URL self)) as [d2|e2]; simpl in H; [|discriminate].
      assert (S : self' = visit (visit self primary d1) (URL self) d2).
      { destruct (xpath_guard_tables d2); simpl in H.
        - destruct (raise_exception_if_not_found _ _); simpl in H; congruence.
        - congruence. }
      subst self'. split; [reflexivity|]. right. split; [exact Eq|].
      split; [reflexivity|]. simpl. rewrite <- app_assoc. reflexivity.
    + injection H as <-. split; [reflexivity|]. left. split; reflexivity.
Qed.


End ConstructionProperties.

Module UrlComponents.
Import PyStr Url UrlFacts.

(** For a URL with a host, the derived URL splits again into the same
    scheme, host, query and fragment.  When the path already names a
    "plus" page (it contains "/plus/" or ends in "/plus/1") the derived
    URL is the given one and the path is kept; otherwise the path of the
    derived URL is the old path without its trailing slashes, followed by
    "/plus/1". *)
Theorem plus_variant_keeps_components (ck : string -> result unit) (u u' : string)
  (parts : SplitResult) :
  urlsplit ck u = Ok parts ->
  netloc parts <> EmptyString ->
  _ensure_plus_variant ck u = Ok u' ->
  exists parts',
    urlsplit ck u' = Ok parts' /\
    scheme parts' = scheme parts /\ netloc parts' = netloc parts /\
    query parts' = query parts /\ fragment parts' = fragment parts /\
    path parts' =
      (if contains "/plus/" (path parts) || endswith "/plus/1" (path parts)
       then path parts
       else rstrip_by (Ascii.eqb "/") (path parts) +:+ "/plus/1") /\
    (contains "/plus/" (path parts) || endswith "/plus/1" (path parts) = true ->
     u' = u).
Proof.
  intros Es Hn H. unfold _ensure_plus_variant in H. rewrite Es in H. cbn [bind] in H.
  pose proof (rstrip_keeps_head (path parts) (urlsplit_host_path ck u parts Es Hn)) as Hh.
  destruct (contains "/plus/" (path parts) || endswith "/plus/1" (path parts)).
  - injection H as <-. exists parts. repeat split; assumption.
  - injection H as <-. pose proof (urlsplit_wf ck u parts Es) as Hwf.
    destruct parts as [s n p q f]. cbn [scheme netloc path query fragment] in *.
    destruct (rebuilt_splits ck s n p q f Hwf) as [(n' & Z & E & Hk)|(Hn' & _)];
      [|contradiction].
    destruct (Hk Hn) as [-> HZ]. rewrite Hh in HZ. subst Z.
    eexists. split; [exact E|]. cbn [scheme netloc path query fragment].
    repeat split. intros Hc. discriminate Hc.
Qed.

End UrlComponents.

(** ** Dates that are normalised once and for all *)

Module DateShape.
Import PyStr Dates DateFacts.
#[local] Arguments String.append !_ _ / : simpl nomatch.

Lemma rstrip_keeps (p : ascii -> bool) (d : string) :
  sall (fun c => negb (p c)) d = true -> rstrip_by p d = d.
Proof.
  induction d as [|c d IH]; [reflexivity|]. cbn [sall rstrip_by]. intros H.
  apply andb_true_iff in H as [Hc Hd]. rewrite (IH Hd).
  apply negb_true_iff in Hc. rewrite Hc, andb_false_r. reflexivity.
Qed.

Lemma rstrip_app_keeps (p : ascii -> bool) (a d : string) :
  sall (fun c => negb (p c)) d = true -> d <> EmptyString ->
  rstrip_by p (a +:+ d) = a +:+ d.
Proof.
  intros Hd Hne. induction a as [|c a IH]; cbn [String.append].
  - apply rstrip_keeps. exact Hd.
  - cbn [rstrip_by]. rewrite IH.
    destruct (a +:+ d) as [|x r] eqn:E; [|reflexivity].
    destruct a, d; try discriminate. destruct Hne. reflexivity.
Qed.

Lemma digits_not_spaces (d : string) :
  sall isdigit d = true -> sall (fun c => negb (isspace c)) d = true.
Proof.
  apply UrlFacts.sall_impl. intros c Hc. rewrite (digit_not_space c Hc). reflexivity.
Qed.

(** A string of the ISO shape is returned as it is. *)
Lemma iso_shape_fixed (y m d : string) :
  is_digits 4 4 y = true -> is_digits 2 2 m = true -> is_digits 2 2 d = true ->
  re_iso (y +:+ "-" +:+ m +:+ "-" +:+ d) = true /\
  _normalize_date (Some (y +:+ "-" +:+ m +:+ "-" +:+ d)) = Some (y +:+ "-" +:+ m +:+ "-" +:+ d).
Proof.
  intros Hy Hm Hd. split; [apply re_iso_app; assumption|].
  pose proof (is_digits_split _ _ _ Hy) as [Hys Hyl].
  pose proof (is_digits_split _ _ _ Hd) as [Hds Hdl].
  destruct y as [|y0 y']; [discriminate|].
  destruct d as [|d0 d']; [discriminate|].
  set (r := String y0 y' +:+ "-" +:+ m +:+ "-" +:+ String d0 d').
  assert (Hstrip : strip r = r).
  { unfold strip, r.
    replace (String y0 y' +:+ "-" +:+ m +:+ "-" +:+ String d0 d')
      with ((String y0 y' +:+ "-" +:+ m +:+ "-") +:+ String d0 d')
      by (rewrite !sapp_assoc; reflexivity).
    rewrite rstrip_app_keeps; [|apply digits_not_spaces; exact Hds|discriminate].
    cbn [String.append lstrip_by].
    cbn [sall] in Hys. apply andb_true_iff in Hys as [H0 _].
    rewrite (digit_not_space y0 H0). reflexivity. }
  apply normalize_documented.
  - reflexivity.
  - unfold r. cbn [sall] in Hys. apply andb_true_iff in Hys as [H0 _].
    unfold placeholders. cbn [existsb String.append].
    destruct (String.eqb_spec (String y0 (y' +:+ String "-" (m +:+ String "-" (String d0 d')))) "-")
      as [E|_]; [injection E as -> _; discriminate|].
    destruct (String.eqb_spec (String y0 (y' +:+ String "-" (m +:+ String "-" (String d0 d')))) "?")
      as [E|_]; [injection E as -> _; discriminate|].
    destruct (String.eqb_spec (String y0 (y' +:+ String "-" (m +:+ String "-" (String d0 d')))) "unknown")
      as [E|_]; [injection E as -> _; discriminate|].
    destruct (String.eqb_spec (String y0 (y' +:+ String "-" (m +:+ String "-" (String d0 d')))) "Unknown")
      as [E|_]; [injection E as -> _; discriminate|].
    reflexivity.
  - rewrite Hstrip. apply form_iso; assumption.
Qed.

Lemma fmt_ymd_fixed (y mo d : string) :
  is_digits 4 4 y = true -> is_digits 1 2 mo = true -> is_digits 1 2 d = true ->
  re_iso (fmt_ymd y mo d) = true /\
  _normalize_date (Some (fmt_ymd y mo d)) = Some (fmt_ymd y mo d).
Proof.
  intros Hy Hm Hd. unfold fmt_ymd. apply iso_shape_fixed; [exact Hy| |].
  - apply fmt_02d_digits. apply int_two_digits. exact Hm.
  - apply fmt_02d_digits. apply int_two_digits. exact Hd.
Qed.

(** A date written with digits throughout is normalised once and for
    all: whenever the input, stripped, begins with a digit and a date is
    returned, that date has the shape YYYY-MM-DD and normalising it again
    returns it unchanged; only a slash date whose year has three digits
    is excepted. *)
Theorem numeric_dates_normalise_to_fixed_points (s r : string) :
  numeric_head s ->
  _normalize_date (Some s) = Some r ->
  slash_year3 (strip s) \/
  (re_iso r = true /\ _normalize_date (Some r) = Some r).
Proof.
  unfold numeric_head. intros Hh H.
  apply normalize_only_documented in H as [H|[H|H]]; [|left; exact H|].
  2:{ exfalso. destruct H as [H|(a & b & c & ws & x & E & Ha & _)].
      - destruct (early_month_form_head _ H) as (c & x & E & Hc).
        rewrite E in Hh. rewrite (alpha_not_digit c Hc) in Hh. discriminate.
      - rewrite E in Hh. rewrite (alpha_not_digit a Ha) in Hh. discriminate. }
  right.
  destruct H as [y m d Hy Hm Hd|d mo y Hd Hm Hy|d mo y Hd Hm Hy|d mo y Hd Hm Hy
                 |x r H|a b c ws x r Ha Hb Hc Hws H].
  - apply iso_shape_fixed; assumption.
  - apply fmt_ymd_fixed; assumption.
  - apply fmt_ymd_fixed; assumption.
  - apply fmt_ymd_fixed; try assumption.
    apply four_digit_year; [|exact Hy]. destruct (int y <=? 69); reflexivity.
  - destruct (month_form_head x r H) as (c & x' & -> & Hc).
    rewrite (alpha_not_digit c Hc) in Hh. discriminate.
  - rewrite (alpha_not_digit a Ha) in Hh. discriminate.
Qed.

Lemma numeric_dates_normalise_to_fixed_points_witness :
  slash_year3 (strip " 1/9/25 ") \/
  (re_iso "2025-09-01" = true /\ _normalize_date (Some "2025-09-01") = Some "2025-09-01").
Proof.
  apply (numeric_dates_normalise_to_fixed_points " 1/9/25 " "2025-09-01");
    reflexivity.
Defined.

End DateShape.

(** ** The integer reader *)

Module IntFacts.
Import PyStr Dates DateFacts.
#[local] Arguments String.append !_ _ / : simpl nomatch.

Lemma findall_skips (pre t : string) :
  sall (fun c => negb (isdigit c)) pre = true ->
  findall_digits (pre +:+ t) = findall_digits t.
Proof.
  induction pre as [|c pre IH]; cbn [String.append sall]; [reflexivity|].
  intros H. apply andb_true_iff in H as [Hc Hp]. apply negb_true_iff in Hc.
  cbn [findall_digits]. rewrite Hc. cbv zeta. apply IH. exact Hp.
Qed.

Lemma findall_run (d rest : string) :
  sall isdigit d = true -> d <> EmptyString ->
  match rest with EmptyString => True | String c _ => isdigit c = false end ->
  findall_digits (d +:+ rest) = d :: findall_digits rest.
Proof.
  intros Hd Hne Hr. induction d as [|c d IH]; [destruct Hne; reflexivity|].
  cbn [sall] in Hd. apply andb_true_iff in Hd as [Hc Hd].
  cbn [String.append findall_digits]. rewrite Hc. cbv zeta.
  destruct d as [|c2 d2].
  - cbn [String.append]. destruct rest as [|c' rest']; [reflexivity|].
    cbn [begins_with_digit]. rewrite Hr.
    destruct (findall_digits (String c' rest')); reflexivity.
  - rewrite IH by (assumption || discriminate).
    cbn [String.append begins_with_digit]. cbn [sall] in Hd.
    apply andb_true_iff in Hd as [Hc2 _].
    rewrite Hc2. reflexivity.
Qed.

Lemma findall_none (s : string) :
  sall (fun c => negb (isdigit c)) s = true -> findall_digits s = [].
Proof.
  intros H. rewrite <- (sapp_nil_r s). rewrite findall_skips by exact H. reflexivity.
Qed.

(** Every string is a part without digits, then nothing more or a
    maximal run of digits and what follows it. *)
Lemma first_run (s : string) :
  exists pre d rest,
    s = pre +:+ d +:+ rest /\
    sall (fun c => negb (isdigit c)) pre = true /\ sall isdigit d = true /\
    match rest with EmptyString => True | String c _ => isdigit c = false end /\
    (d = EmptyString -> rest = EmptyString).
Proof.
  destruct (lstrip_inv (fun c => negb (isdigit c)) s) as (pre & E & Hpre).
  pose proof (UrlFacts.lstrip_head (fun c => negb (isdigit c)) s) as Hh.
  destruct (span_digits (lstrip_by (fun c => negb (isdigit c)) s)) as [d rest] eqn:Es.
  apply span_digits_inv in Es as (Et & Hd & Hr).
  exists pre, d, rest. rewrite <- Et. repeat split; try assumption.
  intros ->. rewrite Et in Hh. cbn [String.append] in Hh.
  destruct rest as [|c r]; [reflexivity|]. rewrite Hr in Hh. discriminate.
Qed.

Lemma int_acc_nonneg (d : string) :
  forall acc, sall isdigit d = true -> 0 <= acc -> 0 <= int_acc acc d.
Proof.
  induction d as [|c d IH]; intros acc Hd Ha; cbn [int_acc]; [exact Ha|].
  cbn [sall] in Hd. apply andb_true_iff in Hd as [Hc Hd].
  apply IH; [exact Hd|].
  assert (0 <= digit_val c).
  { revert Hc. destruct c as [[] [] [] [] [] [] [] []]; vm_compute; congruence. }
  lia.
Qed.

(** [_parse_int] gives [None] exactly for a missing text and for a text
    without digits; otherwise it reads the first maximal run of digits
    as a decimal numeral, whatever stands before and after it, so that
    its result is never negative: a sign before the digits is
    skipped. *)
Theorem parse_int_reads_first_digit_run (s : option string) :
  (_parse_int s = None <->
   match s with
   | None => True
   | Some s => sall (fun c => negb (isdigit c)) s = true
   end) /\
  (forall n, _parse_int s = Some n ->
     0 <= n /\
     exists pre d rest,
       s = Some (pre +:+ d +:+ rest) /\ n = int d /\
       sall (fun c => negb (isdigit c)) pre = true /\
       sall isdigit d = true /\ d <> EmptyString /\
       match rest with EmptyString => True | String c _ => isdigit c = false end).
Proof.
  destruct s as [s|]; [|split; [split; reflexivity|discriminate]].
  destruct (first_run s) as (pre & d & rest & -> & Hpre & Hd & Hr & Hz).
  destruct d as [|c d].
  - rewrite (Hz eq_refl). cbn [String.append]. rewrite sapp_nil_r.
    assert (E : _parse_int (Some pre) = None).
    { unfold _parse_int. rewrite (findall_none pre Hpre). destruct (is_empty pre); reflexivity. }
    rewrite E. split; [split; [intros _; exact Hpre|reflexivity]|discriminate].
  - assert (E : _parse_int (Some (pre +:+ String c d +:+ rest)) = Some (int (String c d))).
    { unfold _parse_int. rewrite findall_skips by exact Hpre.
      rewrite findall_run by (assumption || discriminate).
      destruct pre; reflexivity. }
    rewrite E. split.
    + split; [discriminate|]. intros H. exfalso.
      rewrite !sall_app in H. cbn [sall] in Hd, H.
      apply andb_true_iff in Hd as [Hc _]. rewrite Hc in H.
      cbn [negb andb] in H. rewrite andb_false_r in H. discriminate.
    + intros n [= <-]. split; [apply int_acc_nonneg; [exact Hd|lia]|].
      exists pre, (String c d), rest. repeat split; try assumption. discriminate.
Qed.

End IntFacts.

(** * The merge scripts *)

(** Induction on values, through the items of dictionaries and lists. *)
Lemma value_induction (P : value -> Prop) :
  P VNone -> (forall b, P (VBool b)) -> (forall n, P (VInt n)) -> (forall s, P (VStr s)) ->
  (forall hex, P (VObjectId hex)) -> (forall iso, P (VDatetime iso)) ->
  (forall items, Forall (fun kv => P (snd kv)) items -> P (VDict items)) ->
  (forall items, Forall P items -> P (VList items)) ->
  forall v, P v.
Proof.
  intros HN HB HI HS HO HD Hdict Hlist.
  refine (fix go (v : value) : P v :=
            match v with
            | VNone => HN
            | VBool b => HB b
            | VInt n => HI n
            | VStr s => HS s
            | VObjectId hex => HO hex
            | VDatetime iso => HD iso
            | VDict items =>
                Hdict items
                  ((fix each (l : list (string * value))
                      : Forall (fun kv => P (snd kv)) l :=
                      match l with
                      | [] => List.Forall_nil _
                      | kv :: l' => List.Forall_cons _ kv l' (go (snd kv)) (each l')
                      end) items)
            | VList items =>
                Hlist items
                  ((fix each (l : list value) : Forall P l :=
                      match l with
                      | [] => List.Forall_nil _
                      | x :: l' => List.Forall_cons _ x l' (go x) (each l')
                      end) items)
            end).
Qed.

Lemma converted_is_serialisable (v : value) :
  serialisable (convert_objectid_to_str v) = true.
Proof.
  induction v as [| | | | | |items IH|items IH] using value_induction; try reflexivity.
  - cbn [convert_objectid_to_str serialisable].
    induction IH as [|kv l Hkv _ IHl]; [reflexivity|].
    cbn [List.map forallb snd]. rewrite Hkv. exact IHl.
  - cbn [convert_objectid_to_str serialisable].
    induction IH as [|x l Hx _ IHl]; [reflexivity|].
    cbn [List.map forallb]. rewrite Hx. exact IHl.
Qed.

Lemma serialisable_is_kept (v : value) :
  serialisable v = true -> convert_objectid_to_str v = v.
Proof.
  induction v as [| | | | | |items IH|items IH] using value_induction;
    try reflexivity; try discriminate.
  - cbn [convert_objectid_to_str serialisable]. intros H. f_equal.
    induction IH as [|[k x] l Hkv _ IHl]; [reflexivity|].
    cbn [forallb snd] in H. apply andb_true_iff in H as [Hx Hl].
    cbn [List.map fst snd]. cbn [snd] in Hkv. rewrite (Hkv Hx), (IHl Hl). reflexivity.
  - cbn [convert_objectid_to_str serialisable]. intros H. f_equal.
    induction IH as [|x l Hx _ IHl]; [reflexivity|].
    cbn [forallb] in H. apply andb_true_iff in H as [Hx' Hl].
    cbn [List.map]. rewrite (Hx Hx'), (IHl Hl). reflexivity.
Qed.

Lemma converted_keys (v : value) : keys (convert_objectid_to_str v) = keys v.
Proof.
  destruct v; try reflexivity. cbn [convert_objectid_to_str keys].
  rewrite List.map_map. reflexivity.
Qed.

(** The conversion yields a value that [json.dump] can write: no
    [ObjectId] and no [datetime] is left at any depth.  A value that is
    already so is returned unchanged, hence converting twice is converting
    once; and a dictionary keeps its keys in their order. *)
Theorem conversion_makes_serialisable (v : value) :
  serialisable (convert_objectid_to_str v) = true /\
  (serialisable v = true -> convert_objectid_to_str v = v) /\
  convert_objectid_to_str (convert_objectid_to_str v) = convert_objectid_to_str v /\
  keys (convert_objectid_to_str v) = keys v.
Proof.
  split; [apply converted_is_serialisable|].
  split; [apply serialisable_is_kept|].
  split; [|apply converted_keys].
  apply serialisable_is_kept. apply converted_is_serialisable.
Qed.

(** ** Dictionaries *)

Module DictFacts.
Import Py.

Lemma get_set_eq (k : string) (v : value) (d : list (string * value)) :
  get k (set k v d) = Some v.
Proof.
  induction d as [|[k' v'] d IH]; cbn [set get].
  - rewrite String.eqb_refl. reflexivity.
  - destruct (String.eqb k k') eqn:E; cbn [get].
    + rewrite String.eqb_refl. reflexivity.
    + rewrite E. exact IH.
Qed.

Lemma get_set_ne (k k' : string) (v : value) (d : list (string * value)) :
  k <> k' -> get k' (set k v d) = get k' d.
Proof.
  intros Hne. induction d as [|[k0 v0] d IH]; cbn [set get].
  - apply String.eqb_neq in Hne. rewrite String.eqb_sym, Hne. reflexivity.
  - destruct (String.eqb k k0) eqn:E; cbn [get].
    + apply String.eqb_eq in E. subst k0.
      apply String.eqb_neq in Hne. rewrite String.eqb_sym, Hne. reflexivity.
    + destruct (String.eqb k' k0); [reflexivity|exact IH].
Qed.

Lemma get_set (k k' : string) (v : value) (d : list (string * value)) :
  get k' (set k v d) = if String.eqb k k' then Some v else get k' d.
Proof.
  destruct (String.eqb_spec k k') as [->|Hne].
  - apply get_set_eq.
  - apply get_set_ne. exact Hne.
Qed.

Lemma get_absent (k : string) (d : list (string * value)) :
  ~ In k (List.map fst d) -> get k d = None.
Proof.
  induction d as [|[k' v'] d IH]; cbn [List.map get fst]; [reflexivity|].
  intros H. destruct (String.eqb_spec k k') as [->|Hne].
  - destruct H. left. reflexivity.
  - apply IH. intros Hin. apply H. right. exact Hin.
Qed.

Lemma get_update (k : string) (other : list (string * value)) :
  List.NoDup (List.map fst other) ->
  forall d, get k (update d other)
            = match get k other with Some v => Some v | None => get k d end.
Proof.
  unfold update.
  induction other as [|[k0 v0] o IH]; intros Hnd d; cbn [fold_left get fst snd];
    [reflexivity|].
  cbn [List.map fst] in Hnd. apply List.NoDup_cons_iff in Hnd as [Hk0 Hnd].
  rewrite (IH Hnd). rewrite get_set.
  destruct (String.eqb_spec k k0) as [->|Hne].
  - rewrite String.eqb_refl, (get_absent k0 o Hk0). reflexivity.
  - destruct (String.eqb_spec k0 k) as [E|_]; [destruct Hne; symmetry; exact E|].
    reflexivity.
Qed.

Lemma set_fresh (k : string) (v : value) (d : list (string * value)) :
  ~ In k (List.map fst d) -> set k v d = d ++ [(k, v)].
Proof.
  induction d as [|[k' v'] d IH]; cbn [List.map set fst]; [reflexivity|].
  intros H. destruct (String.eqb_spec k k') as [->|Hne].
  - destruct H. left. reflexivity.
  - cbn [app]. rewrite IH; [reflexivity|]. intros Hin. apply H. right. exact Hin.
Qed.

(** Copying a dictionary item by item gives the dictionary. *)
Lemma update_copy (other : list (string * value)) :
  List.NoDup (List.map fst other) ->
  forall d, (forall k, In k (List.map fst other) -> ~ In k (List.map fst d)) ->
  update d other = d ++ other.
Proof.
  unfold update.
  induction other as [|[k0 v0] o IH]; intros Hnd d Hd; cbn [fold_left fst snd].
  - rewrite app_nil_r. reflexivity.
  - cbn [List.map fst] in Hnd, Hd. apply List.NoDup_cons_iff in Hnd as [Hk0 Hnd].
    rewrite set_fresh by (apply Hd; left; reflexivity).
    rewrite (IH Hnd).
    + rewrite <- app_assoc. reflexivity.
    + intros k Hk. rewrite List.map_app, in_app_iff. cbn [List.map fst In].
      intros [Hin|[<-|[]]]; [|contradiction].
      revert Hin. apply Hd. right. exact Hk.
Qed.

End DictFacts.

(** [{**player_data, **player_info}] is a copy of the player's document
    in which every key of the injury row is written with the row's
    value: under a key of the row the merged dictionary has the row's
    value, under any other key the document's. *)
Theorem merge_prefers_the_injury_row (player_data player_info : list (string * value)) :
  List.NoDup (List.map fst player_data) -> List.NoDup (List.map fst player_info) ->
  Py.merge (VDict player_data) (VDict player_info)
  = Done (VDict (Py.update player_data player_info)) /\
  forall k, Py.get k (Py.update player_data player_info)
            = match Py.get k player_info with
              | Some v => Some v
              | None => Py.get k player_data
              end.
Proof.
  intros Ha Hb. split.
  - cbn [Py.merge]. rewrite (DictFacts.update_copy player_data Ha []); [reflexivity|].
    intros k _ [].
  - intros k. apply DictFacts.get_update. exact Hb.
Qed.

(** ** The index of the players and the merge loop *)

Module IndexFacts.
Import Py FetchInjuriesOptimized DictFacts.

Lemma get_after_set (k k' : string) (v : value) (d : list (string * value)) :
  get k' d <> None -> get k' (set k v d) <> None.
Proof. rewrite get_set. destruct (String.eqb k k'); [discriminate|auto]. Qed.

Lemma index_keeps_keys (players : list value) :
  forall acc d k,
  index_players players acc = Some d -> get k acc <> None -> get k d <> None.
Proof.
  induction players as [|p rest IH]; intros acc d k H Hk; cbn [index_players] in H.
  - injection H as <-. exact Hk.
  - destruct (stripped_field "display_name" p) as [dn|]; [|discriminate].
    destruct (stripped_field "name" p) as [n|]; [|discriminate].
    apply (IH _ _ k) in H; [exact H|].
    destruct (negb (String.eqb n dn)); repeat apply get_after_set; exact Hk.
Qed.

Lemma index_complete (players : list value) :
  forall acc d p,
  index_players players acc = Some d -> In p players ->
  exists dn n,
    stripped_field "display_name" p = Some dn /\ stripped_field "name" p = Some n /\
    get dn d <> None /\ get n d <> None.
Proof.
  induction players as [|q rest IH]; intros acc d p H Hin; [destruct Hin|].
  cbn [index_players] in H.
  destruct (stripped_field "display_name" q) as [dn|] eqn:Edn; [|discriminate].
  destruct (stripped_field "name" q) as [n|] eqn:En; [|discriminate].
  destruct Hin as [<-|Hin]; [|apply (IH _ _ p H Hin)].
  exists dn, n. split; [exact Edn|]. split; [exact En|].
  split; apply (index_keeps_keys rest _ d _ H).
  - destruct (negb (String.eqb n dn)); [apply get_after_set|];
      rewrite get_set_eq; discriminate.
  - destruct (String.eqb_spec n dn) as [->|Hne]; cbn [negb];
      rewrite get_set_eq; discriminate.
Qed.

Lemma index_sound (players : list value) :
  forall acc d k v,
  index_players players acc = Some d -> get k d = Some v ->
  get k acc = Some v \/
  (In v players /\
   (stripped_field "display_name" v = Some k \/ stripped_field "name" v = Some k)).
Proof.
  induction players as [|q rest IH]; intros acc d k v H Hk; cbn [index_players] in H.
  - injection H as <-. left. exact Hk.
  - destruct (stripped_field "display_name" q) as [dn|] eqn:Edn; [|discriminate].
    destruct (stripped_field "name" q) as [n|] eqn:En; [|discriminate].
    destruct (IH _ _ k v H Hk) as [Hacc|[Hin Hv]];
      [|right; split; [right; exact Hin|exact Hv]].
    assert (Hset : forall x acc0,
               get k (set x q acc0) = Some v ->
               (x = k /\ q = v) \/ get k acc0 = Some v).
    { intros x acc0. rewrite get_set. destruct (String.eqb_spec x k) as [->|_].
      - intros [= <-]. left. split; reflexivity.
      - intros Hg. right. exact Hg. }
    destruct (negb (String.eqb n dn)).
    + apply Hset in Hacc as [[<- <-]|Hacc].
      * right. split; [left; reflexivity|right; exact En].
      * apply Hset in Hacc as [[<- <-]|Hacc]; [|left; exact Hacc].
        right. split; [left; reflexivity|left; exact Edn].
    + apply Hset in Hacc as [[<- <-]|Hacc]; [|left; exact Hacc].
      right. split; [left; reflexivity|left; exact Edn].
Qed.

Lemma index_none_iff (players : list value) :
  forall acc,
  index_players players acc = None <->
  exists p, In p players /\
            (stripped_field "display_name" p = None \/ stripped_field "name" p = None).
Proof.
  induction players as [|q rest IH]; intros acc; cbn [index_players].
  - split; [discriminate|intros (p & [] & _)].
  - destruct (stripped_field "display_name" q) as [dn|] eqn:Edn.
    + destruct (stripped_field "name" q) as [n|] eqn:En.
      * rewrite IH. split.
        -- intros (p & Hin & Hp). exists p. split; [right; exact Hin|exact Hp].
        -- intros (p & [<-|Hin] & Hp).
           ++ rewrite Edn, En in Hp. destruct Hp; discriminate.
           ++ exists p. split; assumption.
      * split; [|reflexivity]. intros _. exists q. split; [left; reflexivity|right; exact En].
    + split; [|reflexivity]. intros _. exists q. split; [left; reflexivity|left; exact Edn].
Qed.

End IndexFacts.

(** The index that [fetch_players_from_db] builds.  It is [None] when
    the query raises, and when a document found lacks a string under
    [display_name] or under [name].  Otherwise every document found can
    be looked up under its stripped display name and under its stripped
    name, and whatever is stored under a key is a document found, one of
    whose two stripped names is that key. *)
Theorem player_index_is_complete_and_sound (find : list value -> result (list value))
  (player_names : list value) :
  match find player_names with
  | Raise _ => FetchInjuriesOptimized.fetch_players_from_db find player_names = None
  | Ok players =>
      (FetchInjuriesOptimized.fetch_players_from_db find player_names = None <->
       exists p, In p players /\
                 (FetchInjuriesOptimized.stripped_field "display_name" p = None \/
                  FetchInjuriesOptimized.stripped_field "name" p = None)) /\
      forall d,
        FetchInjuriesOptimized.fetch_players_from_db find player_names = Some d ->
        (forall p, In p players ->
           exists dn n,
             FetchInjuriesOptimized.stripped_field "display_name" p = Some dn /\
             FetchInjuriesOptimized.stripped_field "name" p = Some n /\
             Py.get dn d <> None /\ Py.get n d <> None) /\
        (forall k v, Py.get k d = Some v ->
           In v players /\
           (FetchInjuriesOptimized.stripped_field "display_name" v = Some k \/
            FetchInjuriesOptimized.stripped_field "name" v = Some k))
  end.
Proof.
  unfold FetchInjuriesOptimized.fetch_players_from_db.
  destruct (find player_names) as [players|e]; [|reflexivity].
  split; [apply IndexFacts.index_none_iff|].
  intros d H. split.
  - intros p Hin. apply (IndexFacts.index_complete players [] d p H Hin).
  - intros k v Hk.
    destruct (IndexFacts.index_sound players [] d k v H Hk) as [Hacc|Hv]; [discriminate|exact Hv].
Qed.

Module MergeFacts.
Import Py FetchInjuriesOptimized DictFacts.

Lemma for_each_names (rows : list value) :
  forall names,
  for_each row_name rows = Done names ->
  Forall2 (fun row n => row_name row = Done n) rows names.
Proof.
  induction rows as [|row rest IH]; intros names H; cbn [for_each] in H.
  - injection H as <-. constructor.
  - destruct (row_name row) as [n|c] eqn:En; cbn [run_bind] in H; [|discriminate].
    destruct (for_each row_name rest) as [ns|c]; cbn [run_bind] in H; [|discriminate].
    injection H as <-. constructor; [exact En|apply IH; reflexivity].
Qed.

Lemma get_converted (k : string) (items : list (string * value)) :
  get k (List.map (fun kv => (fst kv, convert_objectid_to_str (snd kv))) items)
  = option_map convert_objectid_to_str (get k items).
Proof.
  induction items as [|[k' v'] items IH]; cbn [List.map get fst snd]; [reflexivity|].
  destruct (String.eqb k k'); [reflexivity|exact IH].
Qed.

Lemma named_row_is_dict (row n : value) :
  row_name row = Done n -> exists items, row = VDict items.
Proof.
  unfold row_name. destruct row; cbn [subscript run_bind]; try discriminate.
  intros _. eexists. reflexivity.
Qed.

Lemma serialisable_set (k : string) (v : value) (d : list (string * value)) :
  serialisable v = true ->
  forallb (fun kv => serialisable (snd kv)) d = true ->
  forallb (fun kv => serialisable (snd kv)) (set k v d) = true.
Proof.
  intros Hv. induction d as [|[k' v'] d IH]; cbn [set forallb snd].
  - intros _. rewrite Hv. reflexivity.
  - intros H. apply andb_true_iff in H as [Hv' Hd].
    destruct (String.eqb k k'); cbn [forallb snd].
    + rewrite Hv, Hd. reflexivity.
    + rewrite Hv', (IH Hd). reflexivity.
Qed.

Lemma serialisable_update (other : list (string * value)) :
  forallb (fun kv => serialisable (snd kv)) other = true ->
  forall d,
  forallb (fun kv => serialisable (snd kv)) d = true ->
  forallb (fun kv => serialisable (snd kv)) (update d other) = true.
Proof.
  unfold update. induction other as [|[k v] o IH]; intros Ho d Hd; cbn [fold_left fst snd].
  - exact Hd.
  - cbn [forallb snd] in Ho. apply andb_true_iff in Ho as [Hv Ho].
    apply (IH Ho). apply serialisable_set; assumption.
Qed.

Lemma merged_is_serialisable (a b m : value) :
  merge (convert_objectid_to_str a) (convert_objectid_to_str b) = Done m ->
  serialisable m = true.
Proof.
  pose proof (converted_is_serialisable a) as Ha.
  pose proof (converted_is_serialisable b) as Hb.
  destruct (convert_objectid_to_str a) as [| | | | | |x|]; try discriminate.
  destruct (convert_objectid_to_str b) as [| | | | | |y|]; try discriminate.
  cbn [merge]. intros [= <-]. cbn [serialisable] in *.
  apply serialisable_update; [exact Hb|].
  apply serialisable_update; [exact Ha|reflexivity].
Qed.

(** A document of the index is a dictionary with a name. *)
Lemma indexed_document (p : value) :
  (exists dn n, stripped_field "display_name" p = Some dn /\
                stripped_field "name" p = Some n) ->
  truthy p = true /\
  (exists items, convert_objectid_to_str p = VDict items) /\
  exists x, subscript (convert_objectid_to_str p) "name" = Done x.
Proof.
  intros (dn & n & Hdn & Hn). unfold stripped_field in *.
  destruct p as [| | | | | |items|]; try discriminate.
  split; [destruct items; [discriminate|reflexivity]|].
  split; [eexists; reflexivity|].
  cbn [convert_objectid_to_str subscript]. rewrite get_converted.
  destruct (get "name" items) as [x|]; [|discriminate].
  eexists. reflexivity.
Qed.

Lemma merge_rows_known (d : list (string * value)) (rows : list value) :
  (forall k p, get k d = Some p ->
     exists dn n, stripped_field "display_name" p = Some dn /\
                  stripped_field "name" p = Some n) ->
  Forall (fun row => exists s, row_name row = Done (VStr s)) rows ->
  forall acc,
  merge_rows (Some d) rows acc = Done (acc ++ omap (merged_record d) rows).
Proof.
  intros Hd Hrows. induction Hrows as [|row rest [s Hs] _ IH]; intros acc.
  - cbn [merge_rows omap]. rewrite app_nil_r. reflexivity.
  - cbn [merge_rows]. rewrite Hs. cbn [run_bind get_player].
    change (omap (merged_record d) (row :: rest))
      with (match merged_record d row with
            | Some y => y :: omap (merged_record d) rest
            | None => omap (merged_record d) rest
            end).
    unfold merged_record at 1. rewrite Hs.
    destruct (get s d) as [p|] eqn:Eg; cbn [default from_option id run_bind].
    + destruct (indexed_document p (Hd s p Eg)) as (Ht & [items Ei] & [x Ex]).
      rewrite Ht. cbn [negb]. cbv zeta.
      destruct (named_row_is_dict row _ Hs) as [ritems ->].
      rewrite Ex. rewrite Ei. cbn [convert_objectid_to_str merge run_bind].
      rewrite IH, <- app_assoc. reflexivity.
    + cbn [truthy negb]. apply IH.
Qed.

End MergeFacts.

(** The optimised script on rows that name their player by a string,
    with a query that returns and documents that all have their two
    names: [main] ends normally; it has one record for each row whose
    player name is a key of the index, in the order of the rows, and
    none for the other rows; and every record can be written by
    [json.dump]. *)
Theorem main_merges_every_known_player (find : list value -> result (list value))
  (rows player_names players : list value) (d : list (string * value)) :
  FetchInjuriesOptimized.for_each FetchInjuriesOptimized.row_name rows = Done player_names ->
  Forall (fun n => exists s, n = VStr s) player_names ->
  find player_names = Ok players ->
  FetchInjuriesOptimized.index_players players [] = Some d ->
  FetchInjuriesOptimized.main find rows = Done (omap (merged_record d) rows) /\
  Forall (fun m => serialisable m = true) (omap (merged_record d) rows).
Proof.
  intros Hn Hs Hf Hd. split.
  - unfold FetchInjuriesOptimized.main. rewrite Hn. cbn [run_bind].
    unfold FetchInjuriesOptimized.fetch_players_from_db. rewrite Hf, Hd.
    apply (MergeFacts.merge_rows_known d rows).
    + intros k p Hk.
      destruct (IndexFacts.index_sound players [] d k p Hd Hk) as [Hacc|[Hin _]];
        [discriminate|].
      destruct (IndexFacts.index_complete players [] d p Hd Hin) as (dn & n & H1 & H2 & _).
      exists dn, n. split; assumption.
    + apply MergeFacts.for_each_names in Hn.
      clear Hf Hd. induction Hn as [|row n rest ns Hr _ IH]; [constructor|].
      inversion Hs as [|? ? [s ->] Hs']; subst. constructor; [exists s; exact Hr|].
      apply IH. exact Hs'.
  - apply Forall_forall. intros m Hm. apply list_elem_of_omap in Hm as (row & _ & Hm).
    unfold merged_record in Hm.
    destruct (FetchInjuriesOptimized.row_name row) as [[| | |s| | | |]|]; try discriminate.
    destruct (Py.get s d) as [p|]; [|discriminate].
    destruct (Py.merge _ _) as [m'|] eqn:Em; [|discriminate].
    injection Hm as <-. apply (MergeFacts.merged_is_serialisable p row m' Em).
Qed.

(** Without an index the optimised script does not skip the players, it
    stops: when [fetch_players_from_db] has returned [None], [main] ends
    normally only for an empty list of rows, and with any row it raises
    [AttributeError] at the first lookup. *)
Theorem main_crashes_without_the_index (find : list value -> result (list value))
  (rows player_names : list value) :
  FetchInjuriesOptimized.for_each FetchInjuriesOptimized.row_name rows = Done player_names ->
  FetchInjuriesOptimized.fetch_players_from_db find player_names = None ->
  FetchInjuriesOptimized.main find rows
  = match rows with
    | [] => Done []
    | _ :: _ => Crash AttributeError
    end.
Proof.
  intros Hn Hf. unfold FetchInjuriesOptimized.main. rewrite Hn. cbn [run_bind]. rewrite Hf.
  destruct rows as [|row rest]; [reflexivity|].
  apply MergeFacts.for_each_names in Hn. inversion Hn as [|? n ? ? Hr _]; subst.
  cbn [FetchInjuriesOptimized.merge_rows]. rewrite Hr. reflexivity.
Qed.

(** The script that queries player by player.  When it ends normally,
    every record written carries the name of a row, is the merge of that
    row with the document found for the name, the query by display name
    being preferred and the query by name used only when the first
    found nothing, and can be written by [json.dump]; the second
    conversion of the document in [main] changes nothing. *)
Theorem per_player_script_writes_merged_records
  (find_one : string -> value -> result value) (rows : list value)
  (written : list (value * value)) :
  FetchInjuries.main find_one rows = Done written ->
  Forall (fun nm =>
            serialisable (snd nm) = true /\
            exists row doc,
              In row rows /\ FetchInjuriesOptimized.row_name row = Done (fst nm) /\
              Py.truthy doc = true /\
              (find_one "display_name" (fst nm) = Ok doc \/
               exists first, find_one "display_name" (fst nm) = Ok first /\
                             Py.truthy first = false /\
                             find_one "name" (fst nm) = Ok doc) /\
              Py.merge (convert_objectid_to_str doc) (convert_objectid_to_str row)
              = Done (snd nm))
         written.
Proof.
  revert written. induction rows as [|row rest IH]; intros written H;
    cbn [FetchInjuries.main] in H.
  - injection H as <-. constructor.
  - destruct (FetchInjuriesOptimized.row_name row) as [n|c] eqn:En; cbn [run_bind] in H;
      [|discriminate].
    assert (Hrest : forall w, FetchInjuries.main find_one rest = Done w ->
              Forall (fun nm =>
                serialisable (snd nm) = true /\
                exists row0 doc,
                  In row0 (row :: rest) /\
                  FetchInjuriesOptimized.row_name row0 = Done (fst nm) /\
                  Py.truthy doc = true /\
                  (find_one "display_name" (fst nm) = Ok doc \/
                   exists first, find_one "display_name" (fst nm) = Ok first /\
                                 Py.truthy first = false /\
                                 find_one "name" (fst nm) = Ok doc) /\
                  Py.merge (convert_objectid_to_str doc) (convert_objectid_to_str row0)
                  = Done (snd nm)) w).
    { intros w Hw. apply IH in Hw. eapply Forall_impl; [exact Hw|].
      intros nm (Hs & row0 & doc & Hin & Hrest). split; [exact Hs|].
      exists row0, doc. split; [right; exact Hin|exact Hrest]. }
    destruct (Py.truthy (FetchInjuries.fetch_player_from_db find_one n)) eqn:Et;
      [|apply Hrest; exact H].
    cbv zeta in H.
    destruct (Py.merge _ _) as [m|c] eqn:Em; cbn [run_bind] in H; [|discriminate].
    destruct (Py.subscript _ _) as [x|c]; cbn [run_bind] in H; [|discriminate].
    destruct (FetchInjuries.main find_one rest) as [w|c]; cbn [run_bind] in H; [|discriminate].
    injection H as <-. constructor; [|apply Hrest; reflexivity].
    cbn [fst snd].
    assert (Hdoc : exists doc,
               FetchInjuries.fetch_player_from_db find_one n = convert_objectid_to_str doc /\
               Py.truthy doc = true /\
               (find_one "display_name" n = Ok doc \/
                exists first, find_one "display_name" n = Ok first /\
                              Py.truthy first = false /\ find_one "name" n = Ok doc)).
    { unfold FetchInjuries.fetch_player_from_db in *.
      destruct (find_one "display_name" n) as [first|e]; [|discriminate].
      destruct (Py.truthy first) eqn:Ef; cbn [negb] in *.
      - exists first. rewrite Ef in *. repeat split; try assumption. left. reflexivity.
      - destruct (find_one "name" n) as [doc|e]; [|discriminate].
        destruct (Py.truthy doc) eqn:Ed; [|discriminate].
        exists doc. repeat split; try assumption. right. exists first. repeat split. exact Ef. }
    destruct Hdoc as (doc & Ec & Hd & Hq). rewrite Ec in Em.
    rewrite (serialisable_is_kept _ (converted_is_serialisable doc)) in Em.
    split; [apply (MergeFacts.merged_is_serialisable doc row m Em)|].
    exists row, doc. split; [left; reflexivity|]. repeat split; assumption.
Qed.

(** ** The rows of the response, as the scripts read them *)

Section ResponseRows.

Variable trim : string -> string.
Variable extract_from_url : option string -> option string.

(** Every record that the row parser returns has the four keys of a row
    and names its player by a non-empty string, and its injury is a
    non-empty string: on the rows of a response, the subscript
    [player_info["player"]["name"]] of the scripts does not raise.  Such
    a row holds no [ObjectId] and no [datetime], so that its conversion
    in the scripts returns it unchanged. *)
Theorem response_rows_name_their_player (tr : node) (col_map : gmap string Z) (r : pyval) :
  _parse_row trim extract_from_url tr col_map = Ok (Some r) ->
  keys (of_pyval r) = ["player"; "injury"; "since"; "until"] /\
  (exists name, name <> EmptyString /\
                FetchInjuriesOptimized.row_name (of_pyval r) = Done (VStr name)) /\
  (exists injury, injury <> EmptyString /\
                  Py.subscript (of_pyval r) "injury" = Done (VStr injury)) /\
  convert_objectid_to_str (of_pyval r) = of_pyval r.
Proof.
  intros H. unfold _parse_row in H.
  destruct (Html.xpath_child "td" tr) as [|t ts]; [discriminate|].
  destruct (parse_player _ _ _ _) as [[pn pu]|e]; simpl in H; [|discriminate].
  destruct (parse_club _ _ _) as [[cn cu]|e]; simpl in H; [|discriminate].
  destruct (cell_text trim col_map (t :: ts) "injury") as [inj|e]; simpl in H; [|discriminate].
  destruct (cell_text trim col_map (t :: ts) "since") as [st|e]; simpl in H; [|discriminate].
  destruct (cell_text trim col_map (t :: ts) "until") as [ut|e]; simpl in H; [|discriminate].
  destruct (sibling_dates _ _ _ _) as [since until].
  destruct (PyStr.truthy pn && PyStr.truthy inj) eqn:Et; cbn [negb] in H; [|discriminate].
  injection H as <-. apply andb_true_iff in Et as [Hpn Hinj].
  destruct pn as [[|c name]|]; try discriminate.
  destruct inj as [[|c' injury]|]; try discriminate.
  split; [reflexivity|].
  split; [exists (String c name); split; [discriminate|reflexivity]|].
  split; [exists (String c' injury); split; [discriminate|reflexivity]|].
  apply serialisable_is_kept. unfold record_of.
  destruct (extract_from_url pu), pu, (extract_from_url cu), cn as [[|]|], cu as [[|]|],
    since, until; reflexivity.
Qed.

End ResponseRows.

(** * The search script *)

Module NameFacts.
Import PyStr.
#[local] Arguments String.append !_ _ / : simpl nomatch.

Lemma rstrip_suffix (p : ascii -> bool) (a t : string) :
  rstrip_by p (a +:+ t) = a +:+ t -> rstrip_by p t = t.
Proof.
  induction a as [|c a IH]; cbn [String.append]; [auto|].
  cbn [rstrip_by].
  destruct (is_empty (rstrip_by p (a +:+ t)) && p c); [intros H; discriminate H|].
  intros [= H]. apply IH. exact H.
Qed.

Lemma strip_idempotent (s : string) : strip (strip s) = strip s.
Proof.
  unfold strip.
  destruct (DateFacts.lstrip_inv isspace (rstrip_by isspace s)) as (ws & E & _).
  set (t := lstrip_by isspace (rstrip_by isspace s)) in *.
  assert (Ht : rstrip_by isspace t = t).
  { apply (rstrip_suffix isspace ws). rewrite <- E. apply UrlFacts.rstrip_idem. }
  rewrite Ht. pose proof (UrlFacts.lstrip_head isspace (rstrip_by isspace s)) as Hh.
  fold t in Hh. destruct t as [|c t']; [reflexivity|].
  cbn [lstrip_by]. rewrite Hh. reflexivity.
Qed.

End NameFacts.

(** The names read from the file are the stripped lines that are not
    blank, in the order of the lines.  A line that is blank once stripped
    gives no name; any other line gives exactly its stripped text; and
    the names of a file in two parts are those of the first part followed
    by those of the second: the three together fix the list and its
    order.  Hence a name is in the list exactly when it is not empty and
    is a line of the file, stripped; and no name begins or ends with
    white space. *)
Theorem names_are_stripped_lines (lines : list string) :
  Forall (fun name => name <> EmptyString /\ PyStr.strip name = name /\
                      exists ln, In ln lines /\ name = PyStr.strip ln)
         (FetchPlayerInfo.read_names_from_csv lines) /\
  (forall l1 l2, FetchPlayerInfo.read_names_from_csv (l1 ++ l2)
                 = FetchPlayerInfo.read_names_from_csv l1
                   ++ FetchPlayerInfo.read_names_from_csv l2) /\
  (forall ln, PyStr.strip ln = EmptyString ->
              FetchPlayerInfo.read_names_from_csv [ln] = []) /\
  (forall ln, PyStr.strip ln <> EmptyString ->
              FetchPlayerInfo.read_names_from_csv [ln] = [PyStr.strip ln]) /\
  (forall l1 ln l2, PyStr.strip ln <> EmptyString ->
              FetchPlayerInfo.read_names_from_csv (l1 ++ ln :: l2)
              = FetchPlayerInfo.read_names_from_csv l1
                ++ PyStr.strip ln :: FetchPlayerInfo.read_names_from_csv l2) /\
  (forall name, In name (FetchPlayerInfo.read_names_from_csv lines) <->
                name <> EmptyString /\ exists ln, In ln lines /\ name = PyStr.strip ln).
Proof.
  unfold FetchPlayerInfo.read_names_from_csv.
  assert (Hone : forall ln, PyStr.strip ln <> EmptyString ->
            List.filter (fun ln => negb (PyStr.is_empty (PyStr.strip ln))) [ln] = [ln]).
  { intros ln Hne. cbn [List.filter].
    destruct (PyStr.strip ln); [destruct (Hne eq_refl)|reflexivity]. }
  split; [|split; [|split; [|split; [|split]]]].
  - apply List.Forall_forall. intros name Hin.
    apply List.in_map_iff in Hin as (ln & <- & Hin).
    apply List.filter_In in Hin as [Hin Hne].
    split; [intros E; rewrite E in Hne; discriminate|].
    split; [apply NameFacts.strip_idempotent|].
    exists ln. split; [exact Hin|reflexivity].
  - intros l1 l2. rewrite List.filter_app, List.map_app. reflexivity.
  - intros ln E. cbn [List.filter]. rewrite E. reflexivity.
  - intros ln Hne. rewrite (Hone ln Hne). reflexivity.
  - intros l1 ln l2 Hne.
    change (ln :: l2) with ([ln] ++ l2).
    rewrite !List.filter_app, (Hone ln Hne), !List.map_app. reflexivity.
  - intros name. split.
    + intros Hin. apply List.in_map_iff in Hin as (ln & <- & Hin).
      apply List.filter_In in Hin as [Hin Hne].
      split; [intros E; rewrite E in Hne; discriminate|].
      exists ln. split; [exact Hin|reflexivity].
    + intros (Hne & ln & Hin & ->). apply List.in_map, List.filter_In.
      split; [exact Hin|]. destruct (PyStr.strip ln); [destruct (Hne eq_refl)|reflexivity].
Qed.

(** ** One search, with its retries *)

Section SessionProperties.
Import FetchPlayerInfo.

Variable status_error : Z -> string.
Variable session_get : nat -> reply.

Lemma failure_well_formed (name : string) (status : option Z) (last : option string) :
  well_formed name (failure name status last).
Proof.
  split; [reflexivity|]. split; [discriminate|].
  intros _. split; [reflexivity|]. eexists. reflexivity.
Qed.

Lemma try_once_returns (name : string) (attempt : nat) (st st' : option Z)
  (rec : PlayerFetchRecord) :
  try_once status_error session_get name attempt st = (st', Return rec) ->
  well_formed name rec.
Proof.
  unfold try_once.
  destruct (session_get attempt) as [e|status body].
  { destruct (caught_for_retry e); discriminate. }
  destruct (retryable_status status) eqn:Er; [discriminate|].
  destruct ((400 <=? status) && (status <? 600)) eqn:Eh; [discriminate|].
  destruct body as [text|data]; [discriminate|].
  destruct (get_results data) as [text|results]; [discriminate|].
  destruct (first_of results) as [text|first]; [discriminate|].
  destruct first; intros [= _ <-]; (split; [reflexivity|]); cbn [success first_result error status_code];
    (split; [|first [discriminate | intros _; split; [reflexivity|eexists; reflexivity]]]);
    first [discriminate
          | intros _; split; [discriminate|]; split; [reflexivity|];
            exists status; repeat split; assumption].
Qed.

Lemma attempts_bounds (name : string) (remaining : nat) :
  forall attempt last st sleeps rec requests sleeps',
  attempts status_error session_get name remaining attempt last st sleeps
  = (rec, requests, sleeps') ->
  well_formed name rec /\
  (attempt <= requests <= attempt + remaining)%nat /\
  (sleeps <= sleeps')%nat /\
  (sleeps' + attempt <= requests + sleeps)%nat /\
  (success rec = true -> (sleeps' + attempt + 1 = requests + sleeps)%nat).
Proof.
  induction remaining as [|remaining IH]; intros attempt last st sleeps rec requests sleeps' H;
    cbn [attempts] in H.
  - injection H as <- <- <-. split; [apply failure_well_formed|].
    repeat split; first [lia | discriminate].
  - destruct (try_once status_error session_get name (S attempt) st) as [st' [r|e|e]] eqn:Et.
    + injection H as <- <- <-. split; [apply (try_once_returns _ _ _ _ _ Et)|].
      repeat split; try lia.
    + apply IH in H as (Hw & Hr & Hs & Hd & Hsucc). split; [exact Hw|].
      repeat split; try lia. intros Hx. specialize (Hsucc Hx). lia.
    + injection H as <- <- <-. split; [apply failure_well_formed|].
      repeat split; first [lia | discriminate].
Qed.

(** A search makes at most [max_retries] requests, and none when
    [max_retries] is not positive; it sleeps at most once for each
    request, and once for each request but the last when it succeeds.
    Its record repeats the name; a successful record has a result, no
    error, and a status that is neither one of the four retried ones nor
    an HTTP error; a failed record has an error and no result. *)
Theorem search_is_bounded_and_consistent (name : string) (max_retries : Z) :
  let '(rec, requests, sleeps) :=
    fetch_first_result status_error session_get name max_retries in
  (requests <= Z.to_nat max_retries)%nat /\
  (sleeps <= requests)%nat /\
  (success rec = true -> (sleeps = requests - 1)%nat) /\
  query rec = name /\
  (success rec = true ->
   first_result rec <> VNone /\ error rec = None /\
   exists status, status_code rec = Some status /\ retryable_status status = false /\
                  (400 <=? status) && (status <? 600) = false) /\
  (success rec = false -> first_result rec = VNone /\ exists e, error rec = Some e) /\
  (max_retries <= 0 -> requests = 0%nat /\ error rec = Some "Unknown error").
Proof.
  unfold fetch_first_result.
  destruct (attempts status_error session_get name (Z.to_nat max_retries) 0 None None 0)
    as [[rec requests] sleeps] eqn:E.
  pose proof (attempts_bounds _ _ _ _ _ _ _ _ _ E) as ((Hq & Hs & Hf) & Hr & _ & Hd & Hsucc).
  split; [lia|]. split; [lia|]. split; [intros Hx; specialize (Hsucc Hx); lia|].
  split; [exact Hq|]. split; [exact Hs|]. split; [exact Hf|].
  intros Hm. replace (Z.to_nat max_retries) with 0%nat in E by lia.
  cbn [attempts] in E. injection E as <- <- _. split; reflexivity.
Qed.

(** Every HTTP error status is retried, not the four named ones only:
    when each of the first [n] replies has a status from 400 to 599, a
    search with [n] retries makes [n] requests, sleeps [n] times, after
    the last request too, and fails. *)
Theorem every_http_error_is_retried (name : string) (n : nat) :
  (forall k, (1 <= k <= n)%nat ->
             exists status body,
               session_get k = Response status body /\ 400 <= status < 600) ->
  exists rec,
    fetch_first_result status_error session_get name (Z.of_nat n) = (rec, n, n) /\
    success rec = false /\
    (forall status body, (1 <= n)%nat -> session_get n = Response status body ->
                         status_code rec = Some status).
Proof.
  intros H. unfold fetch_first_result. rewrite Nat2Z.id.
  assert (G : forall remaining attempt last st sleeps,
             (attempt + remaining = n)%nat ->
             (forall status body, (1 <= attempt)%nat ->
                                  session_get attempt = Response status body ->
                                  st = Some status) ->
             exists rec,
               attempts status_error session_get name remaining attempt last st sleeps
               = (rec, n, (sleeps + remaining)%nat) /\
               success rec = false /\
               (forall status body, (1 <= n)%nat -> session_get n = Response status body ->
                                    status_code rec = Some status)).
  { induction remaining as [|remaining IH]; intros attempt last st sleeps Hn Hst.
    - cbn [attempts]. exists (failure name st last). split; [|split; [reflexivity|]].
      + replace attempt with n by lia. rewrite Nat.add_0_r. reflexivity.
      + cbn [failure status_code]. replace n with attempt by lia. exact Hst.
    - cbn [attempts].
      destruct (H (S attempt)) as (status & body & Eg & Hrange); [lia|].
      unfold try_once. rewrite Eg.
      assert (Hh : (400 <=? status) && (status <? 600) = true).
      { apply andb_true_iff. split; [apply Z.leb_le|apply Z.ltb_lt]; lia. }
      assert (Hnext : forall s b, (1 <= S attempt)%nat ->
                                  session_get (S attempt) = Response s b ->
                                  Some status = Some s).
      { intros s b _ Eb. rewrite Eg in Eb. injection Eb as -> _. reflexivity. }
      destruct (retryable_status status); [|rewrite Hh].
      + destruct (IH (S attempt) (Some (retryable_text status name)) (Some status)
                    (S sleeps)) as (rec & -> & Hrec); [lia|exact Hnext|].
        exists rec. split; [f_equal; lia|exact Hrec].
      + destruct (IH (S attempt) (Some (status_error status)) (Some status) (S sleeps))
          as (rec & -> & Hrec); [lia|exact Hnext|].
        exists rec. split; [f_equal; lia|exact Hrec]. }
  destruct (G n 0%nat None None 0%nat) as (rec & E & Hrec); [lia|intros ? ? Hk; lia|].
  exists rec. split; [exact E|exact Hrec].
Qed.

End SessionProperties.

(** ** The run over all names *)

Section MainProperties.
Import FetchPlayerInfo.

Variable status_error : Z -> string.
Variable session_get : nat -> string -> nat -> reply.
Variable duration_sec : nat -> value.

Lemma fetched_record_query (call : nat) (name : string) :
  query (fst (fst (fetch_first_result status_error (session_get call name) name 3))) = name.
Proof.
  unfold fetch_first_result.
  destruct (attempts status_error (session_get call name) name (Z.to_nat 3) 0 None None 0)
    as [[rec requests] sleeps] eqn:E.
  apply attempts_bounds in E as ((Hq & _) & _). exact Hq.
Qed.

Lemma process_spec (resume : bool) (processed : list value) (names : list string) :
  forall st,
  let st' := process status_error session_get duration_sec resume processed names st in
  (success_count st' + fail_count st' + fetches st
   = success_count st + fail_count st + fetches st')%nat /\
  (fetches st <= fetches st' <= fetches st + length names)%nat /\
  (resume = false -> fetches st' = (fetches st + length names)%nat) /\
  exists new,
    items st' = items st ++ new /\
    (length new + fetches st = fetches st')%nat /\
    Forall (fun it => exists call rec,
              it = item_of duration_sec call rec /\ In (query rec) names) new /\
    (resume = false ->
     Forall2 (fun name it => exists call rec,
                it = item_of duration_sec call rec /\ query rec = name) names new).
Proof.
  induction names as [|name rest IH]; intros st; cbn [process].
  - cbv zeta. split; [lia|]. split; [cbn [length]; lia|].
    split; [intros _; cbn [length]; lia|].
    exists (@nil value). rewrite app_nil_r.
    split; [reflexivity|]. split; [reflexivity|]. split; [constructor|intros _; constructor].
  - destruct (resume && is_processed name processed) eqn:Eskip.
    + specialize (IH st). cbv zeta in IH. destruct IH as (Hc & Hf & Hr & new & Hi & Hl & Hq & Hz).
      cbv zeta. split; [exact Hc|]. split; [cbn [length]; lia|].
      split; [intros ->; discriminate|].
      exists new. split; [exact Hi|]. split; [exact Hl|].
      split; [|intros ->; discriminate].
      eapply Forall_impl; [exact Hq|]. intros it (call & rec & -> & Hin).
      exists call, rec. split; [reflexivity|right; exact Hin].
    + cbv zeta.
      set (rec := fst (fst (fetch_first_result status_error
                              (session_get (fetches st) name) name 3))).
      assert (Hrec : query rec = name) by apply fetched_record_query.
      match goal with
      | |- context [process _ _ _ _ _ _ ?s] => set (st1 := s)
      end.
      specialize (IH st1). cbv zeta in IH.
      destruct IH as (Hc & Hf & Hr & new & Hi & Hl & Hq & Hz).
      assert (Hcount : (success_count st1 + fail_count st1
                        = S (success_count st + fail_count st))%nat).
      { unfold st1. cbn [success_count fail_count]. destruct (success rec); lia. }
      change (fetches st1) with (S (fetches st)) in *.
      change (items st1) with (items st ++ [item_of duration_sec (fetches st) rec]) in Hi.
      split; [lia|]. split; [cbn [length]; lia|].
      split; [intros E; specialize (Hr E); cbn [length]; lia|].
      exists (item_of duration_sec (fetches st) rec :: new).
      split; [rewrite Hi, <- app_assoc; reflexivity|].
      split; [cbn [length]; lia|]. split.
      * constructor.
        -- exists (fetches st), rec. split; [reflexivity|left; symmetry; exact Hrec].
        -- eapply Forall_impl; [exact Hq|]. intros it (call & r & -> & Hin).
           exists call, r. split; [reflexivity|right; exact Hin].
      * intros E. constructor; [|apply Hz; exact E].
        exists (fetches st), rec. split; [reflexivity|exact Hrec].
Qed.

(** The counters of a run agree with what it did: the successes and the
    failures add up to the number of searches made, which is the number
    of names without [--resume] and at most that with it; every search
    appends one item, built from its record and naming one of the names
    read; and the items that a resumed run starts from stay in front,
    unchanged. *)
Theorem run_counters_are_consistent (names : list string) (existing_items : list value)
  (resume : bool) (t : progress) :
  main status_error session_get duration_sec names existing_items resume = Done t ->
  (success_count t + fail_count t = fetches t)%nat /\
  (fetches t <= length names)%nat /\
  (resume = false -> fetches t = length names) /\
  exists new,
    items t = (if resume then existing_items else []) ++ new /\
    length new = fetches t /\
    Forall (fun it => exists call rec,
              it = item_of duration_sec call rec /\ In (query rec) names) new.
Proof.
  unfold main. destruct names as [|name rest]; [discriminate|].
  destruct (processed_success_names existing_items) as [processed|c]; cbn [run_bind];
    [|discriminate].
  cbv zeta.
  pose proof (process_spec resume processed (name :: rest)
                (mkProgress (if resume then existing_items else []) 0 0 0 0)) as P.
  cbv zeta in P. cbn [success_count fail_count fetches items] in P.
  set (t0 := process status_error session_get duration_sec resume processed (name :: rest) _)
    in *.
  clearbody t0. intros [= <-].
  destruct P as (Hc & Hf & Hr & new & Hi & Hl & Hq & _).
  split; [lia|]. split; [lia|]. split; [intros E; rewrite (Hr E); reflexivity|].
  exists new. split; [exact Hi|]. split; [lia|exact Hq].
Qed.

End MainProperties.

Section ResumeProperties.
Import FetchPlayerInfo.

Variable status_error : Z -> string.
Variable session_get : nat -> string -> nat -> reply.
Variable duration_sec : nat -> value.

(** The second run may meet another server and other durations. *)
Variable status_error' : Z -> string.
Variable session_get' : nat -> string -> nat -> reply.
Variable duration_sec' : nat -> value.

Lemma process_skips_processed (processed : list value) (names : list string) :
  Forall (fun name => is_processed name processed = true) names ->
  forall st,
  process status_error' session_get' duration_sec' true processed names st = st.
Proof.
  intros H. induction H as [|name rest Hn _ IH]; intros st; cbn [process]; [reflexivity|].
  rewrite Hn. cbn [andb]. apply IH.
Qed.

Lemma saved_items_queries (names : list string) (new : list value) :
  Forall2 (fun name it => exists call rec,
             it = item_of duration_sec call rec /\ query rec = name) names new ->
  Forall (fun it => item_get it "success" = Done (VBool true) /\
                    exists found, item_get it "first_result" = Done found /\
                                  Py.truthy found = true) new ->
  successful_queries "firstResult" new = Done [] /\
  successful_queries "first_result" new = Done (List.map VStr names).
Proof.
  intros H. induction H as [|name it rest new' (call & rec & -> & Hq) _ IH]; intros Hs.
  - split; reflexivity.
  - inversion Hs as [|? ? [Hsucc (found & Hf & Ht)] Hs']; subst.
    destruct (IH Hs') as [IH1 IH2]. clear IH.
    cbn [successful_queries]. rewrite Hsucc. cbn [run_bind].
    change (item_get (item_of duration_sec call rec) "firstResult") with (Done VNone).
    cbn [run_bind Py.truthy]. rewrite Hf. cbn [run_bind]. rewrite Ht.
    change (item_get (item_of duration_sec call rec) "query") with (Done (VStr (query rec))).
    cbn [run_bind]. rewrite IH1, IH2. cbn [run_bind List.map].
    split; reflexivity.
Qed.

Lemma mapped_names_processed (names : list string) :
  Forall (fun name => is_processed name (List.map VStr names) = true) names.
Proof.
  apply List.Forall_forall. intros name Hin. unfold is_processed.
  apply existsb_exists. exists (VStr name). split; [apply List.in_map; exact Hin|].
  apply String.eqb_refl.
Qed.

(** Resuming after a complete run does nothing.  When a run without
    [--resume] has ended and each of its items is saved as successful
    with a result that is not empty, a run with [--resume] over the same
    names and these items makes no search, whatever the server would
    answer, and ends with the same items and both counters at zero. *)
Theorem resume_after_complete_run_fetches_nothing (names : list string)
  (existing_items : list value) (t : progress) :
  main status_error session_get duration_sec names existing_items false = Done t ->
  Forall (fun it => item_get it "success" = Done (VBool true) /\
                    exists found, item_get it "first_result" = Done found /\
                                  Py.truthy found = true) (items t) ->
  main status_error' session_get' duration_sec' names (items t) true
  = Done (mkProgress (items t) 0 0 0 0).
Proof.
  unfold main. destruct names as [|name rest]; [discriminate|].
  destruct (processed_success_names existing_items) as [processed|c]; cbn [run_bind];
    [|discriminate].
  cbv zeta.
  pose proof (process_spec status_error session_get duration_sec false processed
                (name :: rest) (mkProgress [] 0 0 0 0)) as P.
  cbv zeta in P. cbn [items] in P.
  set (t0 := process status_error session_get duration_sec false processed (name :: rest) _)
    in *.
  clearbody t0. intros [= <-] Hs.
  destruct P as (_ & _ & _ & new & Hi & _ & _ & Hz). cbn [app] in Hi.
  rewrite Hi in *. specialize (Hz eq_refl).
  destruct (saved_items_queries (name :: rest) new Hz Hs) as [E1 E2].
  unfold processed_success_names. rewrite E1, E2. cbn [run_bind app].
  rewrite process_skips_processed; [reflexivity|].
  apply mapped_names_processed.
Qed.

End ResumeProperties.

(** ** The further properties on the sample pages *)

(** The marked sample page has one body row, which is accepted. *)
Lemma extraction_rows_in_document_order_witness :
  exists doc table results,
    page Sample.served = Some doc /\
    _get_injuries_table doc = Ok table /\
    Forall2 (fun tr r => _parse_row PyStr.strip Sample.no_id tr (_build_column_map table) = Ok r)
            (xpath_body_rows table) results /\
    dict_get "rows" (response Sample.extracted) = Some (PyList (omap id results)).
Proof.
  apply (extraction_rows_in_document_order PyStr.strip Sample.no_id Sample.clock
           Sample.served Sample.extracted).
  reflexivity.
Defined.


Lemma extraction_frame_witness :
  URL Sample.extracted = URL Sample.served /\
  page Sample.extracted = page Sample.served /\
  fetched Sample.extracted = fetched Sample.served /\
  (forall k, k <> "league" -> k <> "updatedAt" -> k <> "rows" ->
             dict_get k (response Sample.extracted) = dict_get k (response Sample.served)) /\
  exists doc, page Sample.served = Some doc /\
    dict_get "league" (response Sample.extracted)
    = Some (PyDict
        [("name", py_opt (_guess_league_name PyStr.strip doc));
         ("url", PyStr_ match _canonical_url PyStr.strip doc with
                        | Some u => if PyStr.is_empty u then URL Sample.served else u
                        | None => URL Sample.served
                        end)]).
Proof.
  apply (extraction_frame PyStr.strip Sample.no_id Sample.clock
           Sample.served Sample.extracted).
  reflexivity.
Defined.

(** The richer page lacks the marked table, the given URL serves it: two
    fetches, and the object keeps the given URL. *)
Lemma construction_fetches_richer_first_witness :
  exists primary,
    _ensure_plus_variant Sample.accept_host (URL (Sample.fresh Sample.league_url))
    = Ok primary /\
    response (visit (visit (Sample.fresh Sample.league_url)
                       Sample.league_url_plus Sample.plain_page)
                Sample.league_url Sample.items_page)
    = response (Sample.fresh Sample.league_url) /\
    ((URL (visit (visit (Sample.fresh Sample.league_url)
                    Sample.league_url_plus Sample.plain_page)
             Sample.league_url Sample.items_page) = primary /\
      fetched (visit (visit (Sample.fresh Sample.league_url)
                        Sample.league_url_plus Sample.plain_page)
                 Sample.league_url Sample.items_page)
      = fetched (Sample.fresh Sample.league_url) ++ [primary]) \/
     (primary <> URL (Sample.fresh Sample.league_url) /\
      URL (visit (visit (Sample.fresh Sample.league_url)
                    Sample.league_url_plus Sample.plain_page)
             Sample.league_url Sample.items_page)
      = URL (Sample.fresh Sample.league_url) /\
      fetched (visit (visit (Sample.fresh Sample.league_url)
                        Sample.league_url_plus Sample.plain_page)
                 Sample.league_url Sample.items_page)
      = fetched (Sample.fresh Sample.league_url)
        ++ [primary; URL (Sample.fresh Sample.league_url)])).
Proof.
  apply (construction_fetches_richer_first Sample.accept_host Sample.serve_plain_on_plus
           Sample.guard_raises (Sample.fresh Sample.league_url)).
  reflexivity.
Defined.


(** The sample URL and its richer variant differ in the path only. *)
Lemma plus_variant_keeps_components_witness :
  exists parts',
    Url.urlsplit Sample.accept_host Sample.league_url_plus = Ok parts' /\
    scheme parts' = scheme Sample.league_parts /\
    netloc parts' = netloc Sample.league_parts /\
    query parts' = query Sample.league_parts /\
    fragment parts' = fragment Sample.league_parts /\
    path parts' = "/championship/verletztespieler/wettbewerb/GB2/plus/1" /\
    (PyStr.contains "/plus/" (path Sample.league_parts)
     || PyStr.endswith "/plus/1" (path Sample.league_parts) = true ->
     Sample.league_url_plus = Sample.league_url).
Proof.
  apply (UrlComponents.plus_variant_keeps_components Sample.accept_host
           Sample.league_url Sample.league_url_plus Sample.league_parts).
  - reflexivity.
  - discriminate.
  - reflexivity.
Defined.

(** The since column of the sample row holds "11.10.2025". *)
Lemma mapped_dates_are_not_overridden_witness :
  py_field "since" Sample.dated_record = Some (PyStr_ "2025-10-11").
Proof.
  apply (mapped_dates_are_not_overridden PyStr.strip Sample.no_id
           Sample.row_one_sibling Sample.cm_with_since Sample.dated_record
           "since" (Some "11.10.2025") "2025-10-11").
  - left. reflexivity.
  - reflexivity.
  - reflexivity.
  - reflexivity.
Defined.

(** The sample document merged with the sample row: the row's injury
    replaces the document's. *)
Lemma merge_prefers_the_injury_row_witness :
  Py.merge (VDict (Sample.items_of (convert_objectid_to_str Sample.player_doc)))
           (VDict (Sample.items_of Sample.injury_row))
  = Done (VDict (Py.update (Sample.items_of (convert_objectid_to_str Sample.player_doc))
                           (Sample.items_of Sample.injury_row))) /\
  forall k,
    Py.get k (Py.update (Sample.items_of (convert_objectid_to_str Sample.player_doc))
                        (Sample.items_of Sample.injury_row))
    = match Py.get k (Sample.items_of Sample.injury_row) with
      | Some v => Some v
      | None => Py.get k (Sample.items_of (convert_objectid_to_str Sample.player_doc))
      end.
Proof.
  apply (merge_prefers_the_injury_row
           (Sample.items_of (convert_objectid_to_str Sample.player_doc))
           (Sample.items_of Sample.injury_row)).
  - vm_compute.
    repeat (apply List.NoDup_cons; [simpl; intuition discriminate|]). apply List.NoDup_nil.
  - vm_compute.
    repeat (apply List.NoDup_cons; [simpl; intuition discriminate|]). apply List.NoDup_nil.
Defined.

Lemma main_merges_every_known_player_witness :
  FetchInjuriesOptimized.main Sample.find_john [Sample.injury_row]
  = Done (omap (merged_record Sample.player_index) [Sample.injury_row]) /\
  Forall (fun m => serialisable m = true)
         (omap (merged_record Sample.player_index) [Sample.injury_row]).
Proof.
  apply (main_merges_every_known_player Sample.find_john [Sample.injury_row]
           [VStr "John Doe"] [Sample.player_doc] Sample.player_index).
  - reflexivity.
  - constructor; [exists "John Doe"; reflexivity|constructor].
  - reflexivity.
  - reflexivity.
Defined.

Lemma main_crashes_without_the_index_witness :
  FetchInjuriesOptimized.main Sample.find_fails [Sample.injury_row]
  = Crash AttributeError.
Proof.
  apply (main_crashes_without_the_index Sample.find_fails [Sample.injury_row]
           [VStr "John Doe"]); reflexivity.
Defined.

Lemma per_player_script_writes_merged_records_witness :
  Forall (fun nm =>
            serialisable (snd nm) = true /\
            exists row doc,
              In row [Sample.injury_row] /\
              FetchInjuriesOptimized.row_name row = Done (fst nm) /\
              Py.truthy doc = true /\
              (Sample.find_one_john "display_name" (fst nm) = Ok doc \/
               exists first, Sample.find_one_john "display_name" (fst nm) = Ok first /\
                             Py.truthy first = false /\
                             Sample.find_one_john "name" (fst nm) = Ok doc) /\
              Py.merge (convert_objectid_to_str doc) (convert_objectid_to_str row)
              = Done (snd nm))
         Sample.written_records.
Proof.
  apply (per_player_script_writes_merged_records Sample.find_one_john [Sample.injury_row]).
  reflexivity.
Defined.

Lemma response_rows_name_their_player_witness :
  keys (of_pyval Sample.dated_record) = ["player"; "injury"; "since"; "until"] /\
  (exists name, name <> EmptyString /\
                FetchInjuriesOptimized.row_name (of_pyval Sample.dated_record)
                = Done (VStr name)) /\
  (exists injury, injury <> EmptyString /\
                  Py.subscript (of_pyval Sample.dated_record) "injury" = Done (VStr injury)) /\
  convert_objectid_to_str (of_pyval Sample.dated_record) = of_pyval Sample.dated_record.
Proof.
  apply (response_rows_name_their_player PyStr.strip Sample.no_id
           Sample.row_one_sibling Sample.cm_with_since).
  reflexivity.
Defined.

(** Three requests answered with 404. *)
Lemma every_http_error_is_retried_witness :
  exists rec,
    FetchPlayerInfo.fetch_first_result Sample.status_text Sample.always_404
      "John Doe" (Z.of_nat 3)
    = (rec, 3%nat, 3%nat) /\
    FetchPlayerInfo.success rec = false /\
    (forall status body, (1 <= 3)%nat ->
                         Sample.always_404 3 = FetchPlayerInfo.Response status body ->
                         FetchPlayerInfo.status_code rec = Some status).
Proof.
  apply (every_http_error_is_retried Sample.status_text Sample.always_404 "John Doe" 3).
  intros k _. exists 404, (FetchPlayerInfo.Json VNone). split; [reflexivity|lia].
Defined.

(** A run over two names that are both found. *)
Lemma run_counters_are_consistent_witness :
  (FetchPlayerInfo.success_count Sample.complete_run
   + FetchPlayerInfo.fail_count Sample.complete_run
   = FetchPlayerInfo.fetches Sample.complete_run)%nat /\
  (FetchPlayerInfo.fetches Sample.complete_run <= length Sample.two_names)%nat /\
  (false = false -> FetchPlayerInfo.fetches Sample.complete_run = length Sample.two_names) /\
  exists new,
    FetchPlayerInfo.items Sample.complete_run = [] ++ new /\
    length new = FetchPlayerInfo.fetches Sample.complete_run /\
    Forall (fun it => exists call rec,
              it = FetchPlayerInfo.item_of Sample.no_duration call rec /\
              In (FetchPlayerInfo.query rec) Sample.two_names) new.
Proof.
  apply (run_counters_are_consistent Sample.status_text Sample.finds_everyone
           Sample.no_duration Sample.two_names [] false Sample.complete_run).
  reflexivity.
Defined.

(** The same names again, with [--resume], against a server that would
    find no one. *)
Lemma resume_after_complete_run_fetches_nothing_witness :
  FetchPlayerInfo.main Sample.status_text Sample.finds_no_one Sample.no_duration
    Sample.two_names (FetchPlayerInfo.items Sample.complete_run) true
  = Done (FetchPlayerInfo.mkProgress (FetchPlayerInfo.items Sample.complete_run) 0 0 0 0).
Proof.
  apply (resume_after_complete_run_fetches_nothing Sample.status_text Sample.finds_everyone
           Sample.no_duration Sample.status_text Sample.finds_no_one Sample.no_duration
           Sample.two_names []).
  - reflexivity.
  - repeat (constructor; [split; [reflexivity|eexists; split; reflexivity]|]).
    constructor.
Defined.

(** ** Which table the locator returns *)

Lemma filter_first {A : Type} (f : A -> bool) (l : list A) (x : A) (rest : list A) :
  List.filter f l = x :: rest ->
  f x = true /\
  exists pre post, l = pre ++ x :: post /\ Forall (fun y => f y = false) pre.
Proof.
  induction l as [|a l IH]; cbn [List.filter]; [discriminate|].
  destruct (f a) eqn:Ea.
  - intros [= -> _]. split; [exact Ea|]. exists [], l. split; [reflexivity|constructor].
  - intros H. destruct (IH H) as (Hx & pre & post & -> & Hpre). split; [exact Hx|].
    exists (a :: pre), post. split; [reflexivity|]. constructor; assumption.
Qed.

(** The table returned is a table of the page with a header cell, the
    first in document order among the tables that carry the class marker
    and a header when there is one, and otherwise the first among the
    tables with a header: no earlier table of the page qualifies in the
    same way. *)
Theorem located_table_is_the_first_candidate (doc t : node) :
  _get_injuries_table doc = Ok t ->
  Html.has_header t = true /\
  exists pre post,
    Html.xpath_all "table" doc = pre ++ t :: post /\
    ((Html.items_or_responsive t = true /\
      Forall (fun x => Html.items_or_responsive x && Html.has_header x = false) pre) \/
     (Forall (fun x => Html.items_or_responsive x && Html.has_header x = false)
             (Html.xpath_all "table" doc) /\
      Forall (fun x => Html.has_header x = false) pre)).
Proof.
  unfold _get_injuries_table.
  destruct (xpath_marked_tables doc) as [|m ms] eqn:Em.
  - destruct (xpath_header_tables doc) as [|h hs] eqn:Eh; [discriminate|].
    intros [= <-]. unfold xpath_header_tables in Eh.
    apply filter_first in Eh as (Hh & pre & post & E & Hpre).
    split; [exact Hh|]. exists pre, post. split; [exact E|]. right. split; [|exact Hpre].
    rewrite <- guard_is_first_level in Em. unfold xpath_guard_tables in Em.
    apply List.Forall_forall. intros x Hx.
    apply (filter_none_inv _ _ Em x Hx).
  - intros [= <-]. rewrite <- guard_is_first_level in Em. unfold xpath_guard_tables in Em.
    apply filter_first in Em as (Hm & pre & post & E & Hpre).
    apply andb_true_iff in Hm as [Hi Hh].
    split; [exact Hh|]. exists pre, post. split; [exact E|]. left. split; assumption.
Qed.

Lemma located_table_is_the_first_candidate_witness :
  Html.has_header Sample.responsive_table = true /\
  exists pre post,
    Html.xpath_all "table" Sample.responsive_page = pre ++ Sample.responsive_table :: post /\
    ((Html.items_or_responsive Sample.responsive_table = true /\
      Forall (fun x => Html.items_or_responsive x && Html.has_header x = false) pre) \/
     (Forall (fun x => Html.items_or_responsive x && Html.has_header x = false)
             (Html.xpath_all "table" Sample.responsive_page) /\
      Forall (fun x => Html.has_header x = false) pre)).
Proof.
  apply (located_table_is_the_first_candidate Sample.responsive_page Sample.responsive_table).
  reflexivity.
Defined.
